(** * Bengaluru GeoInsights: layer loading, search index and selection

  A shallow embedding of the logic in [src/App.js] and [src/CustomSearch.js]:
  the sharded tree-census loader, the DEM raster normalisation, the search
  index over ward and school features, the bookmark store, and the
  selection state that [toggleLayer] guards.

  Conventions.
  - JavaScript objects that the code shares and mutates (GeoJSON features)
    live in a heap [gmap loc Feature]; datasets, search descriptors and the
    selection hold locations, so aliasing is visible.
  - Strings are [string]; [toLowerCase] and [trim] act on the ASCII range.
  - Numbers are exact rationals [Q] where the code computes with them (the
    DEM ramp) and are kept abstract where the code only stores them.
  - React state is explicit state passing; an effect is run when one of its
    dependencies changed, as React does after the commit.
  - What the platform decides is a parameter: the number of arguments the
    engine takes in one call, whether a call on the Leaflet map returns or
    throws, and the JSON codec of the bookmark store. *)

From Stdlib Require Import ZArith QArith Qround Qminmax String Ascii Permutation Lia.
From Stdlib Require OrderedTypeEx.
From stdpp Require Import gmap strings list pretty sorting.

#[local] Open Scope string_scope.
#[local] Open Scope list_scope.

(** Closed goals are settled by running the model. *)
Ltac by_evaluation := vm_compute; reflexivity.

(** ** JavaScript strings and completions *)
Module Js.

Inductive jsError :=
| TypeError (msg : string).

(** The value of an expression, or the exception its evaluation raises. *)
Inductive result (A : Type) :=
| Value (a : A)
| Raise (e : jsError).
Arguments Value {A} a.
Arguments Raise {A} e.

(** The outcome of running statements on a state: they return normally, or
    an exception leaves the state as the statements before it made it. *)
Inductive completion (A : Type) :=
| Normal (a : A)
| Throw (e : jsError) (a : A).
Arguments Normal {A} a.
Arguments Throw {A} e a.

(** The state a completion ends in. *)
Definition state_of {A : Type} (c : completion A) : A :=
  match c with
  | Normal a => a
  | Throw _ a => a
  end.

Definition lower_ascii (c : ascii) : ascii :=
  let n := nat_of_ascii c in
  if (65 <=? n)%nat && (n <=? 90)%nat then ascii_of_nat (n + 32) else c.

(** [String.prototype.toLowerCase], on ASCII letters. *)
Fixpoint toLowerCase (s : string) : string :=
  match s with
  | EmptyString => EmptyString
  | String c s' => String (lower_ascii c) (toLowerCase s')
  end.

(** [s.includes(t)]: [t] occurs in [s] as a substring. *)
Fixpoint includes (s t : string) : bool :=
  String.prefix t s ||
  match s with
  | EmptyString => false
  | String _ s' => includes s' t
  end.

(** [s.startsWith(p)]. *)
Definition startsWith (s p : string) : bool := String.prefix p s.

(** White space as [trim] sees it in the ASCII range: TAB, LF, VT, FF, CR
    and the space. *)
Definition is_white (c : ascii) : bool :=
  let n := nat_of_ascii c in
  ((9 <=? n)%nat && (n <=? 13)%nat) || (n =? 32)%nat.

Fixpoint trimStart (s : string) : string :=
  match s with
  | EmptyString => EmptyString
  | String c s' => if is_white c then trimStart s' else s
  end.

Definition trimEnd (s : string) : string :=
  String.rev (trimStart (String.rev s)).

Definition trim (s : string) : string := trimEnd (trimStart s).

(** Truthiness of a string-valued property that may be absent: [undefined]
    and the empty string are falsy. *)
Definition truthy (v : option string) : bool :=
  match v with
  | Some s => negb (String.eqb s "")
  | None => false
  end.

(** [a || b] on such values. *)
Definition or_else (a b : option string) : option string :=
  if truthy a then a else b.

(** [a || "literal"]. *)
Definition or_literal (a : option string) (d : string) : string :=
  if truthy a then default d a else d.

(** The first and the last character of a string. *)
Definition first_char (s : string) : option ascii := head (list_ascii_of_string s).
Definition last_char (s : string) : option ascii := last (list_ascii_of_string s).

(** A string that [trim] has nothing to take from: not empty, and with a
    character that is no white space at either end. *)
Definition trimmed (s : string) : Prop :=
  exists a b, first_char s = Some a /\ is_white a = false
              /\ last_char s = Some b /\ is_white b = false.

(** [trimStart] read on the list of characters. *)
Fixpoint skip_white (l : list ascii) : list ascii :=
  match l with
  | [] => []
  | c :: l' => if is_white c then skip_white l' else l
  end.

(** A string made of white space only (the empty one included). *)
Definition whitespace_only (s : string) : bool :=
  String.eqb (trim s) "".

End Js.

(** ** GeoJSON features on the heap *)
Module GeoJSON.

(** A coordinates array: a position (numbers) or an array of arrays. *)
#[warnings="-register-all"]
Inductive coordinates :=
| Position (xs : list Q)
| Nested (cs : list coordinates).

Inductive element :=
| Num (q : Q)
| Arr (c : coordinates).

(** [coords.length] *)
Definition coords_length (c : coordinates) : nat :=
  match c with
  | Position xs => length xs
  | Nested cs => length cs
  end.

(** [coords[i]]; [None] is [undefined]. *)
Definition coords_nth (c : coordinates) (i : nat) : option element :=
  match c with
  | Position xs => Num <$> xs !! i
  | Nested cs => Arr <$> cs !! i
  end.

Record Geometry := {
  type : string;
  coords : option coordinates   (* geometry.coordinates *)
}.

Record Tags := { tag_name : option string }.

(** The properties the code reads; each is a string when present. *)
Record Properties := {
  KGISWardName : option string;
  tags : option Tags;
  name : option string;
  TreeName : option string
}.

(** The marker key the school renderer writes on a feature. The renderer
    writes numbers; [toggleLayer] tests for strings. *)
Inductive Key :=
| KNum (n : nat)
| KStr (s : string).

Record Feature := {
  properties : option Properties;
  geometry : option Geometry;
  __key : option Key
}.

Definition set_key (k : Key) (f : Feature) : Feature :=
  {| properties := properties f; geometry := geometry f; __key := Some k |}.

(** The object with no field set. *)
Definition empty_feature : Feature :=
  {| properties := None; geometry := None; __key := None |}.

#[export] Instance Feature_inhabited : Inhabited Feature := populate empty_feature.

(** A reference to a feature object. *)
Definition loc := nat.

Record FeatureCollection := { features : list loc }.

(** [feature.geometry?.coordinates] *)
Definition geometry_coordinates (f : Feature) : option coordinates :=
  geometry f ≫= coords.

(** [feature.geometry?.type === t] *)
Definition geometry_type_is (f : Feature) (t : string) : bool :=
  match geometry f with
  | Some g => String.eqb (type g) t
  | None => false
  end.

(** [feature.properties?.KGISWardName] *)
Definition ward_name (f : Feature) : option string :=
  properties f ≫= KGISWardName.

(** [feature.properties?.tags?.name || feature.properties?.name] *)
Definition school_name (f : Feature) : option string :=
  Js.or_else ((properties f ≫= tags) ≫= tag_name) (properties f ≫= name).

End GeoJSON.

Abbreviation heap := (gmap GeoJSON.loc GeoJSON.Feature).

(** ** The search index ([CustomSearch]) *)
Module CustomSearch.
Import Js GeoJSON.

(** What [L.geoJSON(feature).getBounds()] returns: Leaflet's bounds of the
    feature's geometry, kept symbolic. *)
Inductive LatLngBounds :=
| GeoJSONBounds (g : option Geometry).

Record Item := {
  item_type : string;
  item_name : string;
  feature : loc;
  latlng : option (option element * option element);
  bounds : option LatLngBounds
}.

(** The body of [wardsData.features.forEach]. *)
Definition pushWard (h : heap) (searchableItems : list Item) (l : loc) : list Item :=
  let f := h !!! l in
  let name := or_literal (ward_name f) "Unnamed Ward" in
  searchableItems ++
    [ {| item_type := "Ward"; item_name := name; feature := l;
         latlng := None; bounds := Some (GeoJSONBounds (geometry f)) |} ].

(** The body of [schoolsData.features.forEach]. *)
Definition pushSchool (h : heap) (searchableItems : list Item) (l : loc) : list Item :=
  let f := h !!! l in
  let name := or_literal (school_name f) "Unnamed School" in
  match geometry_coordinates f with
  | Some c =>
      if geometry_type_is f "Point" then
        searchableItems ++
          [ {| item_type := "School"; item_name := name; feature := l;
               latlng := Some (coords_nth c 1, coords_nth c 0);
               bounds := None |} ]
      else searchableItems
  | None => searchableItems
  end.

(** The list built on every render. The component destructures
    [wardsData], [schoolsData] and [onSelectFeature] only: the [treeData]
    prop that [App] passes is not read, so it is an argument that the body
    does not use. *)
Definition searchableItems (h : heap)
    (wardsData schoolsData treeData : option FeatureCollection) : list Item :=
  let items := [] in
  let items :=
    match wardsData with
    | Some d => fold_left (pushWard h) (features d) items
    | None => items
    end in
  match schoolsData with
  | Some d => fold_left (pushSchool h) (features d) items
  | None => items
  end.

Definition matches (lowerQuery : string) (item : Item) : bool :=
  includes (toLowerCase (item_name item)) lowerQuery.

(** The list before [slice(0, 10)]. *)
Definition filtered (h : heap)
    (wardsData schoolsData treeData : option FeatureCollection)
    (query : string) : list Item :=
  List.filter (matches (toLowerCase query))
    (searchableItems h wardsData schoolsData treeData).

(** The query effect: the value given to [setResults] when the query
    changes, computed from the index of that render. *)
Definition results (h : heap)
    (wardsData schoolsData treeData : option FeatureCollection)
    (query : string) : list Item :=
  if (String.length query =? 0)%nat then []
  else take 10 (filtered h wardsData schoolsData treeData query).

(** The descriptors of one dataset, as the two loops produce them. *)
Definition wardItems (h : heap) (d : option FeatureCollection) : list Item :=
  searchableItems h d None None.

Definition schoolItems (h : heap) (d : option FeatureCollection) : list Item :=
  searchableItems h None d None.

(** The descriptor [pushWard] appends for the feature at [l]. *)
Definition wardItem (h : heap) (l : loc) : Item :=
  {| item_type := "Ward";
     item_name := or_literal (ward_name (h !!! l)) "Unnamed Ward";
     feature := l; latlng := None;
     bounds := Some (GeoJSONBounds (geometry (h !!! l))) |}.

(** The test [coords && feature.geometry.type === "Point"] of [pushSchool]. *)
Definition indexable_school (h : heap) (l : loc) : bool :=
  match geometry_coordinates (h !!! l) with
  | Some _ => geometry_type_is (h !!! l) "Point"
  | None => false
  end.

(** The features of a dataset that may be absent. *)
Definition features_of (d : option FeatureCollection) : list loc :=
  match d with
  | Some d => features d
  | None => []
  end.

(** The display names the two loops compute. *)
Definition ward_display_name (h : heap) (l : loc) : string :=
  or_literal (ward_name (h !!! l)) "Unnamed Ward".

Definition school_display_name (h : heap) (l : loc) : string :=
  or_literal (school_name (h !!! l)) "Unnamed School".

(** *** Picking a result ([onSelect]) *)

(** The calls [onSelect] makes on the map. *)
Inductive MapCall :=
| FitBounds (b : LatLngBounds) (maxZoom : nat)
| SetView (center : option element * option element) (zoom : nat).

(** The map of [useMap], as far as [onSelect] depends on it: whether a
    call returns or throws. Leaflet's [fitBounds] throws on bounds that are
    not valid, as those of a feature without geometry are, and [setView] on
    a centre that has no number for its latitude or its longitude. *)
Record Map := {
  returns : MapCall -> bool
}.

(** The state of the search box: the text typed and the list shown. *)
Record Box := {
  query : string;
  shown : list Item
}.

(** What a call of [onSelect] leaves: the box, the calls on the map that
    returned, and the feature handed to [onSelectFeature]; [None] when the
    handler did not get there. *)
Record Picked := {
  box_after : Box;
  moved : list MapCall;
  handed : option loc
}.

(** The call [onSelect] makes on the map: [fitBounds] with [maxZoom: 15]
    when the item has bounds, else [setView] at zoom 17 when it has a
    point. *)
Definition viewport_call (item : Item) : option MapCall :=
  match bounds item with
  | Some b => Some (FitBounds b 15)
  | None =>
      match latlng item with
      | Some center => Some (SetView center 17)
      | None => None
      end
  end.

(** [onSelect(item)]: the box is cleared, the call on the map is made, and
    the feature is handed to [onSelectFeature]. A call on the map that
    throws ends the handler before [onSelectFeature]. *)
Definition onSelect (map : Map) (item : Item) (box : Box) : Picked :=
  let cleared := {| query := ""; shown := [] |} in
  match viewport_call item with
  | Some call =>
      if returns map call
      then {| box_after := cleared; moved := [call]; handed := Some (feature item) |}
      else {| box_after := cleared; moved := []; handed := None |}
  | None => {| box_after := cleared; moved := []; handed := Some (feature item) |}
  end.

End CustomSearch.


(** ** The [App] component: visibility, datasets and the selection *)
Module App.
Import Js GeoJSON.

(** The hook state of [App], the feature objects its datasets point to, and
    the fetches that were issued and have not settled. *)
Record State := {
  layersVisibility : gmap string bool;
  wardData : option FeatureCollection;
  schoolData : option FeatureCollection;
  treeData : option FeatureCollection;
  openPopupFeature : option loc;
  objects : heap;
  next_loc : loc;
  wardFetches : nat;
  schoolFetches : nat;
  treeLoads : nat;
  console : list string
}.

Definition setLayersVisibility (f : gmap string bool -> gmap string bool) (s : State) : State :=
  {| layersVisibility := f (layersVisibility s);
     wardData := wardData s; schoolData := schoolData s; treeData := treeData s;
     openPopupFeature := openPopupFeature s; objects := objects s;
     next_loc := next_loc s; wardFetches := wardFetches s;
     schoolFetches := schoolFetches s; treeLoads := treeLoads s;
     console := console s |}.

Definition setWardData (d : option FeatureCollection) (s : State) : State :=
  {| layersVisibility := layersVisibility s;
     wardData := d; schoolData := schoolData s; treeData := treeData s;
     openPopupFeature := openPopupFeature s; objects := objects s;
     next_loc := next_loc s; wardFetches := wardFetches s;
     schoolFetches := schoolFetches s; treeLoads := treeLoads s;
     console := console s |}.

Definition setSchoolData (d : option FeatureCollection) (s : State) : State :=
  {| layersVisibility := layersVisibility s;
     wardData := wardData s; schoolData := d; treeData := treeData s;
     openPopupFeature := openPopupFeature s; objects := objects s;
     next_loc := next_loc s; wardFetches := wardFetches s;
     schoolFetches := schoolFetches s; treeLoads := treeLoads s;
     console := console s |}.

Definition setTreeData (d : option FeatureCollection) (s : State) : State :=
  {| layersVisibility := layersVisibility s;
     wardData := wardData s; schoolData := schoolData s; treeData := d;
     openPopupFeature := openPopupFeature s; objects := objects s;
     next_loc := next_loc s; wardFetches := wardFetches s;
     schoolFetches := schoolFetches s; treeLoads := treeLoads s;
     console := console s |}.

Definition setOpenPopupFeature (f : option loc) (s : State) : State :=
  {| layersVisibility := layersVisibility s;
     wardData := wardData s; schoolData := schoolData s; treeData := treeData s;
     openPopupFeature := f; objects := objects s;
     next_loc := next_loc s; wardFetches := wardFetches s;
     schoolFetches := schoolFetches s; treeLoads := treeLoads s;
     console := console s |}.

Definition set_objects (h : heap) (n : loc) (s : State) : State :=
  {| layersVisibility := layersVisibility s;
     wardData := wardData s; schoolData := schoolData s; treeData := treeData s;
     openPopupFeature := openPopupFeature s; objects := h;
     next_loc := n; wardFetches := wardFetches s;
     schoolFetches := schoolFetches s; treeLoads := treeLoads s;
     console := console s |}.

Definition set_inflight (w sc t : nat) (s : State) : State :=
  {| layersVisibility := layersVisibility s;
     wardData := wardData s; schoolData := schoolData s; treeData := treeData s;
     openPopupFeature := openPopupFeature s; objects := objects s;
     next_loc := next_loc s; wardFetches := w;
     schoolFetches := sc; treeLoads := t;
     console := console s |}.

Definition console_error (msg : string) (s : State) : State :=
  {| layersVisibility := layersVisibility s;
     wardData := wardData s; schoolData := schoolData s; treeData := treeData s;
     openPopupFeature := openPopupFeature s; objects := objects s;
     next_loc := next_loc s; wardFetches := wardFetches s;
     schoolFetches := schoolFetches s; treeLoads := treeLoads s;
     console := console s ++ [msg] |}.

(** [layersVisibility[layerId]]; a key that is not there reads [undefined],
    which is falsy. *)
Definition visible (layerId : string) (s : State) : bool :=
  default false (layersVisibility s !! layerId).

(** The state [useState] starts from. *)
Definition initial : State :=
  {| layersVisibility :=
       <["ward" := false]> (<["schools" := true]> (<["trees" := false]> (<["dem" := false]> ∅)));
     wardData := None; schoolData := None; treeData := None;
     openPopupFeature := None; objects := ∅; next_loc := 0;
     wardFetches := 0; schoolFetches := 0; treeLoads := 0;
     console := [] |}.

(** Parsing a response creates fresh objects: the features are stored at
    the next free locations, in order. *)
Fixpoint store_all (fs : list Feature) (n : loc) (h : heap) : heap :=
  match fs with
  | [] => h
  | f :: fs' => store_all fs' (S n) (<[n := f]> h)
  end.

Definition allocate (fs : list Feature) (s : State) : FeatureCollection * State :=
  ({| features := seq (next_loc s) (length fs) |},
   set_objects (store_all fs (next_loc s) (objects s)) (next_loc s + length fs) s).

(** *** Rendering *)

(** One step of [schoolData.features.map((feature, idx) => ...)]: a feature
    that passes the guard gets [feature.__key = idx]. *)
Definition renderSchool (idx : nat) (l : loc) (h : heap) : heap :=
  let feature := h !!! l in
  match geometry_coordinates feature with
  | None => h
  | Some c =>
      if negb (geometry_type_is feature "Point") || negb (coords_length c =? 2)%nat
      then h
      else <[l := set_key (KNum idx) feature]> h
  end.

Fixpoint mapFeatures (idx : nat) (ls : list loc) (h : heap) : heap :=
  match ls with
  | [] => h
  | l :: ls' => mapFeatures (S idx) ls' (renderSchool idx l h)
  end.

(** The body of [SchoolLayer], as far as it changes the heap. *)
Definition SchoolLayer_render (visible : bool) (schoolData : option FeatureCollection)
    (h : heap) : heap :=
  match schoolData with
  | Some d => if visible then mapFeatures 0 (features d) h else h
  | None => h
  end.

(** [!openPopupFeature.__key?.startsWith('tree-')]: optional chaining stops
    at an absent key only; a number has no [startsWith], and calling it is a
    type error. *)
Definition not_tree_key (f : Feature) : result bool :=
  match __key f with
  | None => Value true
  | Some (KStr k) => Value (negb (startsWith k "tree-"))
  | Some (KNum _) =>
      Raise (TypeError "openPopupFeature.__key?.startsWith is not a function")
  end.

(** [openPopupFeature?.geometry?.type === "Point" &&
     !openPopupFeature.__key?.startsWith('tree-')] *)
Definition school_point_selected (s : State) : result bool :=
  match openPopupFeature s with
  | Some l =>
      let f := objects s !!! l in
      if geometry_type_is f "Point" then not_tree_key f else Value false
  | None => Value false
  end.

(** [openPopupFeature?.properties?.KGISWardName], as a condition. *)
Definition ward_selected (s : State) : bool :=
  match openPopupFeature s with
  | Some l => truthy (ward_name (objects s !!! l))
  | None => false
  end.

(** The [openPopupFeature] prop that [App] computes for [WardLayer]. *)
Definition WardLayer_prop (s : State) : option loc :=
  if ward_selected s then openPopupFeature s else None.

(** The [openPopupFeature] prop that [App] computes for [SchoolLayer]. *)
Definition SchoolLayer_prop (s : State) : result (option loc) :=
  match school_point_selected s with
  | Value true => Value (openPopupFeature s)
  | Value false => Value None
  | Raise e => Raise e
  end.

(** One render pass of [App]: the props are computed, then [SchoolLayer]
    renders its markers. An exception while the props are computed leaves
    nothing rendered. *)
Definition render (s : State) : completion State :=
  match SchoolLayer_prop s with
  | Raise e => Throw e s
  | Value _ =>
      Normal (set_objects
                (SchoolLayer_render (visible "schools" s) (schoolData s) (objects s))
                (next_loc s) s)
  end.

(** *** Effects *)

(** The tree effect: clear when hidden, else start [loadTreeDataParts]. *)
Definition trees_effect (s : State) : State :=
  if negb (visible "trees" s) then setTreeData None s
  else set_inflight (wardFetches s) (schoolFetches s) (S (treeLoads s)) s.

(** The ward effect: one fetch, issued on mount. *)
Definition ward_effect (s : State) : State :=
  set_inflight (S (wardFetches s)) (schoolFetches s) (treeLoads s) s.

(** The school effect: clear when hidden, else start [fetchSchools]. *)
Definition schools_effect (s : State) : State :=
  if negb (visible "schools" s) then setSchoolData None s
  else set_inflight (wardFetches s) (S (schoolFetches s)) (treeLoads s) s.

(** After a commit React runs the effects whose dependency changed since
    the previous render: [layersVisibility.trees] for the tree effect,
    [layersVisibility.schools] for the school effect; the ward effect has
    no dependency and runs on mount only. *)
Definition run_effects (before : State) (s : State) : State :=
  let s := if Bool.eqb (visible "trees" before) (visible "trees" s) then s
           else trees_effect s in
  if Bool.eqb (visible "schools" before) (visible "schools" s) then s
  else schools_effect s.

(** The first render and the effects of the mount, in source order. *)
Definition mount : State :=
  schools_effect (ward_effect (trees_effect (state_of (render initial)))).

(** *** Event handlers *)

(** [toggleLayer]: the visibility update is queued first, then the guard
    decides whether the selection is cleared. *)
Definition toggle_guard (layerId : string) (s : State) : result bool :=
  if String.eqb layerId "ward" && ward_selected s then Value true
  else if String.eqb layerId "schools" then school_point_selected s
  else Value false.

Definition toggleLayer (layerId : string) (s : State) : completion State :=
  let s1 := setLayersVisibility
              (fun prev => <[layerId := negb (default false (prev !! layerId))]> prev) s in
  match toggle_guard layerId s with
  | Value true => Normal (setOpenPopupFeature None s1)
  | Value false => Normal s1
  | Raise e => Throw e s1
  end.

(** [onSelect] of the search box, as far as [App] sees it, when its call
    on the map returns: [onSelectFeature(item.feature)] is
    [setOpenPopupFeature]. *)
Definition onSelect (item : CustomSearch.Item) (s : State) : State :=
  setOpenPopupFeature (Some (CustomSearch.feature item)) s.

(** What the user and the network do. A response carries the features the
    body parsed to, or nothing when the fetch failed. *)
Inductive Event :=
| Toggle (layerId : string)
| Search (query : string) (pick : nat)
| WardResponse (body : option (list Feature))
| SchoolsResponse (body : option (list Feature))
| TreesLoaded (merged : list Feature).

Definition handle (e : Event) (s : State) : State :=
  match e with
  | Toggle layerId =>
      match toggleLayer layerId s with
      | Normal s' => s'
      | Throw (TypeError msg) s' => console_error msg s'
      end
  | Search query pick =>
      match CustomSearch.results (objects s) (wardData s) (schoolData s) (treeData s) query
            !! pick with
      | Some item => onSelect item s
      | None => s
      end
  | WardResponse body =>
      match wardFetches s with
      | O => s
      | S n =>
          let s := set_inflight n (schoolFetches s) (treeLoads s) s in
          match body with
          | Some fs => let '(d, s) := allocate fs s in setWardData (Some d) s
          | None => console_error "Error loading ward data" s
          end
      end
  | SchoolsResponse body =>
      match schoolFetches s with
      | O => s
      | S n =>
          let s := set_inflight (wardFetches s) n (treeLoads s) s in
          match body with
          | Some fs => let '(d, s) := allocate fs s in setSchoolData (Some d) s
          | None => console_error "Error fetching schools:" s
          end
      end
  | TreesLoaded merged =>
      match treeLoads s with
      | O => s
      | S n =>
          let s := set_inflight (wardFetches s) (schoolFetches s) n s in
          let '(d, s) := allocate merged s in setTreeData (Some d) s
      end
  end.

(** One event: the handler, the render it causes, then the effects. *)
Definition step (e : Event) (s : State) : completion State :=
  match render (handle e s) with
  | Normal s' => Normal (run_effects s s')
  | Throw err s' => Throw err s'
  end.

(** A run stops where a render throws: React unmounts the tree. *)
Fixpoint run (evs : list Event) (s : State) : completion State :=
  match evs with
  | [] => Normal s
  | e :: evs' =>
      match step e s with
      | Normal s' => run evs' s'
      | Throw err s' => Throw err s'
      end
  end.

(** An event that hides or shows a layer while one of its fetches is in
    flight. *)
Definition toggles_while_loading (e : Event) (s : State) : bool :=
  match e with
  | Toggle layerId =>
      (String.eqb layerId "trees" && negb (treeLoads s =? 0)%nat)
      || (String.eqb layerId "schools" && negb (schoolFetches s =? 0)%nat)
  | _ => false
  end.

(** A run in which nobody toggles a layer that is still loading. *)
Fixpoint calm (evs : list Event) (s : State) : bool :=
  match evs with
  | [] => true
  | e :: evs' =>
      negb (toggles_while_loading e s) &&
      match step e s with
      | Normal s' => calm evs' s'
      | Throw _ _ => true
      end
  end.

(** The dataset a layer owns; the DEM layer keeps none in [App]. *)
Definition dataset_of (layerId : string) (s : State) : option FeatureCollection :=
  if String.eqb layerId "ward" then wardData s
  else if String.eqb layerId "schools" then schoolData s
  else if String.eqb layerId "trees" then treeData s
  else None.

(** The fetches of a layer that are in flight. *)
Definition inflight_of (layerId : string) (s : State) : nat :=
  if String.eqb layerId "ward" then wardFetches s
  else if String.eqb layerId "schools" then schoolFetches s
  else if String.eqb layerId "trees" then treeLoads s
  else 0.

(** A hidden tree or school layer holds no dataset and waits for none. *)
Definition hidden_layers_hold_nothing (s : State) : Prop :=
  (visible "trees" s = false -> treeData s = None /\ treeLoads s = 0) /\
  (visible "schools" s = false -> schoolData s = None /\ schoolFetches s = 0).

(** The guard of the marker loop: [coords], a Point, two coordinates. *)
Definition rendered_school (h : heap) (l : loc) : bool :=
  match geometry_coordinates (h !!! l) with
  | Some c => geometry_type_is (h !!! l) "Point" && (coords_length c =? 2)%nat
  | None => false
  end.

(** A Point as [osmtogeojson] builds it from a node: its coordinates are
    the pair [lon, lat]. *)
Definition point_is_pair (f : Feature) : bool :=
  negb (geometry_type_is f "Point")
  || match geometry_coordinates f with
     | Some (Position [_; _]) => true
     | _ => false
     end.

(** Every Point of the dataset is such a pair. *)
Definition points_are_pairs (h : heap) (d : FeatureCollection) : bool :=
  forallb (fun l => point_is_pair (h !!! l)) (features d).

(** The school dataset of a state holds distinct objects. *)
Definition distinct_schools (s : State) : Prop :=
  forall d, schoolData s = Some d -> NoDup (features d).

(** While the school layer is visible, every school that passes the guard
    of the marker loop carries its index as key. *)
Definition schools_numbered (s : State) : Prop :=
  visible "schools" s = true ->
  forall d i l, schoolData s = Some d -> features d !! i = Some l ->
    rendered_school (objects s) l = true ->
    __key (objects s !!! l) = Some (KNum i).

(** A school answer as [osmtogeojson] builds it carries no [__key]: the
    marker loop is the only code that writes the field. *)
Definition unkeyed (e : Event) : bool :=
  match e with
  | SchoolsResponse (Some fs) =>
      forallb (fun f => match __key f with None => true | Some _ => false end) fs
  | _ => true
  end.

(** The guard on the selection evaluates: the selection is no Point that
    carries a number as key. *)
Definition guard_evaluates (s : State) : Prop :=
  exists b, school_point_selected s = Value b.

(** Objects are stored below [next_loc]; the selection and the features
    of the ward and the school dataset are stored objects. *)
Definition allocated (s : State) : Prop :=
  (forall l, openPopupFeature s = Some l -> l < next_loc s)
  /\ (forall d l, wardData s = Some d -> In l (features d) -> l < next_loc s)
  /\ (forall d l, schoolData s = Some d -> In l (features d) -> l < next_loc s).

(** No school of the dataset carries a string as key. *)
Definition schools_without_string_key (s : State) : Prop :=
  forall d l k, schoolData s = Some d -> In l (features d) ->
    __key (objects s !!! l) <> Some (KStr k).

(** What holds in every state that a run on such answers reaches. *)
Definition guarded (s : State) : Prop :=
  distinct_schools s /\ schools_numbered s /\ guard_evaluates s
  /\ allocated s /\ schools_without_string_key s.

(** What the render needs of the state a handler left: on top of the
    above, the selection is no school that the marker loop is about to
    number. *)
Definition handled (s : State) : Prop :=
  allocated s /\ schools_without_string_key s
  /\ (forall l d, openPopupFeature s = Some l -> visible "schools" s = true ->
        schoolData s = Some d -> In l (features d) ->
        rendered_school (objects s) l = true -> False).

End App.

(** ** The sharded tree-census loader ([loadTreeDataParts]) *)
Module TreeLoader.

(** [s.padStart(n, c)] for a one-character pad. *)
Definition padStart (s : string) (n : nat) (c : ascii) : string :=
  string_of_list_ascii (replicate (n - String.length s) c) +:+ s.

(** [`/data/tree_census_part_${String(i).padStart(4, '0')}.geojson`] *)
Definition fileName (i : nat) : string :=
  "/data/tree_census_part_" +:+ padStart (pretty i) 4 "0"%char +:+ ".geojson".

(** The part numbers of the [for] loop: 1 to 6. *)
Definition parts : list nat := seq 1 6.

Inductive LogEntry :=
| Warn (msg : string)
| Error (msg : string).

Section Loader.
(** The loader moves feature objects around and never looks into them. *)
Context {A : Type}.

(** The most arguments the engine takes in one call. [push(...array)]
    passes every element of the array as an argument of one call, and
    throws a RangeError, with nothing pushed, when the array is longer. *)
Variable maxArguments : nat.

(** What [res.json()] resolves to: a falsy value, or a value with its
    [type] field and its [features] field when that is an array. *)
Inductive Json :=
| Falsy
| Object (type : option string) (features : option (list A)).

(** How the fetch of one part ends. *)
Inductive Response :=
| Rejected                 (* [fetch] rejects *)
| NotOk (status : nat)     (* [res.ok] is false *)
| InvalidBody              (* [res.json()] rejects *)
| Body (data : Json).

(** What the loader does, in order. *)
Inductive Effect :=
| Fetch (file : string)
| Console (entry : LogEntry)
| SetTreeData (features : list A).

Record Loader := {
  allFeatures : list A;
  fetchPromises : list nat;   (* the parts whose promise is still pending *)
  trace : list Effect
}.

(** The loop body: the fetch is issued and its promise is pushed. *)
Definition issue (st : Loader) (i : nat) : Loader :=
  {| allFeatures := allFeatures st;
     fetchPromises := fetchPromises st ++ [i];
     trace := trace st ++ [Fetch (fileName i)] |}.

(** The state when [Promise.all] is awaited: every fetch is out. *)
Definition started : Loader :=
  fold_left issue parts {| allFeatures := []; fetchPromises := []; trace := [] |}.

(** [allFeatures.push(...features)]: [None] is the RangeError of a spread
    that is longer than the engine takes. *)
Definition push_spread (allFeatures features : list A) : option (list A) :=
  if (length features <=? maxArguments)%nat then Some (allFeatures ++ features)
  else None.

(** The second [then]: the structure check and the push. [None]: the
    handler threw, which the [catch] that follows it in the chain takes. *)
Definition onData (i : nat) (data : Json) (st : Loader) : option Loader :=
  match data with
  | Object (Some t) (Some fs) =>
      if String.eqb t "FeatureCollection" then
        match push_spread (allFeatures st) fs with
        | Some merged =>
            Some {| allFeatures := merged;
                    fetchPromises := fetchPromises st; trace := trace st |}
        | None => None
        end
      else
        Some {| allFeatures := allFeatures st; fetchPromises := fetchPromises st;
                trace := trace st ++ [Console (Warn ("Invalid GeoJSON structure in " +:+ fileName i))] |}
  | _ =>
      Some {| allFeatures := allFeatures st; fetchPromises := fetchPromises st;
              trace := trace st ++ [Console (Warn ("Invalid GeoJSON structure in " +:+ fileName i))] |}
  end.

(** The [catch] at the end of the chain. *)
Definition onError (i : nat) (st : Loader) : Loader :=
  {| allFeatures := allFeatures st; fetchPromises := fetchPromises st;
     trace := trace st ++ [Console (Error ("Error loading tree data from " +:+ fileName i +:+ ":"))] |}.

(** The chain of one part run on its response: the [catch] takes a
    rejected fetch, the error thrown for a bad status, a body that does not
    parse, and what the second [then] throws. *)
Definition chain (i : nat) (r : Response) (st : Loader) : Loader :=
  match r with
  | Body data =>
      match onData i data st with
      | Some st' => st'
      | None => onError i st
      end
  | Rejected | NotOk _ | InvalidBody => onError i st
  end.

Definition remove_part (i : nat) (ps : list nat) : list nat :=
  List.filter (fun j => negb (j =? i)%nat) ps.

(** The promise of part [i] settles: the last handler of its chain has
    run (the structure check and the push, or the [catch]), and when it
    was the last promise pending, [Promise.all] resolves and the dataset
    is set. Handlers run one at a time on the event loop. A promise that
    is not pending cannot settle. *)
Definition settle (responses : nat -> Response) (st : Loader) (i : nat) : Loader :=
  if existsb (Nat.eqb i) (fetchPromises st) then
    let st := chain i (responses i) st in
    let pending := remove_part i (fetchPromises st) in
    match pending with
    | [] =>
        {| allFeatures := allFeatures st; fetchPromises := [];
           trace := trace st ++ [SetTreeData (allFeatures st)] |}
    | _ =>
        {| allFeatures := allFeatures st; fetchPromises := pending;
           trace := trace st |}
    end
  else st.

(** [loadTreeDataParts] under a schedule: the order in which the chains
    of the parts complete, which the network decides. *)
Definition loadTreeDataParts (responses : nat -> Response) (schedule : list nat) : Loader :=
  fold_left (settle responses) schedule started.

(** The values given to [setTreeData], one per call, in order. *)
Fixpoint datasets (tr : list Effect) : list (list A) :=
  match tr with
  | [] => []
  | SetTreeData fs :: tr' => fs :: datasets tr'
  | _ :: tr' => datasets tr'
  end.

(** The features of a part that fetched and parsed to a well-formed
    collection. *)
Definition parsed (r : Response) : option (list A) :=
  match r with
  | Body (Object (Some t) (Some fs)) =>
      if String.eqb t "FeatureCollection" then Some fs else None
  | _ => None
  end.

(** The features a part contributes: those of a well-formed body that the
    spread takes. *)
Definition contribution (r : Response) : list A :=
  match parsed r with
  | Some fs => if (length fs <=? maxArguments)%nat then fs else []
  | None => []
  end.

(** A part that ended in the [catch] or failed the structure check. *)
Definition skipped (r : Response) : bool :=
  match parsed r with
  | Some fs => negb (length fs <=? maxArguments)%nat
  | None => true
  end.

Definition is_fetch (e : Effect) : bool :=
  match e with Fetch _ => true | _ => false end.

Definition is_console (e : Effect) : bool :=
  match e with Console _ => true | _ => false end.

Definition is_set (e : Effect) : bool :=
  match e with SetTreeData _ => true | _ => false end.

(** What the chain of a part writes to the console: one entry when the
    part is skipped. *)
Definition console_of (i : nat) (r : Response) : list Effect :=
  match r with
  | Body (Object (Some t) (Some fs)) =>
      if String.eqb t "FeatureCollection" then
        if (length fs <=? maxArguments)%nat then []
        else [Console (Error ("Error loading tree data from " +:+ fileName i +:+ ":"))]
      else [Console (Warn ("Invalid GeoJSON structure in " +:+ fileName i))]
  | Body _ => [Console (Warn ("Invalid GeoJSON structure in " +:+ fileName i))]
  | _ => [Console (Error ("Error loading tree data from " +:+ fileName i +:+ ":"))]
  end.

(** The parts of [pending] in the order in which [schedule] settles them. *)
Fixpoint settle_order (pending schedule : list nat) : list nat :=
  match schedule with
  | [] => []
  | i :: rest =>
      if existsb (Nat.eqb i) pending
      then i :: settle_order (remove_part i pending) rest
      else settle_order pending rest
  end.

(** Part [j] does not occur in the schedule: its fetch is still pending. *)
Definition unsettled (schedule : list nat) (j : nat) : bool :=
  negb (existsb (Nat.eqb j) schedule).

(** Every part occurs in the schedule: all fetches have settled. *)
Definition all_settled (schedule : list nat) : bool :=
  forallb (fun i => existsb (Nat.eqb i) schedule) parts.

End Loader.

Arguments Json : clear implicits.
Arguments Response : clear implicits.
Arguments Effect : clear implicits.
Arguments Loader : clear implicits.

End TreeLoader.

(** ** The DEM raster layer ([DEMLayer], [loadGeoRasters]) *)
Module DEM.

#[local] Open Scope Q_scope.

Record File := { file_name : string; url : string }.

(** The three tiles the component names. *)
Definition demFiles : list File :=
  [ {| file_name := "n12e077"; url := "/data/NASADEM_HGT_n12e077_elevation.tif" |};
    {| file_name := "n13e077"; url := "/data/NASADEM_HGT_n13e077_elevation.tif" |};
    {| file_name := "n14e077"; url := "/data/NASADEM_HGT_n14e077_elevation.tif" |} ]%list.

(** A parsed raster, as far as the loader reads it: the per-band minima
    and maxima. A field may be missing; an entry is a number ([Some]) or a
    value of another type. Numbers are exact rationals: the ramp is
    modelled without rounding, and NaN and the infinities are left out. *)
Record GeoRaster := {
  mins : option (list (option Q));
  maxs : option (list (option Q))
}.

(** How loading one tile ends: the [try] block throws (fetch, status or
    parse), or the raster is there. *)
Inductive Tile :=
| Failed
| Loaded (georaster : GeoRaster).

(** A pixel value as the colour function may receive it. *)
Inductive Pixel :=
| Undefined
| Null
| NaN
| Number (v : Q).

Inductive LogEntry :=
| Warn (msg : string)
| Error (msg : string).

(** [stats && stats.length > 0 && typeof stats[0] === 'number'], with the
    number when the test passes. *)
Definition first_number (stats : option (list (option Q))) : option Q :=
  match stats with
  | Some (Some x :: _) => Some x
  | _ => None
  end.

Record Pass := {
  loadedGeorasters : list (GeoRaster * string);
  allMins : list Q;
  allMaxs : list Q;
  console : list LogEntry
}.

(** The body of the first loop for one file. *)
Definition loadOne (fetch : string -> Tile) (acc : Pass) (file : File) : Pass :=
  match fetch (url file) with
  | Failed =>
      {| loadedGeorasters := loadedGeorasters acc;
         allMins := allMins acc; allMaxs := allMaxs acc;
         console := (console acc ++
           [Error ("Error loading or parsing DEM data for " +:+ file_name file +:+ ":")])%list |}
  | Loaded georaster =>
      let '(mins', log1) :=
        match first_number (mins georaster) with
        | Some m => ((allMins acc ++ [m])%list, [])
        | None => (allMins acc, [Warn ("No valid min value found for " +:+ file_name file)])
        end in
      let '(maxs', log2) :=
        match first_number (maxs georaster) with
        | Some m => ((allMaxs acc ++ [m])%list, [])
        | None => (allMaxs acc, [Warn ("No valid max value found for " +:+ file_name file)])
        end in
      {| loadedGeorasters := (loadedGeorasters acc ++ [(georaster, file_name file)])%list;
         allMins := mins'; allMaxs := maxs';
         console := (console acc ++ log1 ++ log2)%list |}
  end.

Definition firstPass (fetch : string -> Tile) (files : list File) : Pass :=
  fold_left (loadOne fetch) files
    {| loadedGeorasters := []; allMins := []; allMaxs := []; console := [] |}.

(** [Math.min(x, ...xs)] and [Math.max(x, ...xs)] on at least one number. *)
Definition Math_min (x : Q) (xs : list Q) : Q := fold_left Qmin xs x.
Definition Math_max (x : Q) (xs : list Q) : Q := fold_left Qmax xs x.

(** [globalRange === 0 ? 1 : globalRange] *)
Definition effectiveRange (globalMin globalMax : Q) : Q :=
  let globalRange := globalMax - globalMin in
  if Qeq_bool globalRange 0 then 1 else globalRange.

(** [`rgb(${c}, ${c}, ${c})`] *)
Definition rgb (c : Z) : string :=
  "rgb(" +:+ pretty c +:+ ", " +:+ pretty c +:+ ", " +:+ pretty c +:+ ")".

(** The colour function; [None] is [null] (the pixel is not drawn). *)
Definition pixelValuesToColorFn (globalMin effectiveGlobalRange : Q)
    (pixelValues : list Pixel) : option string :=
  match default Undefined (head pixelValues) with
  | Undefined | Null | NaN => None
  | Number pixelValue =>
      if Qlt_le_dec pixelValue (-9999) then None
      else if Qlt_le_dec 9999 pixelValue then None
      else
        let normalizedValue := (pixelValue - globalMin) / effectiveGlobalRange in
        let shade := Qfloor (normalizedValue * 255) in
        let clampedShade := Z.max 0 (Z.min 255 shade) in
        Some (rgb clampedShade)
  end.

(** The layer object handed to the map. *)
Record GeoRasterLayer := {
  georaster : GeoRaster;
  opacity : Q;
  colorFn : list Pixel -> option string;   (* [pixelValuesToColorFn] *)
  resolution : nat
}.

Record Outcome := {
  log : list LogEntry;
  globalRange : option (Q * Q);       (* [globalMin], [globalMax] when computed *)
  layers : list GeoRasterLayer        (* what was added to the map, in order *)
}.

Definition loadFiles (fetch : string -> Tile) (files : list File) : Outcome :=
  let pass := firstPass fetch files in
  match loadedGeorasters pass, allMins pass, allMaxs pass with
  | _ :: _, m :: ms, M :: Ms =>
      let globalMin := Math_min m ms in
      let globalMax := Math_max M Ms in
      let effectiveGlobalRange := effectiveRange globalMin globalMax in
      {| log := console pass;
         globalRange := Some (globalMin, globalMax);
         layers :=
           map (fun '(georaster, _) =>
                  {| georaster := georaster; opacity := 7 # 10;
                     colorFn := pixelValuesToColorFn globalMin effectiveGlobalRange;
                     resolution := 256 |})
               (loadedGeorasters pass) |}
  | _, _, _ =>
      {| log := (console pass ++
           [Warn "No valid georasters loaded or no min/max values found for DEM rendering."])%list;
         globalRange := None;
         layers := [] |}
  end.

Definition loadGeoRasters (fetch : string -> Tile) : Outcome :=
  loadFiles fetch demFiles.

(** The declared minima and maxima of the tiles that loaded, in file order. *)
Definition declaredMins (fetch : string -> Tile) (files : list File) : list Q :=
  omap (fun file =>
          match fetch (url file) with
          | Loaded g => first_number (mins g)
          | Failed => None
          end) files.

Definition declaredMaxs (fetch : string -> Tile) (files : list File) : list Q :=
  omap (fun file =>
          match fetch (url file) with
          | Loaded g => first_number (maxs g)
          | Failed => None
          end) files.

(** *** The ramp, by its parts *)

(** [Math.max(0, Math.min(255, Math.floor(normalizedValue * 255)))] *)
Definition clampedShade (globalMin effectiveGlobalRange pixelValue : Q) : Z :=
  Z.max 0 (Z.min 255 (Qfloor ((pixelValue - globalMin) / effectiveGlobalRange * 255))).

(** A pixel the colour function draws: a number from -9999 to 9999. *)
Definition drawn (p : Pixel) : Prop :=
  match p with
  | Number v => -9999 <= v /\ v <= 9999
  | _ => False
  end.

(** The rasters that loaded, in file order. *)
Definition loadedTiles (fetch : string -> Tile) (files : list File) : list GeoRaster :=
  omap (fun file =>
          match fetch (url file) with
          | Loaded g => Some g
          | Failed => None
          end) files.

(** The files that failed to load. *)
Definition failedFiles (fetch : string -> Tile) (files : list File) : list File :=
  List.filter (fun file =>
                 match fetch (url file) with
                 | Loaded _ => false
                 | Failed => true
                 end) files.

Definition is_error (e : LogEntry) : bool :=
  match e with
  | Error _ => true
  | Warn _ => false
  end.

End DEM.

(** ** The bookmark store ([BookmarksWidget]) *)
Module Bookmarks.
Import Js.

Section Widget.
(** JavaScript numbers; the widget stores and restores them and computes
    nothing with them. *)
Context {number : Type}.

Record Bookmark := {
  id : number;
  name : string;
  center : number * number;   (* [lat, lng] *)
  zoom : number
}.

(** The platform's [JSON.stringify], and [JSON.parse] with [None] for a
    [SyntaxError], on bookmark lists. *)
Variable JSON_stringify : list Bookmark -> string.
Variable JSON_parse : string -> option (list Bookmark).

Record Widget := {
  visible : bool;
  bookmarks : list Bookmark;
  newBookmarkName : string
}.

Record World := {
  localStorage : gmap string string;
  console : list string;
  widget : Widget
}.

Definition setBookmarks (bs : list Bookmark) (w : Widget) : Widget :=
  {| visible := visible w; bookmarks := bs; newBookmarkName := newBookmarkName w |}.

(** The load effect; it reads the store and may queue [setBookmarks]. An
    absent key reads [null], and the empty string is falsy as well. *)
Definition load_effect (st : World) : option (list Bookmark) * list string :=
  match localStorage st !! "mapBookmarks" with
  | Some storedBookmarks =>
      if String.eqb storedBookmarks "" then (None, [])
      else
        match JSON_parse storedBookmarks with
        | Some bs => (Some bs, [])
        | None => (None, ["Error loading bookmarks from localStorage:"])
        end
  | None => (None, [])
  end.

(** The save effect, run with the [bookmarks] of the render it belongs to. *)
Definition save_effect (rendered : list Bookmark) (st : World) : World :=
  {| localStorage := <["mapBookmarks" := JSON_stringify rendered]> (localStorage st);
     console := console st; widget := widget st |}.

(** Mounting the widget over a store: the first render has no bookmarks;
    the load effect and then the save effect run with that render's
    values; when the load queued an update, the widget renders again and
    the save effect runs for the new list. *)
Definition mount (storage : gmap string string) : World :=
  let st := {| localStorage := storage; console := [];
               widget := {| visible := false; bookmarks := []; newBookmarkName := "" |} |} in
  let '(loaded, errors) := load_effect st in
  let st := {| localStorage := localStorage st; console := console st ++ errors;
               widget := widget st |} in
  let st := save_effect [] st in
  match loaded with
  | Some bs =>
      save_effect bs
        {| localStorage := localStorage st; console := console st;
           widget := setBookmarks bs (widget st) |}
  | None => st
  end.

(** Typing in the name field. *)
Definition setNewBookmarkName (v : string) (st : World) : World :=
  {| localStorage := localStorage st; console := console st;
     widget := {| visible := visible (widget st); bookmarks := bookmarks (widget st);
                  newBookmarkName := v |} |}.

(** [saveCurrentViewAsBookmark], with the map's centre and zoom and the
    clock as inputs, followed by the save effect of the new list. *)
Definition saveCurrentViewAsBookmark (currentCenter : number * number)
    (currentZoom now : number) (st : World) : World :=
  let w := widget st in
  if String.eqb (trim (newBookmarkName w)) "" then
    {| localStorage := localStorage st;
       console := console st ++ ["Please enter a name for the bookmark."];
       widget := w |}
  else
    let newBookmark :=
      {| id := now; name := trim (newBookmarkName w);
         center := currentCenter; zoom := currentZoom |} in
    let bs := bookmarks w ++ [newBookmark] in
    save_effect bs
      {| localStorage := localStorage st; console := console st;
         widget := {| visible := false; bookmarks := bs; newBookmarkName := "" |} |}.

(** *** Deleting, and runs of the widget *)

(** [bm.id !== id] on numbers; NaN, which differs from itself, is not an
    id that [Date.now()] or the store can give. *)
Context `{!EqDecision number}.

(** [deleteBookmark(id)], followed by the save effect of the new list. *)
Definition deleteBookmark (target : number) (st : World) : World :=
  let w := widget st in
  let bs := List.filter (fun bm => negb (bool_decide (id bm = target))) (bookmarks w) in
  save_effect bs
    {| localStorage := localStorage st; console := console st;
       widget := setBookmarks bs w |}.

(** What the user does with the mounted widget. *)
Inductive Action :=
| TypeName (v : string)
| ClickSave (currentCenter : number * number) (currentZoom now : number)
| ClickDelete (target : number).

Definition act (st : World) (a : Action) : World :=
  match a with
  | TypeName v => setNewBookmarkName v st
  | ClickSave c z now => saveCurrentViewAsBookmark c z now st
  | ClickDelete target => deleteBookmark target st
  end.

(** The widget mounted over a store, then used. *)
Definition session (storage : gmap string string) (actions : list Action) : World :=
  fold_left act actions (mount storage).

(** The store holds the text of the list the widget shows. *)
Definition mirrored (st : World) : Prop :=
  localStorage st !! "mapBookmarks" = Some (JSON_stringify (bookmarks (widget st))).

End Widget.

Arguments Bookmark : clear implicits.
Arguments Widget : clear implicits.
Arguments World : clear implicits.
Arguments Action : clear implicits.

End Bookmarks.

(** ** The tree layer ([LeafletTreeLayer]) *)
Module LeafletTreeLayer.
Import Js GeoJSON.

Definition distinctColors : list string :=
  [ "#E6194B"; "#3CB44B"; "#FFE119"; "#4363D8"; "#F58231";
    "#911EB4"; "#46F0F0"; "#F032E6"; "#BCF60C"; "#FABEBE";
    "#008080"; "#E6BEFF"; "#9A6324"; "#FFFAC8"; "#AAFFC3";
    "#800000"; "#AA6E28"; "#FFD700"; "#FFC74D"; "#90EE90";
    "#C8C8A1"; "#000075"; "#A9A9A9"; "#E0BBE4"; "#957DAD" ].

(** [feature.properties?.TreeName?.toLowerCase().trim()] *)
Definition normalized_name (f : Feature) : option string :=
  (fun n => trim (toLowerCase n)) <$> (properties f ≫= TreeName).

(** [uniqueTreeNames.add(name)]: a [Set] keeps the order of insertion and
    takes a value once. *)
Definition set_add (names : list string) (name : string) : list string :=
  if bool_decide (name ∈ names) then names else names ++ [name].

(** The body of the first [forEach]. *)
Definition collect (h : heap) (uniqueTreeNames : list string) (l : loc) : list string :=
  let name := normalized_name (h !!! l) in
  if truthy name then set_add uniqueTreeNames (default "" name) else uniqueTreeNames.

Definition uniqueTreeNames (h : heap) (treeData : option FeatureCollection) : list string :=
  match treeData with
  | Some d => fold_left (collect h) (features d) []
  | None => []
  end.

(** The order of [Array.prototype.sort] without a comparator: strings by
    their code units. *)
Definition code_unit_le (a b : string) : Prop := String.leb a b = true.

#[export] Instance code_unit_le_dec a b : Decision (code_unit_le a b).
Proof. unfold code_unit_le. apply _. Defined.

(** [Array.from(uniqueTreeNames).sort()]. The names are distinct, so the
    result does not depend on the sorting algorithm. *)
Definition sortedUniqueTreeNames (h : heap) (treeData : option FeatureCollection)
    : list string :=
  merge_sort code_unit_le (uniqueTreeNames h treeData).

(** [distinctColors[index % distinctColors.length]] *)
Definition color_at (index : nat) : string :=
  default "" (distinctColors !! (index mod length distinctColors)).

(** The second [forEach], from [index] on. *)
Fixpoint assign (index : nat) (names : list string) (map : gmap string string)
    : gmap string string :=
  match names with
  | [] => map
  | name :: rest => assign (S index) rest (<[name := color_at index]> map)
  end.

Definition treeColorMap (h : heap) (treeData : option FeatureCollection)
    : gmap string string :=
  assign 0 (sortedUniqueTreeNames h treeData) ∅.

(** [feature.properties?.TreeName?.toLowerCase().trim() || 'unknown'] *)
Definition treeName (f : Feature) : string :=
  or_literal (normalized_name f) "unknown".

(** [treeColorMap[treeName] || '#2E8B57'] *)
Definition color (map : gmap string string) (f : Feature) : string :=
  or_literal (map !! treeName f) "#2E8B57".

(** A marker of the cluster: where it stands ([lat, lng]) and the colour
    of its icon. The popup text is not part of the model. *)
Record Marker := {
  position : option element * option element;
  icon_color : string
}.

(** The body of the marker loop. *)
Definition pushMarker (h : heap) (map : gmap string string)
    (markersToAdd : list Marker) (l : loc) : list Marker :=
  let feature := h !!! l in
  match geometry_coordinates feature with
  | None => markersToAdd
  | Some c =>
      if negb (geometry_type_is feature "Point") || negb (coords_length c =? 2)%nat
      then markersToAdd
      else markersToAdd ++
             [ {| position := (coords_nth c 1, coords_nth c 0);
                  icon_color := color map feature |} ]
  end.

(** The effect: the markers of the cluster it adds to the map, or nothing
    when the layer is hidden, the dataset is absent or empty, or no
    feature gives a marker. *)
Definition cluster (visible : bool) (h : heap) (treeData : option FeatureCollection)
    : option (list Marker) :=
  match treeData with
  | Some d =>
      if negb visible || (length (features d) =? 0)%nat then None
      else
        match fold_left (pushMarker h (treeColorMap h treeData)) (features d) [] with
        | [] => None
        | markers => Some markers
        end
  | None => None
  end.

(** A tree gives a name to the set when its [TreeName], lower-cased and
    trimmed, is not empty. *)
Definition names_tree (h : heap) (name : string) (l : loc) : Prop :=
  normalized_name (h !!! l) = Some name /\ name <> "".

(** The guard of the marker loop: [coords], a Point, two coordinates. *)
Definition gives_marker (h : heap) (l : loc) : bool :=
  match geometry_coordinates (h !!! l) with
  | Some c => geometry_type_is (h !!! l) "Point" && (coords_length c =? 2)%nat
  | None => false
  end.

(** The marker the loop makes for the feature at [l]. *)
Definition marker_of (h : heap) (map : gmap string string) (l : loc) : Marker :=
  {| position :=
       match geometry_coordinates (h !!! l) with
       | Some c => (coords_nth c 1, coords_nth c 0)
       | None => (None, None)
       end;
     icon_color := color map (h !!! l) |}.

End LeafletTreeLayer.

(** ** The effect of [DEMLayer] and its cleanup *)
Module DEMLayer.

(** A layer object on the map; [overlay_id] stands for its identity. *)
Record Overlay := {
  overlay_id : nat;
  overlay : DEM.GeoRasterLayer
}.

Record State := {
  visible : bool;                       (* the prop of the last render *)
  geoRasterLayersRef : list Overlay;    (* [geoRasterLayersRef.current] *)
  onMap : list Overlay;                 (* the overlays of this component on the map *)
  next_id : nat;
  loads : nat                           (* calls of [loadGeoRasters] still running *)
}.

(** [map.removeLayer(layer)] *)
Definition removeLayer (m : list Overlay) (o : Overlay) : list Overlay :=
  List.filter (fun o' => negb (overlay_id o' =? overlay_id o)%nat) m.

(** The block at the head of the effect, which is also the cleanup: every
    layer of the ref is taken off the map and the ref is emptied. *)
Definition clear (s : State) : State :=
  if (0 <? length (geoRasterLayersRef s))%nat then
    {| visible := visible s; geoRasterLayersRef := [];
       onMap := fold_left removeLayer (geoRasterLayersRef s) (onMap s);
       next_id := next_id s; loads := loads s |}
  else s.

(** The effect body for the current prop. *)
Definition effect (s : State) : State :=
  let s := clear s in
  if negb (visible s) then s
  else {| visible := visible s; geoRasterLayersRef := geoRasterLayersRef s;
          onMap := onMap s; next_id := next_id s; loads := S (loads s) |}.

(** The component mounted with its prop. *)
Definition mount (v : bool) : State :=
  effect {| visible := v; geoRasterLayersRef := []; onMap := []; next_id := 0; loads := 0 |}.

(** The cleanup that the last run of the effect left. The effect returns
    its cleanup at its end, past [if (!visible) return]: a run with the
    prop false leaves none. *)
Definition cleanup (s : State) : State :=
  if visible s then clear s else s.

(** A render with the prop [v]: when the prop changed, the cleanup of the
    last effect runs, if it left one, and then the effect. *)
Definition render (v : bool) (s : State) : State :=
  if Bool.eqb v (visible s) then s
  else
    let s := cleanup s in
    effect {| visible := v; geoRasterLayersRef := geoRasterLayersRef s;
              onMap := onMap s; next_id := next_id s; loads := loads s |}.

(** The second half of [loadGeoRasters]: each layer is added to the map
    and pushed on the ref. *)
Definition addLayer (s : State) (layer : DEM.GeoRasterLayer) : State :=
  let o := {| overlay_id := next_id s; overlay := layer |} in
  {| visible := visible s;
     geoRasterLayersRef := geoRasterLayersRef s ++ [o];
     onMap := onMap s ++ [o];
     next_id := S (next_id s); loads := loads s |}.

(** A running [loadGeoRasters] comes to its end with what the fetches
    gave. It does not look at the prop. *)
Definition loaded (fetch : string -> DEM.Tile) (s : State) : State :=
  match loads s with
  | O => s
  | S n =>
      fold_left addLayer (DEM.layers (DEM.loadGeoRasters fetch))
        {| visible := visible s; geoRasterLayersRef := geoRasterLayersRef s;
           onMap := onMap s; next_id := next_id s; loads := n |}
  end.

Inductive Event :=
| Render (v : bool)
| Loaded (fetch : string -> DEM.Tile).

Definition step (s : State) (e : Event) : State :=
  match e with
  | Render v => render v s
  | Loaded fetch => loaded fetch s
  end.

Definition run (v : bool) (events : list Event) : State :=
  fold_left step events (mount v).

(** Unmounting runs the cleanup of the last effect, if it left one. *)
Definition unmount (s : State) : State := cleanup s.

End DEMLayer.

(** ** Sample data *)
Module Samples.
Import Js GeoJSON.

(** A ward polygon whose properties carry no [KGISWardName]. *)
Definition unnamed_ward : Feature :=
  {| properties := Some {| KGISWardName := None; tags := None; name := None; TreeName := None |};
     geometry := Some {| type := "Polygon";
                         coords := Some (Nested [Nested [Position [77 # 1; 12 # 1];
                                                          Position [78 # 1; 12 # 1];
                                                          Position [78 # 1; 13 # 1];
                                                          Position [77 # 1; 12 # 1]]]) |};
     __key := None |}.

Definition named_ward : Feature :=
  {| properties := Some {| KGISWardName := Some "Shanthi Nagar"; tags := None;
                           name := None; TreeName := None |};
     geometry := geometry unnamed_ward;
     __key := None |}.

(** A school as [osmtogeojson] produces one: a Point with two coordinates. *)
Definition school : Feature :=
  {| properties := Some {| KGISWardName := None;
                           tags := Some {| tag_name := Some "Delhi Public School" |};
                           name := None; TreeName := None |};
     geometry := Some {| type := "Point";
                         coords := Some (Position [776 # 10; 129 # 10]) |};
     __key := None |}.

(** A Point that carries an altitude as its third coordinate. *)
Definition school_with_altitude : Feature :=
  {| properties := properties school;
     geometry := Some {| type := "Point";
                         coords := Some (Position [776 # 10; 129 # 10; 920 # 1]) |};
     __key := None |}.

Definition neem : Feature :=
  {| properties := Some {| KGISWardName := None; tags := None; name := None;
                           TreeName := Some "Neem" |};
     geometry := Some {| type := "Point";
                         coords := Some (Position [775 # 10; 129 # 10]) |};
     __key := None |}.

(** The display name a tree would have: its [TreeName], as the tree layer's
    popup reads it. *)
Definition tree_name (f : Feature) : string :=
  or_literal (properties f ≫= TreeName) "Unnamed Tree".

(** The descriptor the search index holds for [school] stored at 0. *)
Definition school_item : CustomSearch.Item :=
  {| CustomSearch.item_type := "School";
     CustomSearch.item_name := "Delhi Public School";
     CustomSearch.feature := 0;
     CustomSearch.latlng := Some (Some (Num (129 # 10)), Some (Num (776 # 10)));
     CustomSearch.bounds := None |}.

(** A map that takes the bounds of a feature that has a geometry, and a
    centre of two numbers. *)
Definition takes_numbers : CustomSearch.Map :=
  {| CustomSearch.returns := fun call =>
       match call with
       | CustomSearch.FitBounds (CustomSearch.GeoJSONBounds (Some _)) _ => true
       | CustomSearch.SetView (Some (Num _), Some (Num _)) _ => true
       | _ => false
       end |}.

(** The school answer arrives while the layer is shown. *)
Definition schools_arrive : list App.Event :=
  [App.SchoolsResponse (Some [school])].

(** The state after [schools_arrive]. *)
Definition schools_loaded : App.State :=
  Eval vm_compute in state_of (App.run schools_arrive App.mount).

(** An unnamed ward is loaded, the ward layer is shown, and the ward is
    picked from the search results. *)
Definition unnamed_ward_selected : list App.Event :=
  [App.WardResponse (Some [unnamed_ward]); App.Toggle "ward"; App.Search "unnamed" 0].

Definition ward_selected_shown : App.State :=
  Eval vm_compute in state_of (App.run unnamed_ward_selected App.mount).

Definition ward_selected_hidden : App.State :=
  Eval vm_compute in state_of (App.step (App.Toggle "ward") ward_selected_shown).

(** The ward answer arrives; the ward layer was never shown. *)
Definition wards_arrive : list App.Event :=
  [App.WardResponse (Some [named_ward])].

(** The tree layer is shown, its load completes, and it is hidden again. *)
Definition trees_shown_and_hidden : list App.Event :=
  [App.Toggle "trees"; App.TreesLoaded [neem]; App.Toggle "trees"].

(** Six tree-census parts of which the third answers 404; part [i] holds
    the two trees [10 * i] and [10 * i + 1]. *)
Definition part_three_fails (i : nat) : TreeLoader.Response nat :=
  if (i =? 3)%nat then TreeLoader.NotOk 404
  else TreeLoader.Body
         (TreeLoader.Object (Some "FeatureCollection") (Some [10 * i; 10 * i + 1])).

(** Six well-formed parts; part 2 holds the four trees 20 to 23, every
    other part [i] the two trees [10 * i] and [10 * i + 1]. *)
Definition part_two_too_long (i : nat) : TreeLoader.Response nat :=
  TreeLoader.Body
    (TreeLoader.Object (Some "FeatureCollection")
       (Some (if (i =? 2)%nat then [20; 21; 22; 23] else [10 * i; 10 * i + 1]))).

(** Two tiles with the declared ranges [0, 100] and [50, 200]; the third
    file fails to load. *)
Definition two_tiles (url : string) : DEM.Tile :=
  if String.eqb url "/data/NASADEM_HGT_n12e077_elevation.tif" then
    DEM.Loaded {| DEM.mins := Some [Some (0 # 1)]; DEM.maxs := Some [Some (100 # 1)] |}
  else if String.eqb url "/data/NASADEM_HGT_n13e077_elevation.tif" then
    DEM.Loaded {| DEM.mins := Some [Some (50 # 1)]; DEM.maxs := Some [Some (200 # 1)] |}
  else DEM.Failed.

(** Three trees: a neem, a mango whose name is padded and capitalised, and
    one without a name. *)
Definition mango : Feature :=
  {| properties := Some {| KGISWardName := None; tags := None; name := None;
                           TreeName := Some " Mango " |};
     geometry := Some {| type := "Point";
                         coords := Some (Position [774 # 10; 130 # 10]) |};
     __key := None |}.

Definition nameless_tree : Feature :=
  {| properties := Some {| KGISWardName := None; tags := None; name := None;
                           TreeName := None |};
     geometry := Some {| type := "Point";
                         coords := Some (Position [773 # 10; 131 # 10]) |};
     __key := None |}.

Definition grove : heap := {[ 0 := neem; 1 := mango; 2 := nameless_tree ]}.

Definition grove_data : FeatureCollection := {| features := [0; 1; 2] |}.

(** The same trees as the parts of the census deliver them in another
    order. *)
Definition grove_data_reordered : FeatureCollection := {| features := [2; 0; 1] |}.

(** *** A JSON codec for bookmark lists with integer numbers

    [stringify] prints what [JSON.stringify] prints for such a list;
    [parse] reads that shape back (names without quotes or backslashes). *)

Definition quote : string := String (ascii_of_nat 34) EmptyString.

Definition print_bookmark (b : Bookmarks.Bookmark Z) : string :=
  "{" +:+ quote +:+ "id" +:+ quote +:+ ":" +:+ pretty (Bookmarks.id b)
  +:+ "," +:+ quote +:+ "name" +:+ quote +:+ ":" +:+ quote +:+ Bookmarks.name b +:+ quote
  +:+ "," +:+ quote +:+ "center" +:+ quote +:+ ":["
  +:+ pretty (fst (Bookmarks.center b)) +:+ "," +:+ pretty (snd (Bookmarks.center b))
  +:+ "]," +:+ quote +:+ "zoom" +:+ quote +:+ ":" +:+ pretty (Bookmarks.zoom b) +:+ "}".

Fixpoint print_bookmarks (bs : list (Bookmarks.Bookmark Z)) : string :=
  match bs with
  | [] => ""
  | [b] => print_bookmark b
  | b :: bs' => print_bookmark b +:+ "," +:+ print_bookmarks bs'
  end.

Definition stringify (bs : list (Bookmarks.Bookmark Z)) : string :=
  "[" +:+ print_bookmarks bs +:+ "]".

(** [expect p s]: the rest of [s] after its prefix [p]. *)
Fixpoint expect (p s : string) : option string :=
  match p, s with
  | EmptyString, _ => Some s
  | String a p', String b s' => if Ascii.eqb a b then expect p' s' else None
  | String _ _, EmptyString => None
  end.

Definition digit (c : ascii) : option Z :=
  let n := nat_of_ascii c in
  if (48 <=? n)%nat && (n <=? 57)%nat then Some (Z.of_nat (n - 48)) else None.

Fixpoint read_digits (acc : Z) (s : string) : Z * string :=
  match s with
  | String c s' =>
      match digit c with
      | Some d => read_digits (10 * acc + d) s'
      | None => (acc, s)
      end
  | EmptyString => (acc, s)
  end.

Definition read_number (s : string) : option (Z * string) :=
  match s with
  | String c s' =>
      if Ascii.eqb c "-"%char then
        match s' with
        | String c' _ =>
            match digit c' with
            | Some _ => let '(n, rest) := read_digits 0 s' in Some ((- n)%Z, rest)
            | None => None
            end
        | EmptyString => None
        end
      else match digit c with
           | Some _ => Some (read_digits 0 s)
           | None => None
           end
  | EmptyString => None
  end.

Fixpoint read_until_quote (s : string) : option (string * string) :=
  match s with
  | String c s' =>
      if Ascii.eqb c (ascii_of_nat 34) then Some (EmptyString, s')
      else '(name, rest) ← read_until_quote s'; Some (String c name, rest)
  | EmptyString => None
  end.

Definition read_bookmark (s : string) : option (Bookmarks.Bookmark Z * string) :=
  s ← expect ("{" +:+ quote +:+ "id" +:+ quote +:+ ":") s;
  '(i, s) ← read_number s;
  s ← expect ("," +:+ quote +:+ "name" +:+ quote +:+ ":" +:+ quote) s;
  '(n, s) ← read_until_quote s;
  s ← expect ("," +:+ quote +:+ "center" +:+ quote +:+ ":[") s;
  '(lat, s) ← read_number s;
  s ← expect "," s;
  '(lng, s) ← read_number s;
  s ← expect ("]," +:+ quote +:+ "zoom" +:+ quote +:+ ":") s;
  '(z, s) ← read_number s;
  s ← expect "}" s;
  Some ({| Bookmarks.id := i; Bookmarks.name := n;
           Bookmarks.center := (lat, lng); Bookmarks.zoom := z |}, s).

Fixpoint read_bookmarks (fuel : nat) (s : string) : option (list (Bookmarks.Bookmark Z)) :=
  match fuel with
  | O => None
  | S fuel' =>
      '(b, s) ← read_bookmark s;
      match expect "," s with
      | Some s' => bs ← read_bookmarks fuel' s'; Some (b :: bs)
      | None => if String.eqb s "]" then Some [b] else None
      end
  end.

Definition parse (s : string) : option (list (Bookmarks.Bookmark Z)) :=
  if String.eqb s "[]" then Some []
  else s' ← expect "[" s; read_bookmarks (String.length s) s'.

(** A store that already holds one bookmark, and the widget mounted over
    it with a name typed in. *)
Definition home : Bookmarks.Bookmark Z :=
  {| Bookmarks.id := 1700000000000%Z; Bookmarks.name := "Home";
     Bookmarks.center := (12%Z, 77%Z); Bookmarks.zoom := 12%Z |}.

Definition stored_home : gmap string string :=
  {[ "mapBookmarks" := stringify [home] ]}.

Definition naming_lalbagh : Bookmarks.World Z :=
  Bookmarks.setNewBookmarkName "  Lalbagh "
    (Bookmarks.mount stringify parse stored_home).

End Samples.

(** * Properties *)

(** ** The search index *)
Module SearchFacts.
Import Js GeoJSON CustomSearch.

Lemma fold_pushWard h ls acc :
  fold_left (pushWard h) ls acc = acc ++ map (wardItem h) ls.
Proof.
  revert acc. induction ls as [|l ls IH]; intros acc; simpl.
  - by rewrite app_nil_r.
  - rewrite IH. unfold pushWard, wardItem. by rewrite <- app_assoc.
Qed.

Lemma fold_pushSchool_app h ls acc :
  fold_left (pushSchool h) ls acc = acc ++ fold_left (pushSchool h) ls [].
Proof.
  revert acc. induction ls as [|l ls IH]; intros acc; simpl.
  - by rewrite app_nil_r.
  - rewrite IH. rewrite (IH (pushSchool h [] l)).
    unfold pushSchool.
    destruct (geometry_coordinates (h !!! l)) as [c|]; [|done].
    destruct (geometry_type_is (h !!! l) "Point"); [|done].
    by rewrite <- app_assoc.
Qed.

Lemma fold_pushSchool_features h ls :
  map feature (fold_left (pushSchool h) ls [])
  = List.filter (indexable_school h) ls.
Proof.
  induction ls as [|l ls IH]; simpl; [done|].
  rewrite fold_pushSchool_app, map_app, IH.
  unfold pushSchool, indexable_school.
  destruct (geometry_coordinates (h !!! l)) as [c|]; [|done].
  by destruct (geometry_type_is (h !!! l) "Point").
Qed.

Lemma fold_pushSchool_name h ls item :
  In item (fold_left (pushSchool h) ls []) ->
  item_name item = school_display_name h (feature item).
Proof.
  induction ls as [|l ls IH]; simpl; [done|].
  rewrite fold_pushSchool_app, in_app_iff. intros [Hin | Hin]; [|by apply IH].
  unfold pushSchool in Hin.
  destruct (geometry_coordinates (h !!! l)) as [c|]; [|done].
  destruct (geometry_type_is (h !!! l) "Point"); [|done].
  by destruct Hin as [<- | []].
Qed.

(** The index is the ward descriptors followed by the school ones, and the
    tree dataset has no part in it. *)
Lemma searchableItems_split h w s t :
  searchableItems h w s t = wardItems h w ++ schoolItems h s.
Proof.
  unfold wardItems, schoolItems, searchableItems.
  destruct w as [dw|], s as [ds|]; simpl; rewrite ?app_nil_r; try done.
  by rewrite fold_pushSchool_app.
Qed.

Lemma wardItems_map h w : wardItems h w = map (wardItem h) (features_of w).
Proof.
  unfold wardItems, searchableItems. destruct w as [d|]; simpl; [|done].
  by rewrite fold_pushWard.
Qed.

Lemma schoolItems_features h s :
  map feature (schoolItems h s) = List.filter (indexable_school h) (features_of s).
Proof.
  unfold schoolItems, searchableItems. destruct s as [d|]; simpl; [|done].
  by rewrite fold_pushSchool_features.
Qed.

Lemma schoolItems_name h s item :
  In item (schoolItems h s) -> item_name item = school_display_name h (feature item).
Proof.
  unfold schoolItems, searchableItems. destruct s as [d|]; simpl; [|done].
  apply fold_pushSchool_name.
Qed.

Lemma in_schoolItems h s l :
  (exists item, In item (schoolItems h s) /\ feature item = l)
  <-> In l (features_of s) /\ indexable_school h l = true.
Proof.
  rewrite <- filter_In, <- schoolItems_features, in_map_iff.
  split; intros (item & H1 & H2); eauto.
Qed.

Lemma filtered_split h w s t q :
  filtered h w s t q
  = List.filter (matches (toLowerCase q)) (wardItems h w)
    ++ List.filter (matches (toLowerCase q)) (schoolItems h s).
Proof. unfold filtered. by rewrite searchableItems_split, List.filter_app. Qed.

(** C7. For every query and datasets the result list has at most 10
    entries and is a prefix of the matching ward descriptors followed by
    the matching school descriptors; the ward descriptors follow the ward
    dataset feature by feature, the school descriptors follow the school
    dataset with the features that are no Points left out. Nothing ranks
    the matches. *)
Theorem results_capped_in_aggregation_order
    (h : heap) (wards schools trees : option FeatureCollection) (q : string) :
  length (results h wards schools trees q) <= 10
  /\ results h wards schools trees q
     = take (if String.eqb q "" then 0 else 10)
         (List.filter (matches (toLowerCase q)) (wardItems h wards)
          ++ List.filter (matches (toLowerCase q)) (schoolItems h schools))
  /\ wardItems h wards = map (wardItem h) (features_of wards)
  /\ map feature (schoolItems h schools)
     = List.filter (indexable_school h) (features_of schools).
Proof.
  split; [|split; [|split]].
  - unfold results. destruct (String.length q =? 0)%nat; simpl; [lia|].
    rewrite length_take. lia.
  - unfold results. rewrite <- (filtered_split h wards schools trees q).
    destruct q; simpl; done.
  - apply wardItems_map.
  - apply schoolItems_features.
Qed.

(** C3, as the specification states it, fails: a loaded tree feature whose
    name contains the query is in no result list, whatever name a tree is
    displayed under. *)
Lemma tree_features_are_not_indexed :
  ~ (forall (displayName : Feature -> string) (h : heap)
            (wards schools trees : option FeatureCollection)
            (q : string) (l : loc),
        In l (features_of trees) ->
        q <> "" ->
        includes (toLowerCase (displayName (h !!! l))) (toLowerCase q) = true ->
        exists item, In item (filtered h wards schools trees q) /\ feature item = l).
Proof.
  intros H.
  destruct (H Samples.tree_name {[ 1 := Samples.neem ]} None None
              (Some {| features := [1] |}) "neem" 1) as (item & Hin & _).
  - simpl. by left.
  - done.
  - by vm_compute.
  - vm_compute in Hin. done.
Qed.

(** C3, amended. The index is built from the ward dataset and from the
    Point features of the school dataset, and from nothing else: a feature
    has a matching descriptor exactly when it is a ward feature whose
    display name contains the query, or a school feature with a Point
    geometry and coordinates whose display name contains it, both without
    regard to case. The tree dataset does not change the index. *)
Theorem index_covers_wards_and_school_points
    (h : heap) (wards schools trees : option FeatureCollection) (q : string) (l : loc) :
  ((exists item, In item (filtered h wards schools trees q) /\ feature item = l)
   <-> (In l (features_of wards)
        /\ includes (toLowerCase (ward_display_name h l)) (toLowerCase q) = true)
       \/ (In l (features_of schools)
           /\ indexable_school h l = true
           /\ includes (toLowerCase (school_display_name h l)) (toLowerCase q) = true))
  /\ searchableItems h wards schools trees = searchableItems h wards schools None.
Proof.
  split; [|done].
  rewrite filtered_split. split.
  - intros (item & Hin & <-). apply in_app_iff in Hin as [Hin | Hin];
      apply filter_In in Hin as [Hin Hm].
    + left. rewrite wardItems_map in Hin. apply in_map_iff in Hin as (l & <- & Hl).
      done.
    + right. pose proof (schoolItems_name _ _ _ Hin) as Hname.
      destruct (proj1 (in_schoolItems h schools (feature item))) as [H1 H2]; [eauto|].
      unfold matches in Hm. rewrite Hname in Hm. done.
  - intros [[Hl Hm] | (Hl & Hp & Hm)].
    + exists (wardItem h l). split; [|done].
      apply in_app_iff. left. apply filter_In. split; [|done].
      rewrite wardItems_map. by apply in_map.
    + destruct (proj2 (in_schoolItems h schools l)) as (item & Hin & <-); [done|].
      exists item. split; [|done].
      apply in_app_iff. right. apply filter_In. split; [done|].
      unfold matches. by rewrite (schoolItems_name _ _ _ Hin).
Qed.

(** C6, as the specification states it, fails: a query of one space is
    white space only and returns the ward that is displayed as
    "Unnamed Ward". *)
Lemma whitespace_query_returns_matches :
  ~ (forall (h : heap) (wards schools trees : option FeatureCollection) (q : string),
        whitespace_only q = true -> results h wards schools trees q = []).
Proof.
  intros H.
  specialize (H {[ 0 := Samples.unnamed_ward ]} (Some {| features := [0] |}) None None " ").
  vm_compute in H. specialize (H eq_refl). done.
Qed.

(** C6, amended. The empty query returns no result; any other query, one
    of white space only included, is matched as a substring: the results
    are the first 10 descriptors whose lower-cased name contains it. *)
Theorem empty_query_yields_no_results
    (h : heap) (wards schools trees : option FeatureCollection) :
  results h wards schools trees "" = []
  /\ forall (c : ascii) (q : string),
       results h wards schools trees (String c q)
       = take 10 (List.filter (matches (toLowerCase (String c q)))
                    (searchableItems h wards schools trees)).
Proof. split; [done|]. intros c q. done. Qed.

End SearchFacts.

(** ** Rendering, selection and visibility *)
Module AppFacts.
Import Js GeoJSON App.


Lemma renderSchool_other idx l l' (h : heap) :
  l <> l' -> renderSchool idx l h !! l' = h !! l'.
Proof.
  intros Hne. unfold renderSchool.
  destruct (geometry_coordinates (h !!! l)) as [c|]; [|done].
  destruct (negb _ || negb _); [done|].
  by rewrite lookup_insert_ne.
Qed.

Lemma renderSchool_same idx l (h : heap) :
  rendered_school h l = true ->
  renderSchool idx l h !! l = Some (set_key (KNum idx) (h !!! l)).
Proof.
  unfold rendered_school, renderSchool.
  destruct (geometry_coordinates (h !!! l)) as [c|]; [|done].
  intros [-> ->]%andb_true_iff. simpl. by rewrite lookup_insert_eq.
Qed.

Lemma mapFeatures_other ls : forall idx (h : heap) l,
  ~ In l ls -> mapFeatures idx ls h !! l = h !! l.
Proof.
  induction ls as [|l0 ls IH]; intros idx h l Hnot; simpl; [done|].
  rewrite IH by (intros ?; apply Hnot; by right).
  apply renderSchool_other. intros ->. apply Hnot. by left.
Qed.

Lemma rendered_school_other idx l l' (h : heap) :
  l <> l' -> rendered_school (renderSchool idx l h) l' = rendered_school h l'.
Proof.
  intros Hne. unfold rendered_school.
  by rewrite !lookup_total_alt, renderSchool_other.
Qed.

(** The marker loop writes the index of a feature that passes the guard
    on the object itself, and keeps its other fields. *)
Lemma mapFeatures_key ls : forall idx (h : heap) i l,
  NoDup ls -> ls !! i = Some l -> rendered_school h l = true ->
  mapFeatures idx ls h !! l = Some (set_key (KNum (idx + i)) (h !!! l)).
Proof.
  induction ls as [|l0 ls IH]; intros idx h i l Hnd Hi Hg; [done|].
  apply NoDup_cons in Hnd as [Hnot Hnd]. simpl.
  destruct i as [|i]; simpl in Hi.
  - injection Hi as ->. rewrite mapFeatures_other by (by rewrite <- list_elem_of_In).
    rewrite Nat.add_0_r. by apply renderSchool_same.
  - assert (l0 <> l) as Hne.
    { intros ->. apply Hnot. by eapply list_elem_of_lookup_2. }
    rewrite (IH (S idx) _ i l Hnd Hi).
    + rewrite (lookup_total_alt (renderSchool idx l0 h)), renderSchool_other by done.
      rewrite <- lookup_total_alt. do 3 f_equal. lia.
    + by rewrite rendered_school_other.
Qed.

(** A feature that fails the guard is left as it was. *)
Lemma renderSchool_skipped idx l (h : heap) :
  rendered_school h l = false -> renderSchool idx l h = h.
Proof.
  unfold rendered_school, renderSchool.
  destruct (geometry_coordinates (h !!! l)) as [c|]; [|done].
  intros [-> | ->]%andb_false_iff; simpl; [done|].
  by rewrite orb_true_r.
Qed.

(** Rendering changes the key of an object and nothing else. *)
Lemma renderSchool_fields idx l l' (h : heap) :
  properties (renderSchool idx l h !!! l') = properties (h !!! l')
  /\ geometry (renderSchool idx l h !!! l') = geometry (h !!! l').
Proof.
  destruct (decide (l = l')) as [<- | Hne].
  - destruct (rendered_school h l) eqn:Hg.
    + rewrite (lookup_total_alt (renderSchool idx l h)), renderSchool_same by done. done.
    + by rewrite renderSchool_skipped.
  - by rewrite (lookup_total_alt (renderSchool idx l h)), renderSchool_other,
      <- lookup_total_alt.
Qed.

Lemma mapFeatures_fields ls : forall idx (h : heap) l',
  properties (mapFeatures idx ls h !!! l') = properties (h !!! l')
  /\ geometry (mapFeatures idx ls h !!! l') = geometry (h !!! l').
Proof.
  induction ls as [|l0 ls IH]; intros idx h l'; simpl; [done|].
  destruct (IH (S idx) (renderSchool idx l0 h) l') as [-> ->].
  apply renderSchool_fields.
Qed.

Lemma visible_toggled id id' s :
  visible id' (setLayersVisibility
                 (fun prev => <[id := negb (default false (prev !! id))]> prev) s)
  = if decide (id = id') then negb (visible id' s) else visible id' s.
Proof.
  unfold visible. simpl. rewrite lookup_insert. destruct (decide (id = id')) as [->|]; done.
Qed.

Lemma render_frame s s' :
  render s = Normal s' ->
  s' = set_objects (SchoolLayer_render (visible "schools" s) (schoolData s) (objects s)) (next_loc s) s.
Proof.
  unfold render. destruct (SchoolLayer_prop s); [|done]. by intros [= <-].
Qed.

(** What the effects after a commit do to a layer's dataset and fetches. *)
Lemma run_effects_spec before s :
  let s' := run_effects before s in
  (forall id, visible id s' = visible id s)
  /\ (if Bool.eqb (visible "trees" before) (visible "trees" s)
      then treeData s' = treeData s /\ treeLoads s' = treeLoads s
      else if visible "trees" s
           then treeData s' = treeData s /\ treeLoads s' = S (treeLoads s)
           else treeData s' = None /\ treeLoads s' = treeLoads s)
  /\ (if Bool.eqb (visible "schools" before) (visible "schools" s)
      then schoolData s' = schoolData s /\ schoolFetches s' = schoolFetches s
      else if visible "schools" s
           then schoolData s' = schoolData s /\ schoolFetches s' = S (schoolFetches s)
           else schoolData s' = None /\ schoolFetches s' = schoolFetches s)
  /\ wardData s' = wardData s /\ openPopupFeature s' = openPopupFeature s.
Proof.
  unfold run_effects, trees_effect, schools_effect.
  destruct (Bool.eqb (visible "trees" before) (visible "trees" s)) eqn:ET;
  destruct (visible "trees" s) eqn:VT; simpl;
  unfold visible in *; simpl; 
  destruct (Bool.eqb (default false (layersVisibility before !! "schools")) (default false (layersVisibility s !! "schools"))) eqn:ES;
  destruct (default false (layersVisibility s !! "schools")) eqn:VS; simpl; rewrite ?VT, ?VS; simpl; done.
Qed.

Lemma handle_toggle id s :
  let s' := handle (Toggle id) s in
  (forall id', visible id' s' = if decide (id = id') then negb (visible id' s) else visible id' s)
  /\ treeData s' = treeData s /\ treeLoads s' = treeLoads s
  /\ schoolData s' = schoolData s /\ schoolFetches s' = schoolFetches s
  /\ wardData s' = wardData s /\ wardFetches s' = wardFetches s.
Proof.
  simpl. unfold toggleLayer.
  destruct (toggle_guard id s) as [[]|[msg]]; simpl;
    (split; [intros id'; apply (visible_toggled id id' s) | done]).
Qed.

Lemma handle_search q pick s :
  let s' := handle (Search q pick) s in
  layersVisibility s' = layersVisibility s
  /\ treeData s' = treeData s /\ treeLoads s' = treeLoads s
  /\ schoolData s' = schoolData s /\ schoolFetches s' = schoolFetches s
  /\ wardData s' = wardData s /\ wardFetches s' = wardFetches s.
Proof.
  simpl. by destruct (_ !! pick).
Qed.


Lemma step_observables e s s' :
  step e s = Normal s' ->
  (forall id, visible id s' = visible id (handle e s))
  /\ (if Bool.eqb (visible "trees" s) (visible "trees" (handle e s))
      then treeData s' = treeData (handle e s) /\ treeLoads s' = treeLoads (handle e s)
      else if visible "trees" (handle e s)
           then treeData s' = treeData (handle e s) /\ treeLoads s' = S (treeLoads (handle e s))
           else treeData s' = None /\ treeLoads s' = treeLoads (handle e s))
  /\ (if Bool.eqb (visible "schools" s) (visible "schools" (handle e s))
      then schoolData s' = schoolData (handle e s)
           /\ schoolFetches s' = schoolFetches (handle e s)
      else if visible "schools" (handle e s)
           then schoolData s' = schoolData (handle e s)
                /\ schoolFetches s' = S (schoolFetches (handle e s))
           else schoolData s' = None /\ schoolFetches s' = schoolFetches (handle e s)).
Proof.
  unfold step. intros Hstep.
  destruct (render (handle e s)) as [s1|] eqn:Hr; [|done].
  injection Hstep as <-. apply render_frame in Hr.
  pose proof (run_effects_spec s s1) as (Hv & HeT & HeS & _).
  by subst s1.
Qed.




(** A response changes no visibility, and touches the dataset of a layer
    only when one of its fetches is in flight. *)
Lemma handle_response e s :
  (forall id, e <> Toggle id) ->
  let s' := handle e s in
  layersVisibility s' = layersVisibility s
  /\ (treeLoads s = 0 -> treeData s' = treeData s /\ treeLoads s' = 0)
  /\ (schoolFetches s = 0 -> schoolData s' = schoolData s /\ schoolFetches s' = 0).
Proof.
  intros Hne. destruct e as [id | q pick | body | body | merged]; simpl.
  - exfalso. by apply (Hne id).
  - by destruct (_ !! pick).
  - destruct (wardFetches s); [done|]. by destruct body.
  - destruct (schoolFetches s) eqn:E; [by rewrite E|]. by destruct body.
  - destruct (treeLoads s) eqn:E; [by rewrite E|]. done.
Qed.

Lemma step_inv e s s' :
  hidden_layers_hold_nothing s -> toggles_while_loading e s = false -> step e s = Normal s' -> hidden_layers_hold_nothing s'.
Proof.
  intros [HT HS] Hcalm Hstep.
  apply step_observables in Hstep as (Hv & HeT & HeS).
  unfold hidden_layers_hold_nothing. rewrite !Hv.
  assert ((exists id, e = Toggle id) \/ (forall id, e <> Toggle id)) as [[id ->] | Hne]
    by (destruct e; eauto).
  - destruct (handle_toggle id s) as (Hvh & E1 & E2 & E3 & E4 & _).
    rewrite !Hvh, ?E1, ?E2, ?E3, ?E4 in *. clear Hvh E1 E2 E3 E4 Hv.
    simpl in Hcalm. apply orb_false_iff in Hcalm as [HcT HcS].
    repeat case_decide; subst; try done; simpl in *;
      rewrite ?negb_false_iff, ?Nat.eqb_eq in *;
      destruct (visible "trees" s), (visible "schools" s); simpl in *;
      intuition congruence.
  - destruct (handle_response e s Hne) as (Hvh & ET & ES).
    unfold visible in *. rewrite Hvh in *.
    rewrite !Bool.eqb_reflx in *. destruct HeT as [-> ->], HeS as [-> ->].
    split; intros Hhid.
    + destruct (HT Hhid) as [H1 H2]. destruct (ET H2) as [-> ->]. done.
    + destruct (HS Hhid) as [H1 H2]. destruct (ES H2) as [-> ->]. done.
Qed.
Lemma run_inv evs : forall s s',
  hidden_layers_hold_nothing s -> calm evs s = true -> run evs s = Normal s' ->
  hidden_layers_hold_nothing s'.
Proof.
  induction evs as [|e evs IH]; intros s s' Hinv Hcalm Hrun; simpl in *.
  - by injection Hrun as <-.
  - apply andb_true_iff in Hcalm as [Hq Hcalm]. apply negb_true_iff in Hq.
    destruct (step e s) as [s1|] eqn:Hstep; [|done].
    eapply IH; [|done..]. by eapply step_inv.
Qed.

Lemma mount_inv : hidden_layers_hold_nothing mount.
Proof. split; intros H; vm_compute in H |- *; done. Qed.

(** An event other than a toggle starts no fetch. *)
Lemma handle_starts_nothing e s :
  (forall id, e <> Toggle id) ->
  treeLoads (handle e s) <= treeLoads s
  /\ schoolFetches (handle e s) <= schoolFetches s.
Proof.
  intros Hne. destruct e as [id | q pick | body | body | merged]; simpl.
  - exfalso. by apply (Hne id).
  - by destruct (_ !! pick).
  - destruct (wardFetches s); [done|]. by destruct body.
  - destruct (schoolFetches s) eqn:E; [by rewrite E|]. destruct body; simpl; lia.
  - destruct (treeLoads s) eqn:E; [by rewrite E|]. simpl. lia.
Qed.




(** The two coordinates are needed: the marker loop skips a Point that
    carries an altitude as third coordinate, which gets no key. *)
Lemma point_with_altitude_gets_no_key :
  ~ (forall (h : heap) (d : FeatureCollection) (i : nat) (l : loc),
        NoDup (features d) ->
        features d !! i = Some l ->
        geometry_type_is (h !!! l) "Point" = true ->
        __key (SchoolLayer_render true (Some d) h !!! l) = Some (KNum i)).
Proof.
  intros H.
  specialize (H {[ 0 := Samples.school_with_altitude ]} {| features := [0] |} 0 0).
  vm_compute in H. specialize (H (NoDup_singleton 0) eq_refl eq_refl). done.
Qed.

Lemma point_is_pair_rendered (h : heap) (d : FeatureCollection) (l : loc) :
  points_are_pairs h d = true -> In l (features d) ->
  geometry_type_is (h !!! l) "Point" = true ->
  rendered_school h l = true.
Proof.
  intros Hp Hl Ht. unfold points_are_pairs in Hp.
  rewrite forallb_forall in Hp. specialize (Hp l Hl).
  unfold point_is_pair in Hp. rewrite Ht in Hp. simpl in Hp.
  unfold rendered_school. rewrite Ht.
  destruct (geometry_coordinates (h !!! l)) as [[[|lon [|lat [|]]]|]|]; done.
Qed.

(** C10. The school dataset is what [osmtogeojson] built: distinct
    objects, every Point with its two coordinates. When the school layer
    renders it, every Point feature at index [i] of [schoolData.features]
    gets [__key = i] written on the object itself, its other fields kept.
    The search index holds a descriptor for that feature whose [feature]
    field is the same object, so the object read through the selection
    that [onSelect] sets carries the key. *)
Theorem school_render_writes_key_in_place
    (s s' : State) (d : FeatureCollection) (i : nat) (l : loc) :
  schoolData s = Some d ->
  visible "schools" s = true ->
  NoDup (features d) ->
  points_are_pairs (objects s) d = true ->
  features d !! i = Some l ->
  geometry_type_is (objects s !!! l) "Point" = true ->
  render s = Normal s' ->
  objects s' !! l = Some (set_key (KNum i) (objects s !!! l))
  /\ (exists item,
        In item (CustomSearch.searchableItems (objects s') (wardData s')
                   (schoolData s') (treeData s'))
        /\ CustomSearch.feature item = l)
  /\ (forall item, CustomSearch.feature item = l ->
        openPopupFeature (onSelect item s') = Some l
        /\ __key (objects (onSelect item s') !!! l) = Some (KNum i)).
Proof.
  intros Hd Hvis Hnd Hpairs Hi Hpoint Hr.
  assert (rendered_school (objects s) l = true) as Hg.
  { apply (point_is_pair_rendered _ d); [done | | done].
    by eapply list_elem_of_In, list_elem_of_lookup_2. }
  apply render_frame in Hr.
  rewrite Hd, Hvis in Hr. simpl in Hr.
  assert (objects s' !! l = Some (set_key (KNum i) (objects s !!! l))) as Hl.
  { subst s'. simpl. by rewrite (mapFeatures_key _ 0 _ i l). }
  split; [done|]. split.
  - assert (CustomSearch.indexable_school (objects s') l = true) as Hidx.
    { unfold CustomSearch.indexable_school, geometry_coordinates, geometry_type_is.
      rewrite (lookup_total_correct _ _ _ Hl). simpl.
      unfold rendered_school, geometry_coordinates, geometry_type_is in Hg.
      destruct (geometry (objects s !!! l) ≫= coords); [|done].
      by apply andb_true_iff in Hg as [-> _]. }
    rewrite SearchFacts.searchableItems_split.
    destruct (proj2 (SearchFacts.in_schoolItems (objects s') (schoolData s') l))
      as (item & Hin & Hf).
    + split; [|done]. subst s'. simpl. rewrite Hd. simpl.
      by eapply list_elem_of_In, list_elem_of_lookup_2.
    + exists item. split; [|done]. apply in_app_iff. by right.
  - intros item <-. simpl. split; [done|].
    by rewrite (lookup_total_correct _ _ _ Hl).
Qed.

(** One school, rendered right after the answer arrived. *)
Lemma school_render_writes_key_in_place_witness :
  objects (state_of (render (handle (SchoolsResponse (Some [Samples.school])) mount))) !! 0
  = Some (set_key (KNum 0) Samples.school).
Proof.
  apply (school_render_writes_key_in_place
           (handle (SchoolsResponse (Some [Samples.school])) mount)
           (state_of (render (handle (SchoolsResponse (Some [Samples.school])) mount)))
           {| features := [0] |} 0 0).
  - vm_compute. reflexivity.
  - vm_compute. reflexivity.
  - apply NoDup_singleton.
  - vm_compute. reflexivity.
  - reflexivity.
  - vm_compute. reflexivity.
  - vm_compute. reflexivity.
Defined.

(** C4 on the code. A selection that hiding the owning layer does not
    clear: an unnamed ward is loaded, the ward layer is shown and the ward
    is picked from the search results; when the ward layer is hidden the
    ward is still selected. *)
Theorem hiding_a_layer_can_keep_its_selection :
  run Samples.unnamed_ward_selected mount = Normal Samples.ward_selected_shown
  /\ visible "ward" Samples.ward_selected_shown = true
  /\ openPopupFeature Samples.ward_selected_shown = Some 0
  /\ wardData Samples.ward_selected_shown = Some {| features := [0] |}
  /\ step (Toggle "ward") Samples.ward_selected_shown
     = Normal Samples.ward_selected_hidden
  /\ visible "ward" Samples.ward_selected_hidden = false
  /\ openPopupFeature Samples.ward_selected_hidden = Some 0.
Proof.
  repeat (split; [by_evaluation|]); by_evaluation.
Qed.

End AppFacts.

(** ** The sharded loader *)
Module TreeFacts.
Import TreeLoader.

Section Loader.
Context {A : Type}.
Variable maxArguments : nat.
Implicit Types (st : Loader A) (responses : nat -> Response A).

#[local] Abbreviation chain := (chain maxArguments).
#[local] Abbreviation settle := (settle maxArguments).
#[local] Abbreviation loadTreeDataParts := (loadTreeDataParts maxArguments).
#[local] Abbreviation contribution := (contribution maxArguments).
#[local] Abbreviation skipped := (skipped maxArguments).
#[local] Abbreviation console_of := (console_of maxArguments).

Lemma chain_spec i (r : Response A) st :
  allFeatures (chain i r st) = allFeatures st ++ contribution r
  /\ fetchPromises (chain i r st) = fetchPromises st
  /\ trace (chain i r st) = trace st ++ console_of i r.
Proof.
  unfold TreeLoader.chain, TreeLoader.contribution, onData, push_spread.
  destruct r as [| status | | [| [t|] [fs|]]]; simpl; rewrite ?app_nil_r; try done.
  destruct (String.eqb t "FeatureCollection"); simpl; [|by rewrite app_nil_r].
  destruct (length fs <=? maxArguments)%nat; simpl; by rewrite ?app_nil_r.
Qed.

Lemma settle_idle responses st i :
  fetchPromises st = [] -> settle responses st i = st.
Proof. intros H. unfold settle. by rewrite H. Qed.

Lemma fold_settle_idle responses schedule : forall st,
  fetchPromises st = [] -> fold_left (settle responses) schedule st = st.
Proof.
  induction schedule as [|i rest IH]; intros st H; simpl; [done|].
  rewrite settle_idle by done. by apply IH.
Qed.

Lemma settle_order_nil schedule : settle_order [] schedule = [].
Proof. induction schedule; simpl; done. Qed.

Lemma remove_part_absent i ps :
  existsb (Nat.eqb i) ps = false -> remove_part i ps = ps.
Proof.
  induction ps as [|j ps IH]; simpl; [done|].
  intros [Hj Hps]%orb_false_iff. rewrite Nat.eqb_sym, Hj. simpl. by rewrite IH.
Qed.

Lemma filter_unsettled_nil ps : List.filter (unsettled []) ps = ps.
Proof. induction ps as [|j ps IH]; simpl; [done|]. by rewrite IH. Qed.

Lemma filter_unsettled_cons i rest ps :
  List.filter (unsettled (i :: rest)) ps
  = List.filter (unsettled rest) (remove_part i ps).
Proof.
  induction ps as [|j ps IH]; simpl; [done|].
  unfold unsettled at 1. simpl.
  destruct (j =? i)%nat eqn:E; simpl; [done|].
  fold (unsettled rest j). destruct (unsettled rest j); by rewrite IH.
Qed.

Lemma settle_last responses st i :
  existsb (Nat.eqb i) (fetchPromises st) = true ->
  remove_part i (fetchPromises st) = [] ->
  settle responses st i
  = {| allFeatures := allFeatures st ++ contribution (responses i);
       fetchPromises := [];
       trace := trace st ++ console_of i (responses i)
                ++ [SetTreeData (allFeatures st ++ contribution (responses i))] |}.
Proof.
  intros Hin Hrem. unfold settle. rewrite Hin.
  destruct (chain_spec i (responses i) st) as (-> & -> & ->).
  rewrite Hrem. by rewrite <- app_assoc.
Qed.

Lemma settle_more responses st i :
  existsb (Nat.eqb i) (fetchPromises st) = true ->
  remove_part i (fetchPromises st) <> [] ->
  settle responses st i
  = {| allFeatures := allFeatures st ++ contribution (responses i);
       fetchPromises := remove_part i (fetchPromises st);
       trace := trace st ++ console_of i (responses i) |}.
Proof.
  intros Hin Hrem. unfold settle. rewrite Hin.
  destruct (chain_spec i (responses i) st) as (-> & -> & ->).
  by destruct (remove_part i (fetchPromises st)).
Qed.

Lemma settle_absent responses st i :
  existsb (Nat.eqb i) (fetchPromises st) = false -> settle responses st i = st.
Proof. intros Hin. unfold settle. by rewrite Hin. Qed.

(** The state after a schedule, from any state with a pending fetch. *)
Lemma fold_settle_spec responses schedule : forall st,
  fetchPromises st <> [] ->
  let fin := fold_left (settle responses) schedule st in
  let order := settle_order (fetchPromises st) schedule in
  allFeatures fin
  = allFeatures st ++ flat_map (fun i => contribution (responses i)) order
  /\ fetchPromises fin = List.filter (unsettled schedule) (fetchPromises st)
  /\ trace fin
     = trace st ++ flat_map (fun i => console_of i (responses i)) order
       ++ match fetchPromises fin with
          | [] => [SetTreeData (allFeatures fin)]
          | _ => []
          end.
Proof.
  induction schedule as [|i rest IH]; intros st Hne; simpl.
  - rewrite !app_nil_r. split; [done|]. split.
    + by rewrite filter_unsettled_nil.
    + destruct (fetchPromises st); [done|]. by rewrite app_nil_r.
  - rewrite filter_unsettled_cons.
    destruct (existsb (Nat.eqb i) (fetchPromises st)) eqn:Hin.
    + destruct (remove_part i (fetchPromises st)) as [|p ps] eqn:Hrem.
      * rewrite (settle_last _ _ _ Hin Hrem), fold_settle_idle by done. simpl.
        rewrite settle_order_nil. simpl. by rewrite !app_nil_r.
      * rewrite settle_more by (done || by rewrite Hrem).
        match goal with |- context [fold_left _ rest ?st2] =>
          destruct (IH st2) as (E1 & E2 & E3); [by simpl; rewrite Hrem|] end.
        simpl in *. rewrite Hrem in *.
        split; [by rewrite E1, <- app_assoc|]. split; [done|].
        by rewrite E3, <- !app_assoc.
    + rewrite settle_absent, (remove_part_absent _ _ Hin) by done. by apply IH.
Qed.

Lemma remove_part_In i j ps : In j (remove_part i ps) <-> In j ps /\ j <> i.
Proof.
  unfold remove_part. rewrite filter_In, negb_true_iff, Nat.eqb_neq. done.
Qed.

Lemma remove_part_perm i ps :
  NoDup ps -> In i ps -> Permutation (i :: remove_part i ps) ps.
Proof.
  induction ps as [|j ps IH]; intros Hnd Hin; [done|].
  apply NoDup_cons in Hnd as [Hj Hnd]. simpl.
  destruct (j =? i)%nat eqn:E; simpl.
  - apply Nat.eqb_eq in E as ->. rewrite remove_part_absent; [done|].
    apply not_true_is_false. intros (x & Hx & ->%Nat.eqb_eq)%existsb_exists.
    by apply Hj, list_elem_of_In.
  - apply Nat.eqb_neq in E. destruct Hin as [-> | Hin]; [done|].
    rewrite perm_swap. by rewrite IH.
Qed.

(** When every pending part is in the schedule, the order of settlement
    is a rearrangement of the pending parts. *)
Lemma settle_order_perm schedule : forall ps,
  NoDup ps -> (forall j, In j ps -> In j schedule) ->
  Permutation (settle_order ps schedule) ps.
Proof.
  induction schedule as [|i rest IH]; intros ps Hnd Hall; simpl.
  - destruct ps as [|j ps]; [done|]. destruct (Hall j); by left.
  - destruct (existsb (Nat.eqb i) ps) eqn:Hin.
    + rewrite <- (remove_part_perm i ps) at 2; [|done|].
      * constructor. apply IH.
        -- unfold remove_part. apply NoDup_ListNoDup, List.NoDup_filter.
           by apply NoDup_ListNoDup.
        -- intros j [Hj Hne]%remove_part_In.
           destruct (Hall j Hj) as [-> | ?]; done.
      * apply existsb_exists in Hin as (x & Hx & ->%Nat.eqb_eq). done.
    + apply IH; [done|]. intros j Hj. destruct (Hall j Hj) as [<- | ?]; [|done].
      exfalso. apply not_true_iff_false in Hin. apply Hin, existsb_exists.
      exists i. split; [done|]. apply Nat.eqb_refl.
Qed.

Lemma all_settled_In schedule :
  all_settled schedule = true <-> forall j, In j parts -> In j schedule.
Proof.
  unfold all_settled. rewrite forallb_forall. split; intros H j Hj.
  - apply H, existsb_exists in Hj as (x & Hx & ->%Nat.eqb_eq). done.
  - apply existsb_exists. exists j. split; [by apply H | apply Nat.eqb_refl].
Qed.

Lemma filter_unsettled_all schedule ps :
  (forall j, In j ps -> In j schedule) -> List.filter (unsettled schedule) ps = [].
Proof.
  induction ps as [|j ps IH]; intros Hall; simpl; [done|].
  unfold unsettled at 1.
  assert (existsb (Nat.eqb j) schedule = true) as ->.
  { apply existsb_exists. exists j. split; [apply Hall; by left | apply Nat.eqb_refl]. }
  simpl. apply IH. intros i Hi. apply Hall. by right.
Qed.

Lemma filter_unsettled_some schedule ps :
  ~ (forall j, In j ps -> In j schedule) -> List.filter (unsettled schedule) ps <> [].
Proof.
  intros Hnot Hnil. apply Hnot. intros j Hj.
  destruct (existsb (Nat.eqb j) schedule) eqn:E.
  - apply existsb_exists in E as (x & Hx & ->%Nat.eqb_eq). done.
  - assert (In j (List.filter (unsettled schedule) ps)) as Hin.
    { apply filter_In. split; [done|]. unfold unsettled. by rewrite E. }
    by rewrite Hnil in Hin.
Qed.

Lemma datasets_app (tr1 tr2 : list (Effect A)) :
  datasets (tr1 ++ tr2) = datasets tr1 ++ datasets tr2.
Proof.
  induction tr1 as [|e tr1 IH]; simpl; [done|]. destruct e; simpl; by rewrite IH.
Qed.

Lemma datasets_fetches ps :
  datasets (map (fun i => Fetch (A:=A) (fileName i)) ps) = [].
Proof. induction ps; simpl; done. Qed.

Lemma datasets_console responses order :
  datasets (flat_map (fun i => console_of i (responses i)) order) = [].
Proof.
  induction order as [|i order IH]; simpl; [done|].
  rewrite datasets_app, IH, app_nil_r.
  destruct (responses i) as [| status | | [| [t|] [fs|]]]; simpl; try done.
  destruct (String.eqb t "FeatureCollection"); [|done].
  by destruct (length fs <=? maxArguments)%nat.
Qed.

Lemma skipped_contribution (i : nat) (r : Response A) :
  skipped r = true -> contribution r = [] /\ exists entry, console_of i r = [Console entry].
Proof.
  unfold TreeLoader.skipped, TreeLoader.contribution.
  destruct r as [| status | | [| [t|] [fs|]]]; simpl; eauto.
  destruct (String.eqb t "FeatureCollection"); simpl; [|eauto].
  destruct (length fs <=? maxArguments)%nat; simpl; [done | eauto].
Qed.

Lemma started_spec :
  started (A:=A)
  = {| allFeatures := []; fetchPromises := parts;
       trace := map (fun i => Fetch (fileName i)) parts |}.
Proof. reflexivity. Qed.

Lemma kept_console (i : nat) (r : Response A) :
  skipped r = false -> console_of i r = [].
Proof.
  unfold TreeLoader.skipped.
  destruct r as [| status | | [| [t|] [fs|]]]; simpl; try done.
  destruct (String.eqb t "FeatureCollection"); [|done].
  by destruct (length fs <=? maxArguments)%nat.
Qed.

(** A well-formed part: within the limit of the spread its features are
    its contribution; beyond it the part is skipped, and the entry on the
    console is the one of the [catch]. *)
Lemma parsed_contribution (i : nat) (r : Response A) (fs : list A) :
  parsed r = Some fs ->
  if (length fs <=? maxArguments)%nat
  then contribution r = fs /\ skipped r = false
  else contribution r = [] /\ skipped r = true
       /\ console_of i r
          = [Console (Error ("Error loading tree data from " +:+ fileName i +:+ ":"))].
Proof.
  unfold TreeLoader.skipped, TreeLoader.contribution.
  destruct r as [| status | | [| [t|] [fs'|]]]; simpl; try done.
  destruct (String.eqb t "FeatureCollection"); [|done].
  intros [= ->]. by destruct (length fs <=? maxArguments)%nat.
Qed.

(** C1 on the code. The six fetches are issued before anything settles.
    Once every part has settled, in whatever order, the dataset has been
    set exactly once, as the last effect, and not before the last fetch
    settled; its features are the contributions of the parts, each part
    once, in the order of settlement, so up to order those of parts 1 to
    6; a skipped part adds no feature and one console entry, any other
    part no entry. If part 3 is skipped, the features are those of parts
    1, 2, 4, 5, 6. The tree effect starts one such load when the layer is
    visible. A part that fetched and parsed to a well-formed collection
    contributes its features when the spread of [push] takes them; when
    it has more features than one call takes, the [catch] logs the
    RangeError and the part contributes nothing. *)
Theorem sharded_load_merges_settled_parts
    (responses : nat -> Response A) (schedule : list nat) :
  all_settled schedule = true ->
  let st := loadTreeDataParts responses schedule in
  let features_of_part := fun i => contribution (responses i) in
  trace (started (A:=A)) = map (fun i => Fetch (fileName i)) parts
  /\ fetchPromises (started (A:=A)) = [1; 2; 3; 4; 5; 6]
  /\ (exists order,
        Permutation order parts
        /\ allFeatures st = flat_map features_of_part order
        /\ trace st
           = map (fun i => Fetch (fileName i)) parts
             ++ flat_map (fun i => console_of i (responses i)) order
             ++ [SetTreeData (allFeatures st)])
  /\ datasets (trace st) = [allFeatures st]
  /\ Permutation (allFeatures st) (flat_map features_of_part parts)
  /\ (forall i, skipped (responses i) = true ->
        features_of_part i = []
        /\ exists entry, console_of i (responses i) = [Console entry])
  /\ (forall i, skipped (responses i) = false -> console_of i (responses i) = [])
  /\ (skipped (responses 3) = true ->
      Permutation (allFeatures st)
        (features_of_part 1 ++ features_of_part 2 ++ features_of_part 4
         ++ features_of_part 5 ++ features_of_part 6))
  /\ (forall earlier, all_settled earlier = false ->
        datasets (trace (loadTreeDataParts responses earlier)) = [])
  /\ (forall s, App.visible "trees" s = true ->
        App.treeLoads (App.trees_effect s) = S (App.treeLoads s))
  /\ (forall i fs, parsed (responses i) = Some fs ->
        if (length fs <=? maxArguments)%nat
        then features_of_part i = fs /\ skipped (responses i) = false
        else features_of_part i = [] /\ skipped (responses i) = true
             /\ console_of i (responses i)
                = [Console (Error ("Error loading tree data from "
                                   +:+ fileName i +:+ ":"))]).
Proof.
  intros Hall st features_of_part.
  pose proof (proj1 (all_settled_In schedule) Hall) as Hin. clear Hall.
  rename Hin into Hall.
  assert (NoDup parts) as Hnd by (apply NoDup_ListNoDup, List.seq_NoDup).
  destruct (fold_settle_spec responses schedule started) as (Ef & Ep & Et); [done|].
  fold (loadTreeDataParts responses schedule) in Ef, Ep, Et. fold st in Ef, Ep, Et.
  rewrite started_spec in Ef, Ep, Et.
  cbn [allFeatures fetchPromises trace app] in Ef, Ep, Et.
  rewrite (filter_unsettled_all _ _ Hall) in Ep. rewrite Ep in Et.
  pose proof (settle_order_perm schedule parts Hnd Hall) as Hperm.
  assert (Permutation (allFeatures st) (flat_map features_of_part parts)) as Hfeat.
  { rewrite Ef. by apply Permutation_flat_map. }
  split; [done|]. split; [done|]. split.
  { exists (settle_order parts schedule). done. }
  split.
  { rewrite Et, !datasets_app, datasets_fetches, datasets_console. done. }
  split; [done|]. split.
  { intros i. apply skipped_contribution. }
  split.
  { intros i. apply kept_console. }
  split.
  { intros H3. rewrite Hfeat. simpl.
    destruct (skipped_contribution 3 _ H3) as [E _].
    unfold features_of_part at 3. rewrite E. by rewrite app_nil_r. }
  split.
  { intros earlier Hnot.
    destruct (fold_settle_spec responses earlier started) as (_ & Ep' & Et'); [done|].
    fold (loadTreeDataParts responses earlier) in Ep', Et'.
    rewrite started_spec in Ep', Et'.
    cbn [allFeatures fetchPromises trace app] in Ep', Et'.
    destruct (fetchPromises (loadTreeDataParts responses earlier)) eqn:Hp.
    - exfalso. symmetry in Ep'. revert Ep'. apply filter_unsettled_some.
      intros Hin. apply (proj2 (all_settled_In earlier)) in Hin. by rewrite Hin in Hnot.
    - rewrite Et', !datasets_app, datasets_fetches, datasets_console. done. }
  split.
  { intros s Hvis. unfold App.trees_effect. by rewrite Hvis. }
  intros i fs. apply parsed_contribution.
Qed.

End Loader.

(** On an engine that takes three arguments, every part answers with a
    well-formed collection and part 2 holds four trees: once the parts
    have settled, in the order 3, 1, 2, 6, 5, 4, the trees 20 to 23 of
    part 2 are not in the dataset. *)
Lemma sharded_load_merges_settled_parts_witness :
  Permutation
    (allFeatures (loadTreeDataParts 3 Samples.part_two_too_long [3; 1; 2; 6; 5; 4]))
    [10; 11; 30; 31; 40; 41; 50; 51; 60; 61].
Proof.
  refine (proj1 (proj2 (proj2 (proj2 (proj2
    (sharded_load_merges_settled_parts 3 Samples.part_two_too_long
       [3; 1; 2; 6; 5; 4] _)))))).
  vm_compute. reflexivity.
Defined.

End TreeFacts.

(** ** The DEM colour ramp *)
Module DemFacts.
Import DEM.
#[local] Open Scope Q_scope.

Lemma Qmin_cases (x y : Q) : Qmin x y = x \/ Qmin x y = y.
Proof. unfold Qmin, GenericMinMax.gmin. destruct (x ?= y); auto. Qed.

Lemma Qmax_cases (x y : Q) : Qmax x y = x \/ Qmax x y = y.
Proof. unfold Qmax, GenericMinMax.gmax. destruct (x ?= y); auto. Qed.

(** [Math.min] returns one of its arguments, and none is below it. *)
Lemma Math_min_spec xs : forall x,
  In (Math_min x xs) (x :: xs) /\ forall y, In y (x :: xs) -> Math_min x xs <= y.
Proof.
  unfold Math_min. induction xs as [|z xs IH]; intros x; simpl.
  - split; [by left|]. intros y [<- | []]. apply Qle_refl.
  - destruct (IH (Qmin x z)) as [Hin Hle]. split.
    + destruct Hin as [Hin | Hin]; [|by right; right].
      rewrite <- Hin. destruct (Qmin_cases x z) as [-> | ->]; auto.
    + intros y [<- | [<- | Hy]].
      * eapply Qle_trans; [apply Hle; by left | apply Q.le_min_l].
      * eapply Qle_trans; [apply Hle; by left | apply Q.le_min_r].
      * apply Hle. by right.
Qed.

Lemma Math_max_spec xs : forall x,
  In (Math_max x xs) (x :: xs) /\ forall y, In y (x :: xs) -> y <= Math_max x xs.
Proof.
  unfold Math_max. induction xs as [|z xs IH]; intros x; simpl.
  - split; [by left|]. intros y [<- | []]. apply Qle_refl.
  - destruct (IH (Qmax x z)) as [Hin Hle]. split.
    + destruct Hin as [Hin | Hin]; [|by right; right].
      rewrite <- Hin. destruct (Qmax_cases x z) as [-> | ->]; auto.
    + intros y [<- | [<- | Hy]].
      * eapply Qle_trans; [apply Q.le_max_l | apply Hle; by left].
      * eapply Qle_trans; [apply Q.le_max_r | apply Hle; by left].
      * apply Hle. by right.
Qed.

(** The first pass collects the declared minima and maxima of the tiles
    that loaded, in file order. *)
Lemma firstPass_spec fetch files : forall acc,
  let pass := fold_left (loadOne fetch) files acc in
  allMins pass = (allMins acc ++ declaredMins fetch files)%list
  /\ allMaxs pass = (allMaxs acc ++ declaredMaxs fetch files)%list.
Proof.
  induction files as [|file files IH]; intros acc; simpl.
  - by rewrite !app_nil_r.
  - destruct (IH (loadOne fetch acc file)) as [-> ->].
    unfold loadOne, declaredMins, declaredMaxs. simpl.
    destruct (fetch (url file)) as [|g]; simpl; [done|].
    destruct (first_number (mins g)), (first_number (maxs g)); simpl;
      rewrite <- ?app_assoc; done.
Qed.

(** C2. The range is global: [globalMin] is one of the declared minima of
    the tiles that loaded and no declared minimum is below it, [globalMax]
    is one of the declared maxima and none is above it; every layer added
    to the map carries the colour function built from these two values, so
    two tiles give any pixel value the same colour. With the declared
    ranges [0, 100] and [50, 200] the range is 0 to 200 and the value 100
    gets the same shade in both tiles. *)
Theorem raster_range_is_global
    (fetch : string -> Tile) (files : list File) (globalMin globalMax : Q) :
  globalRange (loadFiles fetch files) = Some (globalMin, globalMax) ->
  In globalMin (declaredMins fetch files)
  /\ (forall m, In m (declaredMins fetch files) -> globalMin <= m)
  /\ In globalMax (declaredMaxs fetch files)
  /\ (forall m, In m (declaredMaxs fetch files) -> m <= globalMax)
  /\ Forall (fun layer =>
               colorFn layer
               = pixelValuesToColorFn globalMin (effectiveRange globalMin globalMax))
       (layers (loadFiles fetch files))
  /\ (forall tile1 tile2 pixelValues,
        In tile1 (layers (loadFiles fetch files)) ->
        In tile2 (layers (loadFiles fetch files)) ->
        colorFn tile1 pixelValues = colorFn tile2 pixelValues)
  /\ (globalRange (loadGeoRasters Samples.two_tiles) = Some (0, 200)
      /\ map (fun tile => colorFn tile [Number 100])
           (layers (loadGeoRasters Samples.two_tiles))
         = [Some "rgb(127, 127, 127)"; Some "rgb(127, 127, 127)"]%list).
Proof.
  intros Hrange.
  assert (Forall (fun layer =>
                    colorFn layer
                    = pixelValuesToColorFn globalMin (effectiveRange globalMin globalMax))
            (layers (loadFiles fetch files))
          /\ In globalMin (declaredMins fetch files)
          /\ (forall m, In m (declaredMins fetch files) -> globalMin <= m)
          /\ In globalMax (declaredMaxs fetch files)
          /\ (forall m, In m (declaredMaxs fetch files) -> m <= globalMax))
    as (Hfn & Hmin1 & Hmin2 & Hmax1 & Hmax2).
  { unfold loadFiles in *.
    destruct (firstPass_spec fetch files
                {| loadedGeorasters := []; allMins := []; allMaxs := []; console := [] |})
      as [Emin Emax].
    fold (firstPass fetch files) in Emin, Emax. simpl in Emin, Emax.
    rewrite <- Emin, <- Emax.
    destruct (loadedGeorasters (firstPass fetch files)) as [|g gs]; [done|].
    destruct (allMins (firstPass fetch files)) as [|m ms]; [done|].
    destruct (allMaxs (firstPass fetch files)) as [|M Ms]; [done|].
    simpl in Hrange. injection Hrange as <- <-.
    destruct (Math_min_spec ms m) as [H1 H2], (Math_max_spec Ms M) as [H3 H4].
    split; [|done].
    cbn [layers]. apply Forall_forall. intros layer Hin.
    apply list_elem_of_In, in_map_iff in Hin as ([g' n'] & <- & _). done. }
  repeat (split; [done|]). split.
  - intros tile1 tile2 pixelValues H1%list_elem_of_In H2%list_elem_of_In.
    rewrite Forall_forall in Hfn. by rewrite (Hfn _ H1), (Hfn _ H2).
  - split; vm_compute; reflexivity.
Qed.

(** The two sample tiles. *)
Lemma raster_range_is_global_witness :
  In (0 # 1) (declaredMins Samples.two_tiles demFiles).
Proof.
  refine (proj1 (raster_range_is_global Samples.two_tiles demFiles (0 # 1) (200 # 1) _)).
  vm_compute. reflexivity.
Defined.

End DemFacts.

(** ** The bookmark store *)
Module BookmarkFacts.
Import Js Bookmarks.

Section RoundTrip.
Context {number : Type}.
Variable JSON_stringify : list (Bookmark number) -> string.
Variable JSON_parse : string -> option (list (Bookmark number)).

(** Mounting over a store that holds the text of a list which the
    platform parses back restores that list, and leaves its text stored. *)
Lemma mount_restores (storage : gmap string string) (bs : list (Bookmark number)) :
  storage !! "mapBookmarks" = Some (JSON_stringify bs) ->
  JSON_stringify bs <> "" ->
  JSON_parse (JSON_stringify bs) = Some bs ->
  bookmarks (widget (mount JSON_stringify JSON_parse storage)) = bs
  /\ localStorage (mount JSON_stringify JSON_parse storage) !! "mapBookmarks"
     = Some (JSON_stringify bs)
  /\ console (mount JSON_stringify JSON_parse storage) = [].
Proof.
  intros Hstored Hne Hparse. unfold mount, load_effect. simpl. rewrite Hstored.
  apply String.eqb_neq in Hne. rewrite Hne, Hparse. simpl.
  by rewrite lookup_insert_eq.
Qed.


End RoundTrip.


End BookmarkFacts.

(** ** The search box *)
Module SearchBoxFacts.
Import Js GeoJSON CustomSearch.

Lemma or_literal_filled (a : option string) (d : string) :
  d <> "" -> or_literal a d <> "".
Proof.
  intros Hd. unfold or_literal, truthy. destruct a as [s|]; [|done].
  destruct (String.eqb s "") eqn:E; simpl; [done|].
  by apply String.eqb_neq in E.
Qed.

Lemma in_wardItems h w item :
  In item (wardItems h w) ->
  item = wardItem h (feature item) /\ In (feature item) (features_of w).
Proof.
  rewrite SearchFacts.wardItems_map, in_map_iff. intros (l & <- & Hl). done.
Qed.

(** What the school loop stores for a feature. *)
Lemma in_schoolItems_shape h s item :
  In item (schoolItems h s) ->
  item_type item = "School"
  /\ item_name item = school_display_name h (feature item)
  /\ bounds item = None
  /\ exists c, geometry_coordinates (h !!! feature item) = Some c
               /\ latlng item = Some (coords_nth c 1, coords_nth c 0).
Proof.
  unfold schoolItems, searchableItems. destruct s as [d|]; simpl; [|done].
  induction (features d) as [|l ls IH]; simpl; [done|].
  rewrite SearchFacts.fold_pushSchool_app, in_app_iff. intros [Hin | Hin]; [|by apply IH].
  unfold pushSchool in Hin.
  destruct (geometry_coordinates (h !!! l)) as [c|] eqn:Hc; [|done].
  destruct (geometry_type_is (h !!! l) "Point"); [|done].
  destruct Hin as [<- | []]. simpl. eauto 10.
Qed.

(** Every descriptor of the index has a name: the fallback literal stands
    in where the feature has none. *)
Theorem descriptors_are_named
    (h : heap) (wards schools trees : option FeatureCollection) (item : Item) :
  In item (searchableItems h wards schools trees) ->
  item_name item <> "".
Proof.
  rewrite SearchFacts.searchableItems_split, in_app_iff. intros [Hin | Hin].
  - apply in_wardItems in Hin as [-> _]. simpl. by apply or_literal_filled.
  - apply in_schoolItems_shape in Hin as (_ & -> & _). by apply or_literal_filled.
Qed.

Lemma descriptors_are_named_witness :
  item_name (wardItem {[ 0 := Samples.unnamed_ward ]} 0) <> "".
Proof.
  refine (descriptors_are_named {[ 0 := Samples.unnamed_ward ]}
            (Some {| features := [0] |}) None None _ _).
  vm_compute. by left.
Defined.

Lemma lower_ascii_idempotent (c : ascii) : lower_ascii (lower_ascii c) = lower_ascii c.
Proof. destruct c as [[] [] [] [] [] [] [] []]; reflexivity. Qed.

Lemma toLowerCase_idempotent (s : string) : toLowerCase (toLowerCase s) = toLowerCase s.
Proof.
  induction s as [|c s IH]; simpl; [done|]. by rewrite lower_ascii_idempotent, IH.
Qed.

Lemma toLowerCase_length (s : string) : String.length (toLowerCase s) = String.length s.
Proof. induction s as [|c s IH]; simpl; [done|]. by rewrite IH. Qed.

(** The search does not see the case of the query: two queries with the
    same lower-case form give the same results, and so does a query and
    its lower-case form. *)
Theorem results_ignore_query_case
    (h : heap) (wards schools trees : option FeatureCollection) (q1 q2 : string) :
  toLowerCase q1 = toLowerCase q2 ->
  results h wards schools trees q1 = results h wards schools trees q2
  /\ results h wards schools trees (toLowerCase q1) = results h wards schools trees q1.
Proof.
  intros Hq.
  assert (forall a b, toLowerCase a = toLowerCase b ->
                      results h wards schools trees a = results h wards schools trees b) as Hres.
  { intros a b Hab. unfold results, filtered. rewrite Hab.
    by rewrite <- (toLowerCase_length a), Hab, toLowerCase_length. }
  split; [by apply Hres|]. apply Hres, toLowerCase_idempotent.
Qed.

Lemma results_ignore_query_case_witness :
  results (App.objects Samples.schools_loaded) None
    (App.schoolData Samples.schools_loaded) None "PUBLIC"
  = results (App.objects Samples.schools_loaded) None
      (App.schoolData Samples.schools_loaded) None "public".
Proof.
  refine (proj1 (results_ignore_query_case _ None _ None "PUBLIC" "public" _)).
  vm_compute. reflexivity.
Defined.

(** Picking a result clears the box and makes one call on the map: for a
    ward [fitBounds] on the bounds of the feature, at most at zoom 15, and
    for a school [setView] to the point [coords[1], coords[0]] (the GeoJSON
    pair swapped to latitude, longitude) at zoom 17. When the call returns
    the viewport has moved once and the descriptor's feature, one of the
    ward or of the school dataset, is handed on; when the call throws, the
    viewport has not moved and no feature is handed on. *)
Theorem onSelect_moves_the_viewport_once
    (map : Map) (h : heap) (wards schools trees : option FeatureCollection)
    (item : Item) (box : Box) :
  In item (searchableItems h wards schools trees) ->
  exists call,
    ((item_type item = "Ward"
      /\ call = FitBounds (GeoJSONBounds (geometry (h !!! feature item))) 15)
     \/ (item_type item = "School"
         /\ exists c, geometry_coordinates (h !!! feature item) = Some c
            /\ call = SetView (coords_nth c 1, coords_nth c 0) 17))
    /\ (In (feature item) (features_of wards) \/ In (feature item) (features_of schools))
    /\ onSelect map item box
       = if returns map call
         then {| box_after := {| query := ""; shown := [] |};
                 moved := [call]; handed := Some (feature item) |}
         else {| box_after := {| query := ""; shown := [] |};
                 moved := []; handed := None |}.
Proof.
  rewrite SearchFacts.searchableItems_split, in_app_iff. intros [Hin | Hin].
  - apply in_wardItems in Hin as [Hitem Hl].
    exists (FitBounds (GeoJSONBounds (geometry (h !!! feature item))) 15).
    split; [left; by rewrite Hitem|]. split; [by left|].
    unfold onSelect, viewport_call. rewrite Hitem. done.
  - pose proof (proj1 (SearchFacts.in_schoolItems h schools (feature item))
                  (ex_intro _ item (conj Hin eq_refl))) as [Hl _].
    apply in_schoolItems_shape in Hin as (Ht & _ & Hb & c & Hc & Hll).
    exists (SetView (coords_nth c 1, coords_nth c 0) 17).
    split; [right; eauto|]. split; [by right|].
    unfold onSelect, viewport_call. by rewrite Hb, Hll.
Qed.

(** The school of the sample picked on a map that takes two numbers: the
    viewport goes to latitude 12.9, longitude 77.6. *)
Lemma onSelect_moves_the_viewport_once_witness :
  exists call,
    ((item_type Samples.school_item = "Ward"
      /\ call = FitBounds (GeoJSONBounds
                  (geometry (App.objects Samples.schools_loaded
                             !!! feature Samples.school_item))) 15)
     \/ (item_type Samples.school_item = "School"
         /\ exists c,
              geometry_coordinates
                (App.objects Samples.schools_loaded !!! feature Samples.school_item)
              = Some c
              /\ call = SetView (coords_nth c 1, coords_nth c 0) 17))
    /\ (In (feature Samples.school_item) (features_of None)
        \/ In (feature Samples.school_item)
             (features_of (App.schoolData Samples.schools_loaded)))
    /\ onSelect Samples.takes_numbers Samples.school_item
         {| query := "public"; shown := [Samples.school_item] |}
       = if returns Samples.takes_numbers call
         then {| box_after := {| query := ""; shown := [] |};
                 moved := [call]; handed := Some (feature Samples.school_item) |}
         else {| box_after := {| query := ""; shown := [] |};
                 moved := []; handed := None |}.
Proof.
  refine (onSelect_moves_the_viewport_once Samples.takes_numbers
            (App.objects Samples.schools_loaded) None
            (App.schoolData Samples.schools_loaded) None
            Samples.school_item {| query := "public"; shown := [Samples.school_item] |} _).
  vm_compute. by left.
Defined.

End SearchBoxFacts.

(** ** Toggling, rendering and picking, in general *)
Module SelectionFacts.
Import Js GeoJSON App.

(** [toggleLayer] throws in one situation only: the school layer is
    toggled while the selection is a Point whose [__key] is a number. *)
Theorem toggleLayer_throws_only_on_numbered_points (layerId : string) (s : State) :
  (exists e s', toggleLayer layerId s = Throw e s')
  <-> layerId = "schools"
      /\ exists l n, openPopupFeature s = Some l
                     /\ geometry_type_is (objects s !!! l) "Point" = true
                     /\ __key (objects s !!! l) = Some (KNum n).
Proof.
  unfold toggleLayer, toggle_guard, school_point_selected, not_tree_key.
  split.
  - intros (e & s' & H).
    destruct (String.eqb layerId "ward" && ward_selected s); [done|].
    destruct (String.eqb layerId "schools") eqn:E; [|done].
    apply String.eqb_eq in E. split; [done|].
    destruct (openPopupFeature s) as [l|]; [|done].
    destruct (geometry_type_is (objects s !!! l) "Point") eqn:Hp; [|done].
    destruct (__key (objects s !!! l)) as [[n|k]|] eqn:Hk;
      [eauto | by destruct (negb (startsWith k "tree-")) | done].
  - intros (-> & l & n & Hl & Hp & Hk). simpl. rewrite Hl, Hp, Hk. eauto.
Qed.

(** [toggleLayer] flips the visibility of its layer and of no other,
    whether it throws or not; a layer id that was not in the map becomes
    visible; no dataset and no object changes; toggling twice gives every
    layer its visibility back. *)
Theorem toggleLayer_flips_one_layer (layerId other : string) (s : State) :
  let s1 := state_of (toggleLayer layerId s) in
  let s2 := state_of (toggleLayer layerId s1) in
  visible layerId s1 = negb (visible layerId s)
  /\ (layersVisibility s !! layerId = None -> visible layerId s1 = true)
  /\ (other <> layerId -> visible other s1 = visible other s)
  /\ visible other s2 = visible other s
  /\ wardData s1 = wardData s /\ schoolData s1 = schoolData s
  /\ treeData s1 = treeData s /\ objects s1 = objects s.
Proof.
  assert (forall id st, visible id (state_of (toggleLayer layerId st))
                        = if decide (layerId = id) then negb (visible id st)
                          else visible id st) as Hvis.
  { intros id st. unfold toggleLayer.
    destruct (toggle_guard layerId st) as [[]|e]; simpl;
      apply (AppFacts.visible_toggled layerId id st). }
  simpl. rewrite !Hvis. repeat split.
  - by rewrite decide_True.
  - intros Hnone. rewrite decide_True by done. unfold visible. by rewrite Hnone.
  - intros Hne. by rewrite decide_False.
  - destruct (decide (layerId = other)); [apply negb_involutive | done].
  - unfold toggleLayer. by destruct (toggle_guard layerId s) as [[]|e].
  - unfold toggleLayer. by destruct (toggle_guard layerId s) as [[]|e].
  - unfold toggleLayer. by destruct (toggle_guard layerId s) as [[]|e].
  - unfold toggleLayer. by destruct (toggle_guard layerId s) as [[]|e].
Qed.

(** Toggling the ward layer never throws and clears a selected ward that
    has a [KGISWardName], whether the layer is being hidden or shown; any
    other selection stays. Toggling a layer other than the ward and school
    layers never throws and never touches the selection. *)
Theorem toggleLayer_clears_named_ward_both_ways (layerId : string) (s : State) :
  (exists s', toggleLayer "ward" s = Normal s'
              /\ openPopupFeature s'
                 = if ward_selected s then None else openPopupFeature s)
  /\ (layerId <> "ward" -> layerId <> "schools" ->
      exists s', toggleLayer layerId s = Normal s'
                 /\ openPopupFeature s' = openPopupFeature s).
Proof.
  split.
  - unfold toggleLayer, toggle_guard. simpl.
    destruct (ward_selected s); simpl; eauto.
  - intros Hw Hs. unfold toggleLayer, toggle_guard.
    apply String.eqb_neq in Hw, Hs. rewrite Hw, Hs. simpl. eauto.
Qed.

Lemma mapFeatures_skipped ls : forall idx (h : heap) l,
  rendered_school h l = false -> mapFeatures idx ls h !! l = h !! l.
Proof.
  induction ls as [|l0 ls IH]; intros idx h l Hg; simpl; [done|].
  destruct (decide (l0 = l)) as [-> | Hne].
  - rewrite AppFacts.renderSchool_skipped by done. by apply IH.
  - rewrite IH by (by rewrite AppFacts.rendered_school_other).
    by apply AppFacts.renderSchool_other.
Qed.

Lemma rendered_school_mapFeatures idx ls (h : heap) l :
  rendered_school (mapFeatures idx ls h) l = rendered_school h l.
Proof.
  unfold rendered_school, geometry_coordinates, geometry_type_is.
  by destruct (AppFacts.mapFeatures_fields ls idx h l) as [_ ->].
Qed.

(** Rendering the markers changes keys only: the properties and the
    geometry of every object stay, an object that is not in the dataset or
    fails the guard stays whole, and rendering again changes nothing. *)
Theorem school_render_changes_keys_only
    (h : heap) (d : FeatureCollection) (l : loc) :
  NoDup (features d) ->
  let h' := SchoolLayer_render true (Some d) h in
  properties (h' !!! l) = properties (h !!! l)
  /\ geometry (h' !!! l) = geometry (h !!! l)
  /\ (~ In l (features d) \/ rendered_school h l = false -> h' !! l = h !! l)
  /\ SchoolLayer_render true (Some d) h' = h'.
Proof.
  intros Hnd. simpl.
  destruct (AppFacts.mapFeatures_fields (features d) 0 h l) as [Hp Hg].
  split; [done|]. split; [done|]. split.
  - intros [Hnot | Hskip]; [by apply AppFacts.mapFeatures_other | by apply mapFeatures_skipped].
  - apply map_eq. intros l'.
    destruct (rendered_school h l') eqn:Hr; cycle 1.
    { rewrite !mapFeatures_skipped; by rewrite ?rendered_school_mapFeatures. }
    destruct (decide (l' ∈ features d)) as [Hin | Hnot]; cycle 1.
    { rewrite AppFacts.mapFeatures_other; [done|]. by rewrite <- list_elem_of_In. }
    apply list_elem_of_lookup in Hin as [i Hi].
    pose proof (AppFacts.mapFeatures_key (features d) 0 h i l' Hnd Hi Hr) as H1.
    rewrite (AppFacts.mapFeatures_key (features d) 0 _ i l' Hnd Hi)
      by (by rewrite rendered_school_mapFeatures).
    rewrite H1, (lookup_total_correct _ _ _ H1). done.
Qed.

Lemma school_render_changes_keys_only_witness :
  SchoolLayer_render true (Some {| features := [0] |})
    (SchoolLayer_render true (Some {| features := [0] |}) {[ 0 := Samples.school ]})
  = SchoolLayer_render true (Some {| features := [0] |}) {[ 0 := Samples.school ]}.
Proof.
  refine (proj2 (proj2 (proj2 (school_render_changes_keys_only
            {[ 0 := Samples.school ]} {| features := [0] |} 0 _)))).
  apply NoDup_singleton.
Defined.

Lemma handle_distinct e s : distinct_schools s -> distinct_schools (handle e s).
Proof.
  intros Hd. destruct e as [id | q pick | body | body | merged]; simpl.
  - unfold toggleLayer. by destruct (toggle_guard id s) as [[]|[msg]].
  - by destruct (_ !! pick).
  - destruct (wardFetches s); [done|]. by destruct body.
  - destruct (schoolFetches s); [done|]. destruct body as [fs|]; [|done].
    intros d [= <-]. simpl. apply NoDup_ListNoDup, List.seq_NoDup.
  - by destruct (treeLoads s).
Qed.

Lemma run_effects_schools before s :
  objects (run_effects before s) = objects s
  /\ (schoolData (run_effects before s) = schoolData s
      \/ schoolData (run_effects before s) = None).
Proof.
  unfold run_effects, trees_effect, schools_effect.
  repeat match goal with |- context [if ?b then _ else _] => destruct b end;
    simpl; auto.
Qed.

Lemma step_numbers_schools e s s' :
  distinct_schools s -> step e s = Normal s' ->
  distinct_schools s' /\ schools_numbered s'.
Proof.
  intros Hd Hstep. pose proof (handle_distinct e s Hd) as Hd1.
  pose proof (AppFacts.step_observables e s s' Hstep) as (Hv & _ & _).
  unfold step in Hstep.
  destruct (render (handle e s)) as [s2|] eqn:Hr; [|done].
  injection Hstep as <-. apply AppFacts.render_frame in Hr.
  destruct (run_effects_schools s s2) as [Ho Hs].
  assert (schoolData s2 = schoolData (handle e s)) as Hs2 by (by subst s2).
  split.
  - intros d Hsd. destruct Hs as [Hs | Hs]; rewrite Hs in Hsd; [|done].
    apply Hd1. by rewrite <- Hs2.
  - intros Hvis d i l Hsd Hi Hg. rewrite Hv in Hvis.
    destruct Hs as [Hs | Hs]; rewrite Hs in Hsd; [|done].
    rewrite Hs2 in Hsd. rewrite Ho in *. subst s2. simpl in *.
    rewrite Hsd, Hvis in *. simpl in *.
    rewrite rendered_school_mapFeatures in Hg.
    by rewrite (lookup_total_correct _ _ _
                  (AppFacts.mapFeatures_key _ 0 _ i l (Hd1 d Hsd) Hi Hg)).
Qed.

Lemma run_numbers_schools evs : forall s s',
  distinct_schools s -> schools_numbered s -> run evs s = Normal s' ->
  distinct_schools s' /\ schools_numbered s'.
Proof.
  induction evs as [|e evs IH]; intros s s' Hd Hn Hrun; simpl in Hrun.
  - by injection Hrun as <-.
  - destruct (step e s) as [s1|] eqn:Hstep; [|done].
    destruct (step_numbers_schools e s s1 Hd Hstep) as [Hd1 Hn1].
    by apply (IH s1).
Qed.

(** In every state the app reaches, while the school layer is visible,
    picking from the search results a school that the layer has rendered
    makes the render that follows throw a type error: the selection is
    set, and [App] evaluates [startsWith] on the number the marker loop
    wrote as [__key]. *)
Theorem picking_a_rendered_school_breaks_the_render
    (evs : list Event) (s : State) (query : string) (pick : nat)
    (item : CustomSearch.Item) :
  run evs mount = Normal s ->
  visible "schools" s = true ->
  CustomSearch.results (objects s) (wardData s) (schoolData s) (treeData s) query
    !! pick = Some item ->
  CustomSearch.item_type item = "School" ->
  rendered_school (objects s) (CustomSearch.feature item) = true ->
  exists msg,
    step (Search query pick) s = Throw (TypeError msg) (onSelect item s)
    /\ openPopupFeature (onSelect item s) = Some (CustomSearch.feature item).
Proof.
  intros Hrun Hvis Hpick Htype Hg.
  destruct (run_numbers_schools evs mount s) as [_ Hn]; [done | done | done |].
  assert (In item (CustomSearch.schoolItems (objects s) (schoolData s))) as Hin.
  { unfold CustomSearch.results in Hpick.
    destruct (String.length query =? 0)%nat; [done|].
    apply lookup_take_Some in Hpick as [Hpick _].
    apply list_elem_of_lookup_2, list_elem_of_In in Hpick.
    rewrite SearchFacts.filtered_split, in_app_iff, !filter_In in Hpick.
    destruct Hpick as [[Hw _] | [Hs _]]; [|done].
    apply SearchBoxFacts.in_wardItems in Hw as [Hitem _].
    rewrite Hitem in Htype. done. }
  destruct (proj1 (SearchFacts.in_schoolItems (objects s) (schoolData s)
                     (CustomSearch.feature item))) as [Hl _]; [eauto|].
  destruct (schoolData s) as [d|] eqn:Hsd; [|done]. simpl in Hl.
  apply list_elem_of_In, list_elem_of_lookup in Hl as [i Hi].
  pose proof (Hn Hvis d i _ Hsd Hi Hg) as Hkey.
  assert (geometry_type_is (objects s !!! CustomSearch.feature item) "Point" = true) as Hp.
  { unfold rendered_school in Hg.
    destruct (geometry_coordinates _); [|done]. by apply andb_true_iff in Hg as [-> _]. }
  exists "openPopupFeature.__key?.startsWith is not a function".
  split; [|done].
  unfold step, handle. rewrite Hsd, Hpick.
  unfold render, SchoolLayer_prop, school_point_selected, not_tree_key. simpl.
  by rewrite Hp, Hkey.
Qed.

Lemma picking_a_rendered_school_breaks_the_render_witness :
  exists msg,
    step (Search "public" 0) Samples.schools_loaded
    = Throw (TypeError msg) (onSelect Samples.school_item Samples.schools_loaded)
    /\ openPopupFeature (onSelect Samples.school_item Samples.schools_loaded) = Some 0.
Proof.
  refine (picking_a_rendered_school_breaks_the_render Samples.schools_arrive
            Samples.schools_loaded "public" 0 Samples.school_item _ _ _ _ _);
    by_evaluation.
Defined.

End SelectionFacts.

(** ** The guard on the selection in the states the app reaches *)
Module GuardFacts.
Import Js GeoJSON App.

Lemma store_all_below fs : forall n (h : heap) (l : loc),
  l < n -> store_all fs n h !! l = h !! l.
Proof.
  induction fs as [|f fs IH]; intros n h l Hl; simpl; [done|].
  rewrite IH by lia. apply lookup_insert_ne. lia.
Qed.

Lemma store_all_at fs : forall n (h : heap) j f,
  fs !! j = Some f -> store_all fs n h !! ((n + j) : loc) = Some f.
Proof.
  induction fs as [|f0 fs IH]; intros n h j f Hj; [done|].
  destruct j as [|j]; simpl in *.
  - injection Hj as ->. rewrite Nat.add_0_r, store_all_below by lia.
    apply lookup_insert_eq.
  - rewrite <- Nat.add_succ_comm. by apply IH.
Qed.

(** The marker loop leaves a key as it is or writes a number. *)
Lemma mapFeatures_keys ls : forall idx (h : heap) l,
  __key (mapFeatures idx ls h !!! l) = __key (h !!! l)
  \/ exists n, __key (mapFeatures idx ls h !!! l) = Some (KNum n).
Proof.
  induction ls as [|l0 ls IH]; intros idx h l; simpl; [by left|].
  destruct (IH (S idx) (renderSchool idx l0 h) l) as [E | [n E]]; [|right; eauto].
  rewrite E. destruct (decide (l0 = l)) as [-> | Hne].
  - destruct (rendered_school h l) eqn:Hg.
    + right. exists idx.
      by rewrite (lookup_total_correct _ _ _ (AppFacts.renderSchool_same idx l h Hg)).
    + left. by rewrite AppFacts.renderSchool_skipped.
  - left. by rewrite (lookup_total_alt (renderSchool idx l0 h)),
      AppFacts.renderSchool_other, <- lookup_total_alt.
Qed.

(** The feature of a search result is a feature of the ward or of the
    school dataset. *)
Lemma picked_feature (h : heap) (w sd t : option FeatureCollection)
    (q : string) (pick : nat) (item : CustomSearch.Item) :
  CustomSearch.results h w sd t q !! pick = Some item ->
  In (CustomSearch.feature item) (CustomSearch.features_of w)
  \/ In (CustomSearch.feature item) (CustomSearch.features_of sd).
Proof.
  unfold CustomSearch.results. destruct (String.length q =? 0)%nat; [done|].
  intros [Hpick _]%lookup_take_Some.
  apply list_elem_of_lookup_2, list_elem_of_In in Hpick.
  rewrite SearchFacts.filtered_split, in_app_iff, !filter_In in Hpick.
  destruct Hpick as [[Hw _] | [Hs _]].
  - left. by apply SearchBoxFacts.in_wardItems in Hw as [_ Hl].
  - right.
    by destruct (proj1 (SearchFacts.in_schoolItems h sd (CustomSearch.feature item))
                   (ex_intro _ item (conj Hs eq_refl))) as [Hl _].
Qed.

(** A rendered school that carries a number as key fails the guard. *)
Lemma numbered_school_raises (s : State) (l : loc) (n : nat) :
  openPopupFeature s = Some l ->
  rendered_school (objects s) l = true ->
  __key (objects s !!! l) = Some (KNum n) ->
  ~ guard_evaluates s.
Proof.
  intros Hsel Hg Hk [b Hb]. unfold school_point_selected in Hb. rewrite Hsel in Hb.
  unfold rendered_school in Hg. destruct (geometry_coordinates _); [|done].
  apply andb_true_iff in Hg as [Hp _]. rewrite Hp in Hb.
  unfold not_tree_key in Hb. by rewrite Hk in Hb.
Qed.

(** The guard reads the selection and the selected object only. *)
Lemma guard_same (s s1 : State) :
  openPopupFeature s1 = openPopupFeature s ->
  (forall l, openPopupFeature s = Some l -> objects s1 !! l = objects s !! l) ->
  school_point_selected s1 = school_point_selected s.
Proof.
  intros Hsel Hobj. unfold school_point_selected. rewrite Hsel.
  destruct (openPopupFeature s) as [l|]; [|done].
  by rewrite !lookup_total_alt, (Hobj l eq_refl).
Qed.

Lemma rendered_school_same (h h1 : heap) (l : loc) :
  h1 !! l = h !! l -> rendered_school h1 l = rendered_school h l.
Proof. intros E. unfold rendered_school. by rewrite !lookup_total_alt, E. Qed.

(** A handler that stores new objects at most, and keeps the school
    dataset and the visibility of the school layer. *)
Lemma carried (s s1 : State) :
  guarded s -> guard_evaluates s1 ->
  next_loc s <= next_loc s1 ->
  (forall l : loc, l < next_loc s -> objects s1 !! l = objects s !! l) ->
  schoolData s1 = schoolData s ->
  (forall d l, wardData s1 = Some d -> In l (features d) -> l < next_loc s1) ->
  visible "schools" s1 = visible "schools" s ->
  (forall l, openPopupFeature s1 = Some l -> l < next_loc s1) ->
  handled s1.
Proof.
  intros (Hd & Hn & Hg & (Ha1 & Ha2 & Ha3) & Hk) Hg1 Hle Hobj Hsd Hw Hv Hsel.
  split; [|split].
  - split; [done|]. split; [done|].
    intros d l Hd1 Hl. rewrite Hsd in Hd1. specialize (Ha3 d l Hd1 Hl). lia.
  - intros d l k Hd1 Hl. rewrite Hsd in Hd1.
    rewrite lookup_total_alt, (Hobj l (Ha3 d l Hd1 Hl)), <- lookup_total_alt.
    by apply (Hk d).
  - intros l d Hl Hvis Hd1 Hin Hr. rewrite Hsd in Hd1. rewrite Hv in Hvis.
    pose proof (Hobj l (Ha3 d l Hd1 Hin)) as El.
    rewrite (rendered_school_same _ _ _ El) in Hr.
    apply list_elem_of_In, list_elem_of_lookup in Hin as [i Hi].
    pose proof (Hn Hvis d i l Hd1 Hi Hr) as Hkey.
    apply (numbered_school_raises s1 l i); [done | | | done].
    + by rewrite (rendered_school_same _ _ _ El).
    + by rewrite lookup_total_alt, El, <- lookup_total_alt.
Qed.

Lemma handle_guarded (e : Event) (s : State) :
  guarded s -> unkeyed e = true -> guard_evaluates (handle e s) -> handled (handle e s).
Proof.
  intros Hgd Hun Hg1.
  pose proof Hgd as (Hd & Hn & Hg & (Ha1 & Ha2 & Ha3) & Hk).
  destruct e as [id | q pick | body | body | merged].
  - (* Toggle *)
    simpl in *. unfold toggleLayer in *.
    destruct (String.eqb id "schools") eqn:Eid.
    + apply String.eqb_eq in Eid as ->. unfold toggle_guard in *. simpl in *.
      destruct Hg as [b Hb]. rewrite Hb in *.
      split; [|split].
      * by destruct b.
      * by destruct b.
      * intros l d Hl Hvis Hd1 Hin Hr. destruct b; simpl in *; [done|].
        unfold school_point_selected in Hb. rewrite Hl in Hb.
        unfold rendered_school in Hr.
        destruct (geometry_coordinates (objects s !!! l)); [|done].
        apply andb_true_iff in Hr as [Hp _]. rewrite Hp in Hb.
        unfold not_tree_key in Hb.
        destruct (__key (objects s !!! l)) as [[n|k]|] eqn:Ek; try done.
        by apply (Hk d l k).
    + assert (forall s1, (s1 = setLayersVisibility
                (fun prev => <[id := negb (default false (prev !! id))]> prev) s
              \/ s1 = setOpenPopupFeature None (setLayersVisibility
                (fun prev => <[id := negb (default false (prev !! id))]> prev) s)) ->
              guard_evaluates s1 -> handled s1) as Hcase.
      { intros s1 Hs1 Hgs1. apply (carried s); try done.
        - by destruct Hs1 as [-> | ->].
        - by destruct Hs1 as [-> | ->].
        - by destruct Hs1 as [-> | ->].
        - intros d l. destruct Hs1 as [-> | ->]; apply Ha2.
        - assert (id <> "schools") as Hne by (by apply String.eqb_neq).
          destruct Hs1 as [-> | ->]; unfold visible; simpl;
            by rewrite lookup_insert_ne.
        - intros l. destruct Hs1 as [-> | ->]; [apply Ha1 | done]. }
      destruct (toggle_guard id s) as [[]|[msg]] eqn:Etg.
      * apply Hcase; auto.
      * apply Hcase; auto.
      * exfalso. unfold toggle_guard in Etg. rewrite Eid in Etg.
        by destruct (String.eqb id "ward" && ward_selected s).
  - (* Search *)
    simpl in *.
    destruct (CustomSearch.results _ _ _ _ q !! pick) as [item|] eqn:Hpick.
    + apply (carried s); try done.
      * intros l [= <-]. apply picked_feature in Hpick as [Hw | Hs].
        -- destruct (wardData s) as [d|] eqn:Ew; [|done]. by apply (Ha2 d).
        -- destruct (schoolData s) as [d|] eqn:Es; [|done]. by apply (Ha3 d).
    + by apply (carried s).
  - (* WardResponse *)
    simpl in *. destruct (wardFetches s) as [|n]; [by apply (carried s)|].
    destruct body as [fs|]; [|by apply (carried s)].
    apply (carried s); try done; simpl.
    + lia.
    + intros l Hl. by apply store_all_below.
    + intros d l [= <-] Hin. simpl in Hin. apply in_seq in Hin. lia.
    + intros l Hl. specialize (Ha1 l Hl). lia.
  - (* SchoolsResponse *)
    simpl in *. destruct (schoolFetches s) as [|n] eqn:En.
    { by apply (carried s). }
    destruct body as [fs|]; [|by apply (carried s)].
    split; [|split]; simpl.
    + split; [|split]; simpl.
      * intros l Hl. specialize (Ha1 l Hl). lia.
      * intros d l Hd1 Hin. specialize (Ha2 d l Hd1 Hin). lia.
      * intros d l [= <-] Hin. simpl in Hin. apply in_seq in Hin. lia.
    + intros d l k [= <-] Hin. simpl in Hin. apply in_seq in Hin.
      destruct (lookup_lt_is_Some_2 fs (l - next_loc s)) as [f Hf]; [lia|].
      pose proof (store_all_at fs (next_loc s) (objects s) _ f Hf) as E.
      replace (next_loc s + (l - next_loc s)) with l in E by lia.
      rewrite (lookup_total_correct _ _ _ E).
      rewrite forallb_forall in Hun.
      specialize (Hun f (proj1 (list_elem_of_In _ _) (list_elem_of_lookup_2 _ _ _ Hf))).
      by destruct (__key f).
    + intros l d Hl Hvis [= <-] Hin Hr. simpl in Hin. apply in_seq in Hin.
      specialize (Ha1 l Hl). lia.
  - (* TreesLoaded *)
    simpl in *. destruct (treeLoads s) as [|n] eqn:En.
    { by apply (carried s). }
    apply (carried s); try done; simpl.
    + lia.
    + intros l Hl. by apply store_all_below.
    + intros d l Hd1 Hin. specialize (Ha2 d l Hd1 Hin). lia.
    + intros l Hl. specialize (Ha1 l Hl). lia.
Qed.

Lemma run_effects_frame (before s : State) :
  objects (run_effects before s) = objects s
  /\ next_loc (run_effects before s) = next_loc s
  /\ openPopupFeature (run_effects before s) = openPopupFeature s
  /\ wardData (run_effects before s) = wardData s
  /\ (schoolData (run_effects before s) = schoolData s
      \/ schoolData (run_effects before s) = None).
Proof.
  unfold run_effects, trees_effect, schools_effect.
  repeat match goal with |- context [if ?b then _ else _] => destruct b end;
    simpl; auto 10.
Qed.

Lemma render_evaluates (s1 s2 : State) :
  render s1 = Normal s2 -> guard_evaluates s1.
Proof.
  unfold render, SchoolLayer_prop, guard_evaluates.
  destruct (school_point_selected s1) as [b|e]; [eauto | done].
Qed.

(** The render writes no key on a selection that the handler left. *)
Lemma render_keeps_selection (s1 : State) (l : loc) :
  handled s1 -> openPopupFeature s1 = Some l ->
  SchoolLayer_render (visible "schools" s1) (schoolData s1) (objects s1) !! l
  = objects s1 !! l.
Proof.
  intros (_ & _ & H3) Hl. unfold SchoolLayer_render.
  destruct (schoolData s1) as [d|] eqn:Hd; [|done].
  destruct (visible "schools" s1) eqn:Hv; [|done].
  destruct (rendered_school (objects s1) l) eqn:Hr.
  - apply AppFacts.mapFeatures_other. intros Hin. by apply (H3 l d).
  - by apply SelectionFacts.mapFeatures_skipped.
Qed.

Lemma step_guarded (e : Event) (s s' : State) :
  guarded s -> unkeyed e = true -> step e s = Normal s' -> guarded s'.
Proof.
  intros Hgd Hun Hstep.
  destruct (SelectionFacts.step_numbers_schools e s s' (proj1 Hgd) Hstep) as [Hd' Hn'].
  unfold step in Hstep.
  destruct (render (handle e s)) as [s2|] eqn:Hr; [|done]. injection Hstep as <-.
  pose proof (render_evaluates _ _ Hr) as Hg1.
  pose proof (handle_guarded e s Hgd Hun Hg1) as Hh.
  apply AppFacts.render_frame in Hr.
  destruct (run_effects_frame s s2) as (Eo & En & Es & Ew & Esd).
  set (s1 := handle e s) in *.
  assert (objects s2
          = SchoolLayer_render (visible "schools" s1) (schoolData s1) (objects s1)) as Eo2
    by (by subst s2).
  assert (next_loc s2 = next_loc s1 /\ openPopupFeature s2 = openPopupFeature s1
          /\ wardData s2 = wardData s1 /\ schoolData s2 = schoolData s1)
    as (En2 & Es2 & Ew2 & Esd2) by (by subst s2).
  clear Hr. destruct Hh as ((Ha1 & Ha2 & Ha3) & Hk & H3).
  split; [done|]. split; [done|]. split; [|split].
  - destruct Hg1 as [b Hb]. exists b. rewrite <- Hb. apply guard_same.
    + by rewrite Es, Es2.
    + intros l Hl. rewrite Eo, Eo2. by apply render_keeps_selection.
  - unfold allocated. rewrite En, En2. split; [|split].
    + intros l. rewrite Es, Es2. apply Ha1.
    + intros d l. rewrite Ew, Ew2. apply Ha2.
    + intros d l Hd1. destruct Esd as [E | E]; rewrite E in Hd1; [|done].
      rewrite Esd2 in Hd1. by apply Ha3.
  - intros d l k Hd1 Hin. destruct Esd as [E | E]; rewrite E in Hd1; [|done].
    rewrite Esd2 in Hd1. rewrite Eo, Eo2. unfold SchoolLayer_render.
    rewrite Hd1. destruct (visible "schools" s1); [|by apply (Hk d)].
    destruct (mapFeatures_keys (features d) 0 (objects s1) l) as [-> | [n ->]];
      [by apply (Hk d) | done].
Qed.

Lemma run_guarded (evs : list Event) : forall s s',
  guarded s -> forallb unkeyed evs = true -> run evs s = Normal s' -> guarded s'.
Proof.
  induction evs as [|e evs IH]; intros s s' Hgd Hun Hrun; simpl in *.
  - by injection Hrun as <-.
  - apply andb_true_iff in Hun as [Hu Hun].
    destruct (step e s) as [s1|] eqn:Hstep; [|done].
    apply (IH s1); [|done..]. by apply (step_guarded e s).
Qed.

Lemma mount_guarded : guarded mount.
Proof.
  split; [|split; [|split; [|split]]].
  - intros d Hd. vm_compute in Hd. done.
  - intros _ d i l Hd. vm_compute in Hd. done.
  - exists false. by_evaluation.
  - split; [|split].
    + intros l Hl. vm_compute in Hl. done.
    + intros d l Hd. vm_compute in Hd. done.
    + intros d l Hd. vm_compute in Hd. done.
  - intros d l k Hd. vm_compute in Hd. done.
Qed.

(** In a state that is guarded, [toggleLayer] returns. *)
Lemma guarded_toggleLayer (layerId : string) (s : State) :
  guard_evaluates s -> exists s', toggleLayer layerId s = Normal s'.
Proof.
  intros [b Hb]. unfold toggleLayer, toggle_guard.
  destruct (String.eqb layerId "ward" && ward_selected s); [eauto|].
  destruct (String.eqb layerId "schools"); [|eauto].
  rewrite Hb. destruct b; eauto.
Qed.

(** On a selected Point that carries a number as key the guard is a type
    error, in [toggleLayer] as in the render. *)
Lemma numbered_point_throws (s : State) (l : loc) (n : nat) :
  openPopupFeature s = Some l ->
  geometry_type_is (objects s !!! l) "Point" = true ->
  __key (objects s !!! l) = Some (KNum n) ->
  let msg := "openPopupFeature.__key?.startsWith is not a function" in
  toggleLayer "schools" s
  = Throw (TypeError msg)
      (setLayersVisibility
         (fun prev => <["schools" := negb (default false (prev !! "schools"))]> prev) s)
  /\ render s = Throw (TypeError msg) s.
Proof.
  intros Hl Hp Hk. simpl.
  unfold toggleLayer, toggle_guard, render, SchoolLayer_prop, school_point_selected,
    not_tree_key.
  rewrite Hl, Hp, Hk. simpl. done.
Qed.

(** C9, amended. The guard expression is not total: on a selected Point
    whose [__key] is a number it is a type error, in
    [toggleLayer("schools")], which has then flipped the visibility and
    keeps the selection, as in the render of [App], which evaluates the
    same expression for the prop of [SchoolLayer]. In the app it is the
    render that meets it: after the school answer has arrived and the
    layer has rendered, a school picked from the search results is a Point
    whose [__key] is the number the marker loop wrote, and the render that
    follows the selection throws. [toggleLayer] returns in every state
    that a run reaches whose school answers carry no [__key] of their
    own. *)
Theorem guard_not_total_and_met_by_the_render :
  (forall (s : State) (l : loc) (n : nat),
      openPopupFeature s = Some l ->
      geometry_type_is (objects s !!! l) "Point" = true ->
      __key (objects s !!! l) = Some (KNum n) ->
      (exists msg s',
          toggleLayer "schools" s = Throw (TypeError msg) s'
          /\ openPopupFeature s' = Some l
          /\ visible "schools" s' = negb (visible "schools" s))
      /\ exists msg, render s = Throw (TypeError msg) s)
  /\ (exists (evs : list Event) (s0 : State) (query : string) (pick : nat)
             (item : CustomSearch.Item) (d : FeatureCollection) (l : loc) (i : nat),
        run evs mount = Normal s0
        /\ CustomSearch.results (objects s0) (wardData s0) (schoolData s0)
             (treeData s0) query !! pick = Some item
        /\ CustomSearch.feature item = l
        /\ schoolData s0 = Some d /\ features d !! i = Some l
        /\ geometry_type_is (objects s0 !!! l) "Point" = true
        /\ __key (objects s0 !!! l) = Some (KNum i)
        /\ exists msg,
             step (Search query pick) s0 = Throw (TypeError msg) (onSelect item s0)
             /\ openPopupFeature (onSelect item s0) = Some l)
  /\ (forall (evs : list Event) (s : State) (layerId : string),
        forallb unkeyed evs = true ->
        run evs mount = Normal s ->
        exists s', toggleLayer layerId s = Normal s').
Proof.
  split; [|split].
  - intros s l n Hl Hp Hk.
    destruct (numbered_point_throws s l n Hl Hp Hk) as [Ht Hr]. split; [|eauto].
    eexists _, _. split; [exact Ht|]. split; [done|].
    unfold visible. simpl. by rewrite lookup_insert_eq.
  - exists Samples.schools_arrive, Samples.schools_loaded, "public", 0,
      Samples.school_item, {| features := [0] |}, 0, 0.
    repeat (split; [by_evaluation|]).
    exists "openPopupFeature.__key?.startsWith is not a function".
    split; by_evaluation.
  - intros evs s layerId Hun Hrun. apply guarded_toggleLayer.
    by destruct (run_guarded evs mount s mount_guarded Hun Hrun) as (_ & _ & Hg & _).
Qed.

(** C9, as the specification states it, fails. The state with a numbered
    Point selected via search is not reached: the render that follows the
    selection throws, and a run stops there. And no run on school answers
    as [osmtogeojson] builds them reaches a state in which [toggleLayer]
    throws. *)
Lemma no_reached_state_makes_toggleLayer_throw :
  ~ (exists (evs : list Event) (s0 : State) (query : string) (pick : nat)
            (item : CustomSearch.Item) (n : nat) (s1 : State),
        run evs mount = Normal s0
        /\ CustomSearch.results (objects s0) (wardData s0) (schoolData s0)
             (treeData s0) query !! pick = Some item
        /\ geometry_type_is (objects s0 !!! CustomSearch.feature item) "Point" = true
        /\ __key (objects s0 !!! CustomSearch.feature item) = Some (KNum n)
        /\ step (Search query pick) s0 = Normal s1)
  /\ ~ (exists (evs : list Event) (s : State) (e : jsError) (s' : State),
          forallb unkeyed evs = true
          /\ run evs mount = Normal s
          /\ toggleLayer "schools" s = Throw e s').
Proof.
  split.
  - intros (evs & s0 & query & pick & item & n & s1 & _ & Hpick & Hp & Hk & Hstep).
    unfold step, handle in Hstep. rewrite Hpick in Hstep.
    destruct (numbered_point_throws (onSelect item s0) (CustomSearch.feature item) n)
      as [_ Hr]; [done..|].
    by rewrite Hr in Hstep.
  - intros (evs & s & e & s' & Hun & Hrun & Ht).
    destruct (run_guarded evs mount s mount_guarded Hun Hrun) as (_ & _ & Hg & _).
    destruct (guarded_toggleLayer "schools" s Hg) as [s1 H1]. by rewrite H1 in Ht.
Qed.

End GuardFacts.

(** ** Using the bookmark widget *)
Module BookmarkWidgetFacts.
Import Js Bookmarks.

Section Widget.
Context {number : Type} `{!EqDecision number}.
Variable JSON_stringify : list (Bookmark number) -> string.
Variable JSON_parse : string -> option (list (Bookmark number)).

#[local] Abbreviation mount := (mount JSON_stringify JSON_parse).
#[local] Abbreviation save := (saveCurrentViewAsBookmark JSON_stringify).
#[local] Abbreviation delete := (deleteBookmark JSON_stringify).
#[local] Abbreviation mirrored := (mirrored JSON_stringify).

Lemma mount_mirrored (storage : gmap string string) : mirrored (mount storage).
Proof.
  unfold Bookmarks.mirrored, Bookmarks.mount, load_effect. simpl.
  destruct (storage !! "mapBookmarks") as [t|]; simpl.
  - destruct (String.eqb t ""); simpl; [by rewrite lookup_insert_eq|].
    destruct (JSON_parse t); simpl; by rewrite lookup_insert_eq.
  - by rewrite lookup_insert_eq.
Qed.

Lemma mount_other_keys (storage : gmap string string) (k : string) :
  k <> "mapBookmarks" -> localStorage (mount storage) !! k = storage !! k.
Proof.
  intros Hk. unfold Bookmarks.mount, load_effect. simpl.
  destruct (storage !! "mapBookmarks") as [t|]; simpl.
  - destruct (String.eqb t ""); simpl; [by rewrite lookup_insert_ne|].
    destruct (JSON_parse t); simpl; by rewrite !lookup_insert_ne.
  - by rewrite lookup_insert_ne.
Qed.

Lemma act_mirrored (st : World number) (a : Action number) :
  mirrored st -> mirrored (act JSON_stringify st a).
Proof.
  unfold Bookmarks.mirrored. intros H. destruct a as [v | c z now | target]; simpl.
  - done.
  - unfold saveCurrentViewAsBookmark.
    destruct (String.eqb (trim (newBookmarkName (widget st))) ""); simpl; [done|].
    by rewrite lookup_insert_eq.
  - by rewrite lookup_insert_eq.
Qed.

Lemma act_other_keys (st : World number) (a : Action number) (k : string) :
  k <> "mapBookmarks" ->
  localStorage (act JSON_stringify st a) !! k = localStorage st !! k.
Proof.
  intros Hk. destruct a as [v | c z now | target]; simpl.
  - done.
  - unfold saveCurrentViewAsBookmark.
    destruct (String.eqb (trim (newBookmarkName (widget st))) ""); simpl; [done|].
    by rewrite lookup_insert_ne.
  - by rewrite lookup_insert_ne.
Qed.





Lemma trimStart_blank (s : string) :
  forallb is_white (list_ascii_of_string s) = true -> trimStart s = "".
Proof.
  induction s as [|ch s IH]; simpl; [done|].
  intros [-> Hs]%andb_true_iff. by apply IH.
Qed.

(** A name of white space only, or no name, is refused: the list and the
    store stay as they are, and the request for a name is logged. *)
Theorem blank_name_saves_nothing
    (st : World number) (c : number * number) (z now : number) :
  forallb is_white (list_ascii_of_string (newBookmarkName (widget st))) = true ->
  bookmarks (widget (save c z now st)) = bookmarks (widget st)
  /\ localStorage (save c z now st) = localStorage st
  /\ console (save c z now st)
     = console st ++ ["Please enter a name for the bookmark."].
Proof.
  intros Hblank. unfold saveCurrentViewAsBookmark, trim.
  rewrite (trimStart_blank _ Hblank). done.
Qed.

End Widget.



Lemma blank_name_saves_nothing_witness :
  bookmarks (widget (saveCurrentViewAsBookmark Samples.stringify (13%Z, 78%Z) 15%Z
                       1700000360000%Z
                       (setNewBookmarkName "   " Samples.naming_lalbagh)))
  = bookmarks (widget (setNewBookmarkName "   " Samples.naming_lalbagh)).
Proof.
  refine (proj1 (blank_name_saves_nothing Samples.stringify
                   (setNewBookmarkName "   " Samples.naming_lalbagh)
                   (13%Z, 78%Z) 15%Z 1700000360000%Z _)).
  by_evaluation.
Defined.

End BookmarkWidgetFacts.

(** ** The colours of the tree layer *)
Module TreeLayerFacts.
Import Js GeoJSON LeafletTreeLayer.

Lemma code_unit_le_iff (a b : string) :
  code_unit_le a b <-> a = b \/ OrderedTypeEx.String_as_OT.lt a b.
Proof.
  unfold code_unit_le, String.leb.
  pose proof (OrderedTypeEx.String_as_OT.cmp_eq a b) as Heq.
  pose proof (OrderedTypeEx.String_as_OT.cmp_lt a b) as Hlt.
  unfold OrderedTypeEx.String_as_OT.cmp in *.
  destruct (String.compare a b); split; intros H; try done.
  - left. by apply Heq.
  - right. by apply Hlt.
  - destruct H as [H | H]; [by apply Heq in H | by apply Hlt in H].
Qed.

#[export] Instance code_unit_le_total : Total code_unit_le.
Proof. intros a b. apply String.leb_total. Qed.

#[export] Instance code_unit_le_antisym : AntiSymm (=) code_unit_le.
Proof. intros a b. apply String.leb_antisym. Qed.

#[export] Instance code_unit_le_trans : Transitive code_unit_le.
Proof.
  intros a b c. rewrite !code_unit_le_iff.
  intros [-> | Hab] [-> | Hbc]; auto.
  right. by eapply OrderedTypeEx.String_as_OT.lt_trans.
Qed.

Lemma set_add_spec (names : list string) (name x : string) :
  x ∈ set_add names name <-> x ∈ names \/ x = name.
Proof.
  unfold set_add. case_bool_decide as Hin.
  - split; [auto|]. intros [? | ->]; done.
  - rewrite elem_of_app, list_elem_of_singleton. done.
Qed.

Lemma set_add_NoDup (names : list string) (name : string) :
  NoDup names -> NoDup (set_add names name).
Proof.
  intros Hnd. unfold set_add. case_bool_decide as Hin; [done|].
  apply NoDup_app. split; [done|]. split; [|apply NoDup_singleton].
  intros x Hx ->%list_elem_of_singleton. done.
Qed.

Lemma fold_collect_spec (h : heap) (ls : list loc) : forall acc,
  NoDup acc ->
  NoDup (fold_left (collect h) ls acc)
  /\ forall x, x ∈ fold_left (collect h) ls acc
               <-> x ∈ acc \/ exists l, l ∈ ls /\ names_tree h x l.
Proof.
  induction ls as [|l ls IH]; intros acc Hnd; simpl.
  - split; [done|]. intros x. split; [auto|]. intros [? | (l & Hl & _)]; [done|].
    by apply elem_of_nil in Hl.
  - destruct (IH (collect h acc l)) as [H1 H2].
    { unfold collect. destruct (truthy _); [by apply set_add_NoDup | done]. }
    split; [done|]. intros x. rewrite H2. unfold collect, names_tree, truthy.
    destruct (normalized_name (h !!! l)) as [n|] eqn:Hn; simpl.
    + destruct (String.eqb n "") eqn:E; simpl.
      * apply String.eqb_eq in E as ->. split.
        -- intros [? | (l' & Hl' & Hx)]; [auto|]. right. exists l'. split; [by right | done].
        -- intros [? | (l' & [-> | Hl']%elem_of_cons & Hx)]; [auto | | eauto].
           destruct Hx as [Hx Hne]. rewrite Hn in Hx. by injection Hx as <-.
      * apply String.eqb_neq in E. rewrite set_add_spec. split.
        -- intros [[? | ->] | (l' & Hl' & Hx)]; [auto | | ].
           ++ right. exists l. split; [by left | by rewrite Hn].
           ++ right. exists l'. split; [by right | done].
        -- intros [? | (l' & [-> | Hl']%elem_of_cons & Hx)]; [auto | | eauto].
           destruct Hx as [Hx _]. rewrite Hn in Hx. injection Hx as <-. auto.
    + split.
      * intros [? | (l' & Hl' & Hx)]; [auto|]. right. exists l'. split; [by right | done].
      * intros [? | (l' & [-> | Hl']%elem_of_cons & Hx)]; [auto | | eauto].
        destruct Hx as [Hx _]. by rewrite Hn in Hx.
Qed.

Lemma uniqueTreeNames_spec (h : heap) (treeData : option FeatureCollection) :
  NoDup (uniqueTreeNames h treeData)
  /\ forall x, x ∈ uniqueTreeNames h treeData
               <-> exists l, l ∈ CustomSearch.features_of treeData /\ names_tree h x l.
Proof.
  unfold uniqueTreeNames. destruct treeData as [d|]; simpl.
  - destruct (fold_collect_spec h (features d) [] (NoDup_nil_2)) as [H1 H2].
    split; [done|]. intros x. rewrite H2. split; [|auto].
    intros [Hx | ?]; [|done]. by apply elem_of_nil in Hx.
  - split; [constructor|]. intros x. split; [by intros ?%elem_of_nil|].
    intros (l & Hl & _). by apply elem_of_nil in Hl.
Qed.

Lemma sortedUniqueTreeNames_spec (h : heap) (treeData : option FeatureCollection) :
  NoDup (sortedUniqueTreeNames h treeData)
  /\ Sorted code_unit_le (sortedUniqueTreeNames h treeData)
  /\ forall x, x ∈ sortedUniqueTreeNames h treeData
               <-> exists l, l ∈ CustomSearch.features_of treeData /\ names_tree h x l.
Proof.
  destruct (uniqueTreeNames_spec h treeData) as [H1 H2].
  unfold sortedUniqueTreeNames.
  pose proof (merge_sort_Permutation code_unit_le (uniqueTreeNames h treeData)) as Hp.
  split; [by rewrite Hp|]. split; [apply Sorted_merge_sort; apply _|].
  intros x. by rewrite Hp.
Qed.

Lemma assign_other (names : list string) : forall index (map : gmap string string) x,
  x ∉ names -> assign index names map !! x = map !! x.
Proof.
  induction names as [|n names IH]; intros index map x Hx; simpl; [done|].
  apply not_elem_of_cons in Hx as [Hne Hx]. by rewrite IH, lookup_insert_ne.
Qed.

(** The name at rank [i] gets the colour of index [i], counted round the
    palette. *)
Lemma assign_rank (names : list string) : forall index (map : gmap string string) i x,
  NoDup names -> names !! i = Some x ->
  assign index names map !! x = Some (color_at (index + i)).
Proof.
  induction names as [|n names IH]; intros index map i x Hnd Hi; [done|].
  apply NoDup_cons in Hnd as [Hn Hnd]. simpl. destruct i as [|i]; simpl in Hi.
  - injection Hi as ->. rewrite assign_other, lookup_insert_eq by done.
    by rewrite Nat.add_0_r.
  - rewrite (IH (S index) _ i x Hnd Hi). do 2 f_equal. lia.
Qed.

Lemma treeColorMap_rank (h : heap) (treeData : option FeatureCollection) (x : string) :
  (forall rank, sortedUniqueTreeNames h treeData !! rank = Some x ->
                treeColorMap h treeData !! x = Some (color_at rank))
  /\ (x ∉ sortedUniqueTreeNames h treeData -> treeColorMap h treeData !! x = None).
Proof.
  destruct (sortedUniqueTreeNames_spec h treeData) as (Hnd & _ & _).
  unfold treeColorMap. split.
  - intros rank Hr. by rewrite (assign_rank _ 0 ∅ rank x Hnd Hr).
  - intros Hx. by rewrite assign_other.
Qed.

Lemma color_at_palette (index : nat) :
  In (color_at index) distinctColors /\ color_at index <> "".
Proof.
  unfold color_at.
  assert (index mod length distinctColors < length distinctColors) as Hlt
    by (apply Nat.mod_upper_bound; done).
  destruct (lookup_lt_is_Some_2 distinctColors _ Hlt) as [c Hc]. rewrite Hc.
  change (default "" (Some c)) with c.
  apply list_elem_of_lookup_2 in Hc.
  split; [by apply (proj1 (list_elem_of_In _ _))|].
  assert (Forall (fun c => c <> "") distinctColors) as Hall
    by (repeat constructor; discriminate).
  rewrite Forall_forall in Hall. by apply Hall.
Qed.

Lemma or_literal_value (c d : string) : c <> "" -> or_literal (Some c) d = c.
Proof.
  intros Hc. unfold or_literal, truthy. apply String.eqb_neq in Hc. by rewrite Hc.
Qed.

Lemma color_of_named (h : heap) (treeData : option FeatureCollection)
    (f : Feature) (name : string) (rank : nat) :
  normalized_name f = Some name -> name <> "" ->
  sortedUniqueTreeNames h treeData !! rank = Some name ->
  color (treeColorMap h treeData) f = color_at rank.
Proof.
  intros Hn Hne Hr. unfold color, treeName. rewrite Hn, (or_literal_value _ _ Hne).
  rewrite (proj1 (treeColorMap_rank h treeData name) rank Hr).
  apply or_literal_value, color_at_palette.
Qed.

(** A tree with a name is drawn in a colour of the palette, never in the
    fallback green: the colour at the rank of its name among the sorted
    distinct names, counted round the palette, so that ranks 25 apart
    share a colour. *)
Theorem named_trees_take_palette_colours
    (h : heap) (treeData : option FeatureCollection) (l : loc) (name : string) :
  In l (CustomSearch.features_of treeData) ->
  names_tree h name l ->
  exists rank,
    sortedUniqueTreeNames h treeData !! rank = Some name
    /\ color (treeColorMap h treeData) (h !!! l) = color_at rank
    /\ In (color_at rank) distinctColors
    /\ color_at (rank + 25) = color_at rank.
Proof.
  intros Hl [Hn Hne].
  destruct (sortedUniqueTreeNames_spec h treeData) as (_ & _ & Hmem).
  assert (name ∈ sortedUniqueTreeNames h treeData) as [rank Hr]%list_elem_of_lookup.
  { apply Hmem. exists l. split; [by apply list_elem_of_In | done]. }
  exists rank. split; [done|]. split; [by eapply color_of_named|].
  split; [apply color_at_palette|].
  unfold color_at. simpl length.
  by rewrite <- (Nat.Div0.add_mod_idemp_r rank 25 25), Nat.Div0.mod_same, Nat.add_0_r.
Qed.

(** With at most 25 distinct names, two named trees have the same colour
    exactly when they have the same name, case and surrounding white
    space apart. *)
Theorem up_to_25_species_have_distinct_colours
    (h : heap) (treeData : option FeatureCollection)
    (l1 l2 : loc) (name1 name2 : string) :
  length (sortedUniqueTreeNames h treeData) <= length distinctColors ->
  In l1 (CustomSearch.features_of treeData) -> names_tree h name1 l1 ->
  In l2 (CustomSearch.features_of treeData) -> names_tree h name2 l2 ->
  color (treeColorMap h treeData) (h !!! l1) = color (treeColorMap h treeData) (h !!! l2)
  <-> name1 = name2.
Proof.
  intros Hlen Hl1 [Hn1 Hne1] Hl2 [Hn2 Hne2].
  destruct (sortedUniqueTreeNames_spec h treeData) as (Hnd & _ & Hmem).
  assert (name1 ∈ sortedUniqueTreeNames h treeData) as [r1 Hr1]%list_elem_of_lookup.
  { apply Hmem. exists l1. split; [by apply list_elem_of_In | done]. }
  assert (name2 ∈ sortedUniqueTreeNames h treeData) as [r2 Hr2]%list_elem_of_lookup.
  { apply Hmem. exists l2. split; [by apply list_elem_of_In | done]. }
  rewrite (color_of_named h treeData _ name1 r1), (color_of_named h treeData _ name2 r2)
    by done.
  split.
  - intros Hc.
    assert (r1 < length distinctColors /\ r2 < length distinctColors) as [Hlt1 Hlt2].
    { apply lookup_lt_Some in Hr1, Hr2. lia. }
    unfold color_at in Hc. rewrite !Nat.mod_small in Hc by done.
    destruct (lookup_lt_is_Some_2 distinctColors r1 Hlt1) as [c1 Hc1].
    destruct (lookup_lt_is_Some_2 distinctColors r2 Hlt2) as [c2 Hc2].
    rewrite Hc1, Hc2 in Hc. simpl in Hc. subst c2.
    assert (NoDup distinctColors) as Hpal
      by (apply (bool_decide_unpack (NoDup distinctColors)); by vm_compute).
    pose proof (NoDup_lookup _ _ _ _ Hpal Hc1 Hc2) as ->.
    rewrite Hr1 in Hr2. by injection Hr2.
  - intros ->. pose proof (NoDup_lookup _ _ _ _ Hnd Hr1 Hr2) as ->. done.
Qed.

(** The colours do not depend on the order of the features in the
    dataset: the names are sorted before the colours are given out. *)
Theorem colours_ignore_the_order_of_features
    (h : heap) (d d' : FeatureCollection) :
  Permutation (features d) (features d') ->
  sortedUniqueTreeNames h (Some d) = sortedUniqueTreeNames h (Some d')
  /\ treeColorMap h (Some d) = treeColorMap h (Some d').
Proof.
  intros Hperm.
  assert (sortedUniqueTreeNames h (Some d) = sortedUniqueTreeNames h (Some d')) as E.
  { destruct (sortedUniqueTreeNames_spec h (Some d)) as (Hnd & Hs & Hmem).
    destruct (sortedUniqueTreeNames_spec h (Some d')) as (Hnd' & Hs' & Hmem').
    apply (Sorted_unique code_unit_le); [done | done |].
    apply NoDup_Permutation; [done | done |].
    intros x. rewrite Hmem, Hmem'. simpl.
    split; intros (l & Hl & Hx); exists l; (split; [|done]).
    - by rewrite <- Hperm.
    - by rewrite Hperm. }
  split; [done|]. unfold treeColorMap. by rewrite E.
Qed.

(** A tree without a name is drawn under the name "unknown": in the
    fallback green when no tree of the dataset is called "unknown", and
    otherwise in the colour of the trees that are. *)
Theorem unnamed_trees_are_drawn_as_unknown
    (h : heap) (treeData : option FeatureCollection) (f : Feature) :
  truthy (normalized_name f) = false ->
  ((forall l, In l (CustomSearch.features_of treeData) -> ~ names_tree h "unknown" l) ->
   color (treeColorMap h treeData) f = "#2E8B57")
  /\ (forall l, In l (CustomSearch.features_of treeData) -> names_tree h "unknown" l ->
      color (treeColorMap h treeData) f = color (treeColorMap h treeData) (h !!! l)).
Proof.
  intros Hf.
  assert (treeName f = "unknown") as Hname by (unfold treeName, or_literal; by rewrite Hf).
  destruct (sortedUniqueTreeNames_spec h treeData) as (_ & _ & Hmem).
  split.
  - intros Hnone. unfold color. rewrite Hname.
    rewrite (proj2 (treeColorMap_rank h treeData "unknown")); [done|].
    intros (l & Hl & Hx)%Hmem. apply (Hnone l); [by apply list_elem_of_In | done].
  - intros l Hl [Hn Hne].
    assert ("unknown" ∈ sortedUniqueTreeNames h treeData) as [rank Hr]%list_elem_of_lookup.
    { apply Hmem. exists l. split; [by apply list_elem_of_In | done]. }
    rewrite (color_of_named h treeData (h !!! l) "unknown" rank) by done.
    unfold color. rewrite Hname.
    rewrite (proj1 (treeColorMap_rank h treeData "unknown") rank Hr).
    apply or_literal_value, color_at_palette.
Qed.

Lemma fold_pushMarker (h : heap) (map : gmap string string) (ls : list loc) :
  forall acc,
    fold_left (pushMarker h map) ls acc
    = acc ++ List.map (marker_of h map) (List.filter (gives_marker h) ls).
Proof.
  induction ls as [|l ls IH]; intros acc; simpl; [by rewrite app_nil_r|].
  rewrite IH. unfold pushMarker. unfold gives_marker at 2.
  destruct (geometry_coordinates (h !!! l)) as [c|] eqn:Hc; [|done].
  destruct (geometry_type_is (h !!! l) "Point"); simpl; [|done].
  destruct (coords_length c =? 2)%nat; simpl; [|done].
  unfold marker_of at 2. by rewrite Hc, <- app_assoc.
Qed.

(** The cluster holds one marker for each feature that is a Point with
    two coordinates, in the order of the dataset, standing at
    [coords[1], coords[0]]; when the layer is hidden, the dataset is absent
    or no feature gives a marker, nothing is added to the map. *)
Theorem cluster_has_one_marker_per_point
    (visible : bool) (h : heap) (treeData : option FeatureCollection) :
  let points := List.filter (gives_marker h) (CustomSearch.features_of treeData) in
  cluster visible h treeData
  = if visible && negb (length points =? 0)%nat
    then Some (List.map (marker_of h (treeColorMap h treeData)) points)
    else None.
Proof.
  unfold cluster. destruct treeData as [d|]; simpl; [|by destruct visible].
  destruct visible; simpl; [|done].
  rewrite fold_pushMarker. cbn [app].
  destruct (length (features d) =? 0)%nat eqn:E.
  - apply Nat.eqb_eq, nil_length_inv in E. by rewrite E.
  - by destruct (List.filter (gives_marker h) (features d)).
Qed.

Lemma named_trees_take_palette_colours_witness :
  exists rank,
    sortedUniqueTreeNames Samples.grove (Some Samples.grove_data) !! rank = Some "mango"
    /\ color (treeColorMap Samples.grove (Some Samples.grove_data)) (Samples.grove !!! 1)
       = color_at rank
    /\ In (color_at rank) distinctColors
    /\ color_at (rank + 25) = color_at rank.
Proof.
  refine (named_trees_take_palette_colours Samples.grove (Some Samples.grove_data)
            1 "mango" _ _).
  - vm_compute. auto.
  - split; [by_evaluation | discriminate].
Defined.

Lemma up_to_25_species_have_distinct_colours_witness :
  color (treeColorMap Samples.grove (Some Samples.grove_data)) (Samples.grove !!! 0)
  = color (treeColorMap Samples.grove (Some Samples.grove_data)) (Samples.grove !!! 1)
  <-> "neem" = "mango".
Proof.
  refine (up_to_25_species_have_distinct_colours Samples.grove (Some Samples.grove_data)
            0 1 "neem" "mango" _ _ _ _ _).
  - vm_compute. lia.
  - vm_compute. auto.
  - split; [by_evaluation | discriminate].
  - vm_compute. auto.
  - split; [by_evaluation | discriminate].
Defined.

Lemma colours_ignore_the_order_of_features_witness :
  treeColorMap Samples.grove (Some Samples.grove_data)
  = treeColorMap Samples.grove (Some Samples.grove_data_reordered).
Proof.
  refine (proj2 (colours_ignore_the_order_of_features Samples.grove
                   Samples.grove_data Samples.grove_data_reordered _)).
  apply Permutation_sym, (Permutation_cons_append [0; 1] 2).
Defined.

Lemma unnamed_trees_are_drawn_as_unknown_witness :
  color (treeColorMap Samples.grove (Some Samples.grove_data)) Samples.nameless_tree
  = "#2E8B57".
Proof.
  refine (proj1 (unnamed_trees_are_drawn_as_unknown Samples.grove
                   (Some Samples.grove_data) Samples.nameless_tree _) _).
  - by_evaluation.
  - intros l Hl [Hn _]. vm_compute in Hl.
    destruct Hl as [<- | [<- | [<- | []]]]; vm_compute in Hn; discriminate.
Defined.

End TreeLayerFacts.

(** ** The DEM ramp and the tiles drawn *)
Module DemRampFacts.
Import DEM.
#[local] Open Scope Q_scope.

(** The colour function draws nothing for a pixel that is undefined, null,
    not a number or outside -9999 to 9999, and a grey with one shade from 0
    to 255 for any other. *)
Theorem colour_is_a_grey_or_nothing
    (globalMin effectiveGlobalRange : Q) (pixelValues : list Pixel) :
  let pixel := default Undefined (head pixelValues) in
  match pixelValuesToColorFn globalMin effectiveGlobalRange pixelValues with
  | None => ~ drawn pixel
  | Some c =>
      exists v, pixel = Number v /\ drawn pixel
        /\ c = rgb (clampedShade globalMin effectiveGlobalRange v)
        /\ (0 <= clampedShade globalMin effectiveGlobalRange v <= 255)%Z
  end.
Proof.
  unfold pixelValuesToColorFn. simpl.
  destruct (default Undefined (head pixelValues)) as [| | |v]; simpl; try tauto.
  destruct (Qlt_le_dec v (-9999)) as [Hlo | Hlo].
  { intros [H _]. by apply (Qlt_not_le _ _ Hlo). }
  destruct (Qlt_le_dec 9999 v) as [Hhi | Hhi].
  { intros [_ H]. by apply (Qlt_not_le _ _ Hhi). }
  exists v. unfold clampedShade. repeat split; try done; lia.
Qed.

Lemma effectiveRange_positive (globalMin globalMax : Q) :
  globalMin < globalMax ->
  effectiveRange globalMin globalMax = globalMax - globalMin
  /\ 0 < effectiveRange globalMin globalMax.
Proof.
  intros Hlt. unfold effectiveRange.
  assert (0 < globalMax - globalMin) as Hpos.
  { by apply (proj1 (Qlt_minus_iff globalMin globalMax)). }
  destruct (Qeq_bool (globalMax - globalMin) 0) eqn:E; [|done].
  apply Qeq_bool_iff in E. rewrite E in Hpos. by apply Qlt_irrefl in Hpos.
Qed.

Lemma scaled_le (globalMin range v1 v2 : Q) :
  0 < range -> v1 <= v2 ->
  (v1 - globalMin) / range * 255 <= (v2 - globalMin) / range * 255.
Proof.
  intros Hr Hv. apply Qmult_le_compat_r; [|done].
  apply Qmult_le_compat_r; [|by apply Qlt_le_weak, Qinv_lt_0_compat].
  apply Qplus_le_compat; [done | apply Qle_refl].
Qed.

(** When the global minimum is below the global maximum, the ramp runs
    from black at the minimum to white at the maximum and never goes down
    in between; values below the minimum are black and values above the
    maximum are white. *)
Theorem ramp_runs_from_black_to_white (globalMin globalMax : Q) :
  globalMin < globalMax ->
  let shade := clampedShade globalMin (effectiveRange globalMin globalMax) in
  shade globalMin = 0%Z
  /\ shade globalMax = 255%Z
  /\ (forall v1 v2, v1 <= v2 -> (shade v1 <= shade v2)%Z)
  /\ (forall v, v <= globalMin -> shade v = 0%Z)
  /\ (forall v, globalMax <= v -> shade v = 255%Z).
Proof.
  intros Hlt. destruct (effectiveRange_positive _ _ Hlt) as [Er Hpos].
  simpl.
  assert (clampedShade globalMin (effectiveRange globalMin globalMax) globalMin = 0%Z) as H0.
  { unfold clampedShade.
    rewrite (Qfloor_comp _ 0); [done|]. unfold Qdiv. ring. }
  assert (clampedShade globalMin (effectiveRange globalMin globalMax) globalMax = 255%Z) as H255.
  { unfold clampedShade. rewrite Er.
    rewrite (Qfloor_comp _ 255); [done|]. field.
    intros E. rewrite Er in Hpos. rewrite E in Hpos. by apply Qlt_irrefl in Hpos. }
  assert (forall v1 v2, v1 <= v2 ->
            (clampedShade globalMin (effectiveRange globalMin globalMax) v1
             <= clampedShade globalMin (effectiveRange globalMin globalMax) v2)%Z) as Hmono.
  { intros v1 v2 Hv. unfold clampedShade.
    pose proof (Qfloor_resp_le _ _ (scaled_le globalMin _ v1 v2 Hpos Hv)). lia. }
  repeat split; try done.
  - intros v Hv. pose proof (Hmono v globalMin Hv) as H. rewrite H0 in H.
    unfold clampedShade in *. lia.
  - intros v Hv. pose proof (Hmono globalMax v Hv) as H. rewrite H255 in H.
    unfold clampedShade in *. lia.
Qed.

Lemma ramp_runs_from_black_to_white_witness :
  clampedShade 0 (effectiveRange 0 200) 0 = 0%Z.
Proof.
  refine (proj1 (ramp_runs_from_black_to_white 0 200 _)). reflexivity.
Defined.

Lemma firstPass_tiles (fetch : string -> Tile) (files : list File) : forall acc,
  let pass := fold_left (loadOne fetch) files acc in
  map fst (loadedGeorasters pass)
  = (map fst (loadedGeorasters acc) ++ loadedTiles fetch files)%list
  /\ List.filter is_error (console pass)
     = (List.filter is_error (console acc)
        ++ map (fun file => Error ("Error loading or parsing DEM data for "
                                   +:+ file_name file +:+ ":"))
             (failedFiles fetch files))%list.
Proof.
  induction files as [|file files IH]; intros acc; simpl.
  - by rewrite !app_nil_r.
  - destruct (IH (loadOne fetch acc file)) as [-> ->].
    unfold loadOne, loadedTiles, failedFiles. simpl.
    destruct (fetch (url file)) as [|g]; simpl.
    + rewrite List.filter_app. simpl. by rewrite <- app_assoc.
    + destruct (first_number (mins g)), (first_number (maxs g)); simpl;
        rewrite ?map_app, ?List.filter_app; simpl; rewrite <- ?app_assoc, ?app_nil_r; done.
Qed.

Lemma declared_means_loaded (fetch : string -> Tile) (files : list File) :
  declaredMins fetch files <> [] -> loadedTiles fetch files <> [].
Proof.
  unfold declaredMins, loadedTiles. induction files as [|file files IH]; simpl; [done|].
  destruct (fetch (url file)) as [|g]; simpl; [done | done].
Qed.

(** What [loadFiles] computes, in terms of the files. *)
Lemma loadFiles_spec (fetch : string -> Tile) (files : list File) :
  let out := loadFiles fetch files in
  match declaredMins fetch files, declaredMaxs fetch files with
  | m :: ms, M :: Ms =>
      globalRange out = Some (Math_min m ms, Math_max M Ms)
      /\ map georaster (layers out) = loadedTiles fetch files
      /\ Forall (fun layer => opacity layer = 7 # 10 /\ resolution layer = 256%nat)
           (layers out)
  | _, _ => globalRange out = None /\ layers out = []
  end.
Proof.
  unfold loadFiles.
  destruct (DemFacts.firstPass_spec fetch files
              {| loadedGeorasters := []; allMins := []; allMaxs := []; console := [] |})
    as [Emin Emax].
  destruct (firstPass_tiles fetch files
              {| loadedGeorasters := []; allMins := []; allMaxs := []; console := [] |})
    as [Etiles _].
  fold (firstPass fetch files) in Emin, Emax, Etiles. simpl in Emin, Emax, Etiles.
  rewrite <- Emin, <- Emax.
  destruct (allMins (firstPass fetch files)) as [|m ms] eqn:Hm.
  { by destruct (loadedGeorasters (firstPass fetch files)). }
  destruct (allMaxs (firstPass fetch files)) as [|M Ms] eqn:HM.
  { by destruct (loadedGeorasters (firstPass fetch files)). }
  destruct (loadedGeorasters (firstPass fetch files)) as [|g gs] eqn:Hg.
  { exfalso. apply (declared_means_loaded fetch files); [by rewrite <- Emin|].
    by rewrite <- Etiles. }
  cbn [globalRange layers]. split; [done|]. split.
  - rewrite <- Etiles, map_map. apply map_ext. by intros [g' n'].
  - apply Forall_forall. intros layer Hin.
    apply list_elem_of_In, in_map_iff in Hin as ([g' n'] & <- & _). done.
Qed.

(** A layer is added for every tile that loaded, in file order, with or
    without statistics of its own, as soon as some tile declares a minimum
    and some tile a maximum; without one of the two nothing is added. One
    error is logged for each file that failed. *)
Theorem one_layer_per_loaded_tile (fetch : string -> Tile) (files : list File) :
  let out := loadFiles fetch files in
  (declaredMins fetch files = [] \/ declaredMaxs fetch files = [] ->
   layers out = [] /\ globalRange out = None)
  /\ (declaredMins fetch files <> [] -> declaredMaxs fetch files <> [] ->
      map georaster (layers out) = loadedTiles fetch files)
  /\ List.filter is_error (log out)
     = map (fun file => Error ("Error loading or parsing DEM data for "
                               +:+ file_name file +:+ ":"))
         (failedFiles fetch files).
Proof.
  pose proof (loadFiles_spec fetch files) as Hspec. simpl in *.
  split; [|split].
  - intros [E | E]; rewrite E in Hspec; [tauto|].
    destruct (declaredMins fetch files); tauto.
  - intros Hm HM.
    destruct (declaredMins fetch files); [done|].
    destruct (declaredMaxs fetch files); [done|]. tauto.
  - unfold loadFiles.
    destruct (firstPass_tiles fetch files
                {| loadedGeorasters := []; allMins := []; allMaxs := []; console := [] |})
      as [_ Elog].
    fold (firstPass fetch files) in Elog. simpl in Elog.
    destruct (loadedGeorasters (firstPass fetch files)),
      (allMins (firstPass fetch files)), (allMaxs (firstPass fetch files));
      cbn [log]; rewrite ?List.filter_app, ?Elog; simpl; by rewrite ?app_nil_r.
Qed.

(** When every tile that loads declares a minimum and a maximum with the
    minimum not above the maximum, the global minimum is not above the
    global maximum. *)
Theorem global_range_is_ordered
    (fetch : string -> Tile) (files : list File) (globalMin globalMax : Q) :
  (forall file g, In file files -> fetch (url file) = Loaded g ->
     exists m M, first_number (mins g) = Some m
                 /\ first_number (maxs g) = Some M /\ m <= M) ->
  globalRange (loadFiles fetch files) = Some (globalMin, globalMax) ->
  globalMin <= globalMax.
Proof.
  intros Htiles Hrange. pose proof (loadFiles_spec fetch files) as Hspec. simpl in Hspec.
  destruct (declaredMins fetch files) as [|m ms] eqn:Hm.
  { destruct Hspec as [E _]. by rewrite E in Hrange. }
  destruct (declaredMaxs fetch files) as [|M Ms] eqn:HM.
  { destruct Hspec as [E _]. by rewrite E in Hrange. }
  destruct Hspec as [E _]. rewrite E in Hrange. injection Hrange as <- <-.
  destruct (DemFacts.Math_min_spec ms m) as [_ Hle].
  destruct (DemFacts.Math_max_spec Ms M) as [_ Hge].
  assert (m ∈ declaredMins fetch files) as Hin by (rewrite Hm; by left).
  apply list_elem_of_omap in Hin as (file & Hfile & Hf).
  destruct (fetch (url file)) as [|g] eqn:Hg; [done|].
  destruct (Htiles file g) as (m' & M' & H1 & H2 & H3); [by apply list_elem_of_In | done |].
  rewrite H1 in Hf. injection Hf as ->.
  assert (M' ∈ declaredMaxs fetch files) as HinM.
  { apply list_elem_of_omap. exists file. split; [done|]. by rewrite Hg. }
  rewrite HM in HinM.
  eapply Qle_trans; [apply Hle; by left|].
  eapply Qle_trans; [exact H3|]. apply Hge. by apply list_elem_of_In.
Qed.

Lemma global_range_is_ordered_witness : 0 <= 200.
Proof.
  refine (global_range_is_ordered Samples.two_tiles demFiles 0 200 _ _).
  - intros file g Hfile Hg. vm_compute in Hfile.
    destruct Hfile as [<- | [<- | [<- | []]]]; vm_compute in Hg;
      [injection Hg as <- | injection Hg as <- | discriminate].
    + exists 0, 100. repeat split; try reflexivity. discriminate.
    + exists 50, 200. repeat split; try reflexivity. discriminate.
  - by_evaluation.
Defined.

End DemRampFacts.

(** ** Skipped parts and late answers *)
Module LoadFacts.
Import TreeLoader.

Section Loader.
Context {A : Type}.
Variable maxArguments : nat.
Implicit Types (responses : nat -> Response A).

#[local] Abbreviation loadTreeDataParts := (loadTreeDataParts maxArguments).
#[local] Abbreviation contribution := (contribution maxArguments).
#[local] Abbreviation skipped := (skipped maxArguments).
#[local] Abbreviation console_of := (console_of maxArguments).

Lemma console_of_console responses (ps : list nat) :
  List.filter is_console (flat_map (fun i => console_of i (responses i)) ps)
  = flat_map (fun i => console_of i (responses i)) ps.
Proof.
  induction ps as [|i ps IH]; simpl; [done|].
  rewrite List.filter_app, IH. f_equal.
  destruct (responses i) as [| status | | [| [t|] [fs|]]]; simpl; try done.
  destruct (String.eqb t "FeatureCollection"); [|done].
  by destruct (length fs <=? maxArguments)%nat.
Qed.

Lemma console_of_count responses (ps : list nat) :
  length (flat_map (fun i => console_of i (responses i)) ps)
  = length (List.filter (fun i => skipped (responses i)) ps).
Proof.
  induction ps as [|i ps IH]; simpl; [done|].
  rewrite length_app, IH. unfold TreeLoader.skipped.
  destruct (responses i) as [| status | | [| [t|] [fs|]]]; simpl; try done.
  destruct (String.eqb t "FeatureCollection"); [|done].
  by destruct (length fs <=? maxArguments)%nat.
Qed.

Lemma fetches_not_console (ps : list nat) :
  List.filter is_console (map (fun i => Fetch (A:=A) (fileName i)) ps) = [].
Proof. induction ps; simpl; done. Qed.

(** Once every part has settled, the console holds one entry for each part
    that was skipped, whatever the order of settlement: a part that did
    not fetch or parse to a well-formed collection, or a well-formed part
    with more features than the spread of [push] takes. When all six are
    skipped the dataset is still set, once, to the empty collection. The
    merged list is as long as the contributions together. *)
Theorem one_console_entry_per_skipped_part
    (responses : nat -> Response A) (schedule : list nat) :
  all_settled schedule = true ->
  let st := loadTreeDataParts responses schedule in
  length (List.filter is_console (trace st))
  = length (List.filter (fun i => skipped (responses i)) parts)
  /\ (forall i, skipped (responses i) = true
                <-> parsed (responses i) = None
                    \/ exists fs, parsed (responses i) = Some fs
                                  /\ maxArguments < length fs)
  /\ length (allFeatures st)
     = length (flat_map (fun i => contribution (responses i)) parts)
  /\ ((forall i, In i parts -> skipped (responses i) = true) ->
      datasets (trace st) = [[]]).
Proof.
  intros Hall st.
  pose proof (proj1 (TreeFacts.all_settled_In schedule) Hall) as Hin.
  assert (NoDup parts) as Hnd by (apply NoDup_ListNoDup, List.seq_NoDup).
  destruct (TreeFacts.fold_settle_spec maxArguments responses schedule started)
    as (Ef & Ep & Et); [done|].
  fold (loadTreeDataParts responses schedule) in Ef, Ep, Et. fold st in Ef, Ep, Et.
  rewrite TreeFacts.started_spec in Ef, Ep, Et.
  cbn [allFeatures fetchPromises trace app] in Ef, Ep, Et.
  rewrite (TreeFacts.filter_unsettled_all _ _ Hin) in Ep. rewrite Ep in Et.
  pose proof (TreeFacts.settle_order_perm schedule parts Hnd Hin) as Hperm.
  split; [|split; [|split]].
  - rewrite <- (console_of_count responses parts).
    rewrite Et, !List.filter_app, fetches_not_console, console_of_console.
    change (List.filter is_console [SetTreeData (allFeatures st)]) with (@nil (Effect A)).
    rewrite app_nil_r, app_nil_l.
    apply Permutation_length. by apply Permutation_flat_map.
  - intros i. unfold TreeLoader.skipped.
    destruct (parsed (responses i)) as [fs|]; [|by intuition].
    destruct (Nat.leb_spec (length fs) maxArguments) as [Hle | Hlt]; simpl.
    + split; [done|]. intros [? | (fs' & [= <-] & Hlt)]; [done | lia].
    + split; [|done]. intros _. right. eauto.
  - rewrite Ef. apply Permutation_length. by apply Permutation_flat_map.
  - intros Hskip.
    assert (allFeatures st = []) as E.
    { rewrite Ef.
      assert (forall ps, (forall i, In i ps -> In i parts) ->
                flat_map (fun i => contribution (responses i)) ps = []) as Hnil.
      { induction ps as [|i ps IH]; intros Hps; simpl; [done|].
        destruct (TreeFacts.skipped_contribution maxArguments i (responses i)) as [-> _].
        - apply Hskip, Hps. by left.
        - apply IH. intros j Hj. apply Hps. by right. }
      apply Hnil. intros i Hi. by eapply Permutation_in. }
    rewrite Et, !TreeFacts.datasets_app, TreeFacts.datasets_fetches,
      (TreeFacts.datasets_console maxArguments), E. done.
Qed.

End Loader.

(** Part 3 answers 404, every other part holds two trees, and the engine
    takes three arguments: one entry, for part 3. *)
Lemma one_console_entry_per_skipped_part_witness :
  length (List.filter is_console
            (trace (loadTreeDataParts 3 Samples.part_three_fails [3; 1; 2; 6; 5; 4])))
  = length (List.filter (fun i => skipped 3 (Samples.part_three_fails i)) parts).
Proof.
  refine (proj1 (one_console_entry_per_skipped_part 3 Samples.part_three_fails
                   [3; 1; 2; 6; 5; 4] _)).
  by_evaluation.
Defined.

Import Js GeoJSON App.

(** No fetch is cancelled: an answer that arrives while its layer is
    hidden becomes the dataset of the hidden layer, and its features are
    stored without a key being written. *)
Theorem late_answer_fills_a_hidden_layer
    (s s' : State) (schools : list Feature) :
  visible "schools" s = false ->
  0 < schoolFetches s ->
  step (SchoolsResponse (Some schools)) s = Normal s' ->
  visible "schools" s' = false
  /\ schoolData s' = Some {| features := seq (next_loc s) (length schools) |}
  /\ schoolFetches s' = schoolFetches s - 1
  /\ objects s' = store_all schools (next_loc s) (objects s).
Proof.
  intros Hvis Hfetch Hstep.
  pose proof (AppFacts.step_observables _ _ _ Hstep) as (Hv & _ & HeS).
  unfold step in Hstep.
  destruct (render (handle (SchoolsResponse (Some schools)) s)) as [s2|] eqn:Hr; [|done].
  injection Hstep as <-. apply AppFacts.render_frame in Hr.
  destruct (SelectionFacts.run_effects_schools s s2) as [Ho _].
  simpl in *. destruct (schoolFetches s) as [|n] eqn:Hn; [lia|]. simpl in *.
  assert (visible "schools"
            (setSchoolData (Some {| features := seq (next_loc s) (length schools) |})
               (set_objects (store_all schools (next_loc s) (objects s))
                  (next_loc s + length schools)
                  (set_inflight (wardFetches s) n (treeLoads s) s))) = false) as Hvis'
    by done.
  rewrite Hvis' in *. rewrite Hvis in HeS. simpl in HeS. destruct HeS as [-> ->].
  rewrite Hv, Ho. subst s2. simpl. repeat split; try done. lia.
Qed.

Lemma late_answer_fills_a_hidden_layer_witness :
  visible "schools"
    (state_of (step (SchoolsResponse (Some [Samples.school]))
                 (state_of (step (Toggle "schools") mount)))) = false.
Proof.
  refine (proj1 (late_answer_fills_a_hidden_layer
                   (state_of (step (Toggle "schools") mount))
                   (state_of (step (SchoolsResponse (Some [Samples.school]))
                                (state_of (step (Toggle "schools") mount))))
                   [Samples.school] _ _ _)).
  - by_evaluation.
  - vm_compute. lia.
  - by_evaluation.
Defined.

End LoadFacts.

(** ** The overlays of the DEM layer *)
Module DemLayerFacts.
Import DEMLayer.

Lemma removeLayer_all (l : list Overlay) : forall m,
  fold_left removeLayer l m
  = List.filter (fun o => negb (existsb (fun o' => (overlay_id o =? overlay_id o')%nat) l)) m.
Proof.
  induction l as [|o l IH]; intros m; simpl.
  - induction m as [|x m IHm]; simpl; by f_equal.
  - rewrite IH. unfold removeLayer. induction m as [|x m IHm]; simpl; [done|].
    destruct (overlay_id x =? overlay_id o)%nat; simpl; [done|].
    destruct (negb _); by rewrite IHm.
Qed.

Lemma removeLayer_self (l : list Overlay) : fold_left removeLayer l l = [].
Proof.
  rewrite removeLayer_all.
  assert (forall m, (forall o, In o m -> In o l) ->
            List.filter (fun o => negb (existsb (fun o' => (overlay_id o =? overlay_id o')%nat) l)) m
            = []) as H.
  { induction m as [|x m IH]; intros Hm; simpl; [done|].
    assert (existsb (fun o' => (overlay_id x =? overlay_id o')%nat) l = true) as ->.
    { apply existsb_exists. exists x. split; [apply Hm; by left | apply Nat.eqb_refl]. }
    simpl. apply IH. intros o Ho. apply Hm. by right. }
  by apply H.
Qed.

Lemma clear_tracked (s : State) :
  onMap s = geoRasterLayersRef s ->
  onMap (clear s) = [] /\ geoRasterLayersRef (clear s) = []
  /\ visible (clear s) = visible s /\ loads (clear s) = loads s.
Proof.
  intros E. unfold clear. destruct (geoRasterLayersRef s) as [|o l] eqn:Hl; simpl.
  - by rewrite E.
  - rewrite E. split; [|done]. apply (removeLayer_self (o :: l)).
Qed.

Lemma effect_tracked (s : State) :
  onMap s = geoRasterLayersRef s ->
  onMap (effect s) = [] /\ geoRasterLayersRef (effect s) = [].
Proof.
  intros E. destruct (clear_tracked s E) as (H1 & H2 & _).
  unfold effect. by destruct (negb (visible (clear s))).
Qed.

Lemma addLayers_tracked (layers : list DEM.GeoRasterLayer) : forall s,
  onMap s = geoRasterLayersRef s ->
  let s' := fold_left addLayer layers s in
  onMap s' = geoRasterLayersRef s'
  /\ length (onMap s') = length (onMap s) + length layers
  /\ map overlay (onMap s') = map overlay (onMap s) ++ layers
  /\ visible s' = visible s.
Proof.
  induction layers as [|layer layers IH]; intros s E; simpl.
  - by rewrite Nat.add_0_r, app_nil_r.
  - destruct (IH (addLayer s layer)) as (H1 & H2 & H3 & H4); [by simpl; rewrite E|].
    split; [done|]. rewrite H2, H3, H4. simpl.
    rewrite length_app, map_app, <- app_assoc. simpl. repeat split; try done. lia.
Qed.

Lemma cleanup_tracked (s : State) :
  onMap s = geoRasterLayersRef s -> onMap (cleanup s) = geoRasterLayersRef (cleanup s).
Proof.
  intros E. unfold cleanup. destruct (visible s); [|done].
  by destruct (clear_tracked s E) as (-> & -> & _).
Qed.

Lemma render_tracked (v : bool) (s : State) :
  onMap s = geoRasterLayersRef s ->
  onMap (render v s) = geoRasterLayersRef (render v s)
  /\ (v <> visible s -> onMap (render v s) = []).
Proof.
  intros E. unfold render. destruct (Bool.eqb v (visible s)) eqn:Ev.
  - split; [done|]. intros Hne. by apply Bool.eqb_prop in Ev.
  - pose proof (cleanup_tracked s E) as Ec.
    match goal with |- context [effect ?s0] =>
      destruct (effect_tracked s0) as [-> ->]; done end.
Qed.

Lemma step_tracked (s : State) (e : Event) :
  onMap s = geoRasterLayersRef s -> onMap (step s e) = geoRasterLayersRef (step s e).
Proof.
  intros E. destruct e as [v | fetch]; simpl.
  - by apply render_tracked.
  - unfold loaded. destruct (loads s); [done|].
    by apply addLayers_tracked.
Qed.

(** Every overlay the component has put on the map is in its ref, however
    the prop changed and whenever the loads ended. So a change of the prop
    takes all of them off the map, and clearing again, or with nothing
    there, changes nothing. The unmount takes them off while the prop is
    true; while it is false the last effect left no cleanup and the
    unmount changes nothing. A load that ends puts one overlay on the map
    for each layer it made, whatever the prop is by then: when the layer
    is hidden by then, these overlays are still on the map after the
    unmount. *)
Theorem overlays_are_tracked_and_removed (v : bool) (events : list Event) :
  let s := run v events in
  onMap s = geoRasterLayersRef s
  /\ onMap (render (negb (visible s)) s) = []
  /\ clear (clear s) = clear s
  /\ (if visible s then onMap (unmount s) = [] else unmount s = s)
  /\ (forall fetch, 0 < loads s ->
        let s' := loaded fetch s in
        map overlay (onMap s')
        = map overlay (onMap s) ++ DEM.layers (DEM.loadGeoRasters fetch)
        /\ visible s' = visible s
        /\ (visible s = false ->
            map overlay (onMap (unmount s'))
            = map overlay (onMap s) ++ DEM.layers (DEM.loadGeoRasters fetch))).
Proof.
  simpl.
  assert (onMap (run v events) = geoRasterLayersRef (run v events)) as E.
  { unfold run.
    assert (onMap (mount v) = geoRasterLayersRef (mount v)) as E0.
    { unfold mount. match goal with |- context [effect ?s0] =>
        destruct (effect_tracked s0) as [-> ->]; done end. }
    revert E0. generalize (mount v).
    induction events as [|e events IH]; intros s E0; simpl; [done|].
    by apply IH, step_tracked. }
  split; [done|]. split; [|split; [|split]].
  - apply render_tracked; [done|]. by destruct (visible (run v events)).
  - destruct (clear_tracked _ E) as (_ & H2 & _).
    unfold clear at 1. by rewrite H2.
  - unfold unmount, cleanup. destruct (visible (run v events)); [|done].
    by apply clear_tracked.
  - intros fetch Hl. unfold loaded. destruct (loads (run v events)) as [|n]; [lia|].
    match goal with |- context [fold_left addLayer ?ls ?s0] =>
      destruct (addLayers_tracked ls s0 E) as (_ & _ & H3 & H4) end.
    split; [done|]. split; [done|]. intros Hv.
    unfold unmount, cleanup. simpl in H3, H4. rewrite H4. rewrite Hv at 1. exact H3.
Qed.

(** The layer is shown and hidden before its load ends: the two overlays
    of the load are put on the map of the hidden layer, and are there
    after the unmount. *)
Lemma late_overlays_outlive_the_component :
  let s := run false [Render true; Render false; Loaded Samples.two_tiles] in
  visible s = false /\ length (onMap s) = 2 /\ length (onMap (unmount s)) = 2.
Proof. cbv zeta. repeat split; by_evaluation. Qed.

End DemLayerFacts.

(** ** Trimmed names *)
Module TrimFacts.
Import Js Bookmarks.

Lemma chars_trimStart (s : string) :
  list_ascii_of_string (trimStart s) = skip_white (list_ascii_of_string s).
Proof. induction s as [|c s IH]; simpl; [done|]. by destruct (is_white c). Qed.

Lemma chars_rev_app (s acc : string) :
  list_ascii_of_string (String.rev_app s acc)
  = reverse (list_ascii_of_string s) ++ list_ascii_of_string acc.
Proof.
  revert acc. induction s as [|c s IH]; intros acc; simpl; [done|].
  by rewrite IH, reverse_cons, <- app_assoc.
Qed.

Lemma chars_rev (s : string) :
  list_ascii_of_string (String.rev s) = reverse (list_ascii_of_string s).
Proof. unfold String.rev. by rewrite chars_rev_app, app_nil_r. Qed.

Lemma chars_trim (s : string) :
  list_ascii_of_string (trim s)
  = reverse (skip_white (reverse (skip_white (list_ascii_of_string s)))).
Proof.
  unfold trim, trimEnd. by rewrite chars_rev, chars_trimStart, chars_rev, chars_trimStart.
Qed.

Lemma skip_white_head (l : list ascii) (a : ascii) :
  head (skip_white l) = Some a -> is_white a = false.
Proof.
  induction l as [|c l IH]; simpl; [done|].
  destruct (is_white c) eqn:E; [done|]. by intros [= <-].
Qed.

Lemma skip_white_last (l : list ascii) :
  skip_white l <> [] -> last (skip_white l) = last l.
Proof.
  induction l as [|c l IH]; simpl; [done|].
  destruct (is_white c); [|done]. intros Hne. rewrite IH by done.
  destruct l; [done|]. done.
Qed.

(** What [trim] returns is empty or trimmed. *)
Lemma trim_trimmed (s : string) : trim s <> "" -> trimmed (trim s).
Proof.
  intros Hne. unfold trimmed, first_char, last_char. rewrite chars_trim.
  set (u := skip_white (list_ascii_of_string s)).
  set (t := skip_white (reverse u)).
  assert (t <> []) as Ht.
  { intros Ht. apply Hne.
    rewrite <- (string_of_list_ascii_of_string (trim s)), chars_trim.
    fold u. fold t. by rewrite Ht. }
  rewrite head_reverse, last_reverse.
  destruct (head t) as [b|] eqn:Hb; [|by destruct t].
  assert (last t = head u) as Hl.
  { unfold t. rewrite (skip_white_last (reverse u) Ht). apply last_reverse. }
  rewrite Hl.
  destruct (head u) as [a|] eqn:Ha.
  - exists a, b. repeat split; try done; by eapply skip_white_head.
  - exfalso. apply Ht. subst t. by destruct u.
Qed.

Lemma trimStart_fixed (s : string) (a : ascii) :
  first_char s = Some a -> is_white a = false -> trimStart s = s.
Proof. destruct s as [|c s]; simpl; [done|]. intros [= ->] ->. done. Qed.

(** Trimming what is trimmed changes nothing: [trim] is idempotent. *)
Lemma trim_idempotent (s : string) : trim (trim s) = trim s.
Proof.
  destruct (string_dec (trim s) "") as [E | Hne]; [by rewrite E|].
  destruct (trim_trimmed s Hne) as (a & b & Ha & Hwa & Hb & Hwb).
  unfold trim at 1. rewrite (trimStart_fixed _ a Ha Hwa).
  unfold trimEnd.
  assert (trimStart (String.rev (trim s)) = String.rev (trim s)) as ->.
  { apply (trimStart_fixed _ b); [|done].
    unfold first_char. by rewrite chars_rev, head_reverse. }
  rewrite <- (string_of_list_ascii_of_string (String.rev _)).
  by rewrite !chars_rev, reverse_involutive, string_of_list_ascii_of_string.
Qed.

Section Widget.
Context {number : Type}.
Variable JSON_stringify : list (Bookmark number) -> string.

(** A bookmark is saved under the trimmed name: the name of the new entry
    is not empty, has no white space at either end, and trimming it again
    gives the same name; the entry is the last of the list. *)
Theorem saved_names_are_trimmed
    (st : World number) (c : number * number) (z now : number) :
  trim (newBookmarkName (widget st)) <> "" ->
  exists b,
    bookmarks (widget (saveCurrentViewAsBookmark JSON_stringify c z now st))
    = bookmarks (widget st) ++ [b]
    /\ id b = now /\ center b = c /\ zoom b = z
    /\ name b <> "" /\ trimmed (name b) /\ trim (name b) = name b.
Proof.
  intros Hne. unfold saveCurrentViewAsBookmark.
  pose proof Hne as Hne'. apply String.eqb_neq in Hne'. rewrite Hne'. simpl.
  eexists. split; [done|]. simpl. repeat split; try done.
  - by apply trim_trimmed.
  - apply trim_idempotent.
Qed.

End Widget.

Lemma saved_names_are_trimmed_witness :
  exists b,
    bookmarks (widget (saveCurrentViewAsBookmark Samples.stringify (13%Z, 78%Z) 15%Z
                         1700000360000%Z Samples.naming_lalbagh))
    = bookmarks (widget Samples.naming_lalbagh) ++ [b]
    /\ id b = 1700000360000%Z /\ center b = (13%Z, 78%Z) /\ zoom b = 15%Z
    /\ name b <> "" /\ trimmed (name b) /\ trim (name b) = name b.
Proof.
  refine (saved_names_are_trimmed Samples.stringify Samples.naming_lalbagh
            (13%Z, 78%Z) 15%Z 1700000360000%Z _).
  vm_compute. discriminate.
Defined.

End TrimFacts.
